(** * The nilearn PFC-workshop notebooks

    The repository is two Jupyter notebooks, [Notebooks/intro-to-nilearn.ipynb]
    and [Notebooks/classification-example.ipynb].  Their code cells are
    embedded here in two ways:

    - the data path of the cells that compute on Python values (boolean-mask
      indexing, list concatenation, [np.unique], the scoring loop,
      [np.fill_diagonal] on a shared array) as executable functions in an
      error monad, with the estimators of nilearn and scikit-learn as the
      variables of a section;
    - the control skeleton of every code cell as a syntax tree with an
      exception-and-trace semantics, for the statements about loops,
      handlers and the order of library calls. *)

From stdpp Require Import gmap strings list pretty.
From Stdlib Require Import QArith.
From Stdlib Require OrderedTypeEx.
From Stdlib Require Import Sorted.

Close Scope Q_scope.

(** ** Python results: a value or a raised exception *)

Inductive exn : Type :=
| IndexError
| KeyError
| ValueError
| AssertionError.

Inductive result (A : Type) : Type :=
| Ok (a : A)
| Raise (e : exn).

Arguments Ok {A} a.
Arguments Raise {A} e.

#[global] Instance result_ret : MRet result := fun _ a => Ok a.

#[global] Instance result_bind : MBind result := fun _ _ k r =>
  match r with
  | Ok a => k a
  | Raise e => Raise e
  end.

(** [for x in xs: body], threading the variables the body rebinds. *)
Fixpoint for_each {A S : Type} (xs : list A) (body : A -> S -> result S) (s : S)
  : result S :=
  match xs with
  | [] => Ok s
  | x :: rest => s' ← body x s; for_each rest body s'
  end.

(** [[f(x) for x in xs]] where [f] may raise. *)
Fixpoint list_comp {A B : Type} (f : A -> result B) (xs : list A) : result (list B) :=
  match xs with
  | [] => Ok []
  | x :: rest => y ← f x; ys ← list_comp f rest; Ok (y :: ys)
  end.

(** ** Results that tell which operation raised

    The operations of a cell are named as the cell writes them. *)
Inductive attempt (A : Type) : Type :=
| Done (a : A)
| Failed (operation : string) (e : exn).

Arguments Done {A} a.
Arguments Failed {A} operation e.

#[global] Instance attempt_ret : MRet attempt := fun _ a => Done a.

#[global] Instance attempt_bind : MBind attempt := fun _ _ k r =>
  match r with
  | Done a => k a
  | Failed operation e => Failed operation e
  end.

Definition at_ {A : Type} (operation : string) (r : result A) : attempt A :=
  match r with
  | Ok a => Done a
  | Raise e => Failed operation e
  end.

(** [for x in xs: body] on variables that outlive an exception: the
    variables as the loop left them, and how it ended. *)
Fixpoint for_each_kept {A S : Type} (xs : list A)
    (body : A -> S -> S * attempt unit) (s : S) : S * attempt unit :=
  match xs with
  | [] => (s, Done tt)
  | x :: rest =>
      match body x s with
      | (s', Done _) => for_each_kept rest body s'
      | stopped => stopped
      end
  end.

(** ** Floating-point results as the notebooks use them

    The scores are exact fractions of small integers and their averages; they
    are kept as rationals, with the one non-number numpy can return here. *)
Inductive pyfloat : Type :=
| Fin (q : Q)
| NaN.


(** ** The numpy operations the cells call *)
Module Np.

(** [a[mask]] for a boolean [mask]: the items at the positions where the
    mask holds.  numpy raises IndexError unless the mask is as long as the
    indexed axis; a mask of length 0 is taken on an axis of any length and
    selects nothing. *)
Fixpoint mask_select {A : Type} (xs : list A) (mask : list bool) : list A :=
  match xs, mask with
  | x :: xs', b :: mask' =>
      if b then x :: mask_select xs' mask' else mask_select xs' mask'
  | _, _ => []
  end.

Definition bool_index {A : Type} (xs : list A) (mask : list bool) : result (list A) :=
  if Nat.eqb (length mask) 0 || Nat.eqb (length xs) (length mask)
  then Ok (mask_select xs mask) else Raise IndexError.

(** [a[idx]] for an integer array [idx] (non-negative indices). *)
Definition take {A : Type} (xs : list A) (idx : list nat) : result (list A) :=
  list_comp (fun i => match xs !! i with
                      | Some x => Ok x
                      | None => Raise IndexError
                      end) idx.

(** [column == value], element by element. *)
Definition eq_elementwise (column : list string) (value : string) : list bool :=
  map (fun s => String.eqb s value) column.

(** [np.unique(a, return_inverse=True)]: the sorted distinct values, and for
    every element of [a] its position among them. *)
Fixpoint insert_sorted (s : string) (us : list string) : list string :=
  match us with
  | [] => [s]
  | u :: rest =>
      match String.compare s u with
      | Eq => us
      | Lt => s :: us
      | Gt => u :: insert_sorted s rest
      end
  end.

Definition sorted_distinct (a : list string) : list string :=
  foldr insert_sorted [] a.

Fixpoint position (s : string) (us : list string) : nat :=
  match us with
  | [] => 0
  | u :: rest => if String.eqb s u then 0 else S (position s rest)
  end.

Definition unique_inverse (a : list string) : list string * list nat :=
  let us := sorted_distinct a in
  (us, map (fun s => position s us) a).

(** [np.fill_diagonal(a, val)] on a two-dimensional array held as its rows:
    row [i] gets [val] in column [i] when it has one. *)
Definition fill_diagonal {A : Type} (a : list (list A)) (val : A) : list (list A) :=
  imap (fun i row => <[i := val]> row) a.

(** [np.mean] of a one-dimensional sequence: NaN on an empty one and whenever
    an element is NaN. *)
Fixpoint total (xs : list pyfloat) : pyfloat :=
  match xs with
  | [] => Fin 0%Q
  | Fin q :: rest =>
      match total rest with
      | Fin s => Fin (q + s)%Q
      | NaN => NaN
      end
  | NaN :: _ => NaN
  end.

Definition mean (xs : list pyfloat) : pyfloat :=
  match xs, total xs with
  | _ :: _, Fin s => Fin (s / inject_Z (Z.of_nat (length xs)))%Q
  | _, _ => NaN
  end.

End Np.

(** ** The count behind scikit-learn's accuracy *)
Module Sk.

Fixpoint matches (y_true y_pred : list nat) : nat :=
  match y_true, y_pred with
  | t :: ts, p :: ps => (if Nat.eqb t p then 1 else 0) + matches ts ps
  | _, _ => 0
  end.

(** The fraction of positions where two label vectors agree, for vectors of
    one length that is not 0. *)
Definition fraction (y_true y_pred : list nat) : Q :=
  Z.of_nat (matches y_true y_pred) # Pos.of_nat (length y_true).

End Sk.

(** ** The Python subset of the code cells

    Constructors are named after the nodes of Python's [ast] module.  A
    string literal keeps its text with escapes as written; [Constant] holds
    a number, [True], [False] or [None] as Python prints it.  [Magic] is a
    line for IPython ([%], [!] or [?]). *)
Module Py.

Inductive expr : Type :=
| Name (id : string)
| Constant (literal : string)
| Str (s : string)
| JoinedStr (values : list expr)
| Attribute (value : expr) (attr : string)
| Subscript (value slice : expr)
| Call (func : expr) (args keywords : list expr)
| Keyword (arg : string) (value : expr)
| BinOp (lhs : expr) (op : string) (rhs : expr)
| Compare (lhs : expr) (op : string) (rhs : expr)
| Tuple (elts : list expr)
| ListE (elts : list expr)
| Dict (keys values : list expr)
| ListComp (elt target iter : expr)
| IfExp (test body orelse : expr)
| Lambda (body : expr).

Inductive stmt : Type :=
| Magic (line : string)
| Import (module : string) (asname : option string)
| ImportFrom (module : string) (names : list string)
| Expr (value : expr)
| Assign (target value : expr)
| For (target iter : expr) (body : list stmt)
| While (test : expr) (body : list stmt)
| If (test : expr) (body orelse : list stmt)
| Try (body handler : list stmt)
| Assert (test : expr)
| Raise (exc : expr)
| FunctionDef (name : string) (body : list stmt)
| ClassDef (name : string) (body : list stmt).

(** A code cell, with its index in the notebook file. *)
Record cell : Type := { index : nat; source : list stmt }.

Definition notebook : Type := list cell.

(** Running a notebook top to bottom runs the statements of its code cells. *)
Definition program (nb : notebook) : list stmt := flat_map source nb.

(** The dotted name an expression is written as. *)
Fixpoint describe (e : expr) : string :=
  match e with
  | Name id => id
  | Attribute value attr => describe value +:+ "." +:+ attr
  | Call func _ _ => describe func +:+ "()"
  | Subscript value _ => describe value +:+ "[]"
  | _ => "_"
  end.

(** *** Syntax: every statement and expression a notebook contains *)

Fixpoint subexprs (e : expr) : list expr :=
  e :: match e with
       | Name _ | Constant _ | Str _ => []
       | JoinedStr values => flat_map subexprs values
       | Attribute value _ => subexprs value
       | Subscript value slice => subexprs value ++ subexprs slice
       | Call func args keywords =>
           subexprs func ++ flat_map subexprs args ++ flat_map subexprs keywords
       | Keyword _ value => subexprs value
       | BinOp lhs _ rhs | Compare lhs _ rhs => subexprs lhs ++ subexprs rhs
       | Tuple elts | ListE elts => flat_map subexprs elts
       | Dict keys values => flat_map subexprs keys ++ flat_map subexprs values
       | ListComp elt target iter => subexprs elt ++ subexprs target ++ subexprs iter
       | IfExp test body orelse => subexprs test ++ subexprs body ++ subexprs orelse
       | Lambda body => subexprs body
       end.

Fixpoint substmts (s : stmt) : list stmt :=
  s :: match s with
       | For _ _ body | While _ body | FunctionDef _ body | ClassDef _ body =>
           flat_map substmts body
       | If _ body orelse => flat_map substmts body ++ flat_map substmts orelse
       | Try body handler => flat_map substmts body ++ flat_map substmts handler
       | _ => []
       end.

Definition own_exprs (s : stmt) : list expr :=
  match s with
  | Expr value => [value]
  | Assign target value => [target; value]
  | For target iter _ => [target; iter]
  | While test _ | If test _ _ | Assert test => [test]
  | Raise exc => [exc]
  | _ => []
  end.

Definition statements (nb : notebook) : list stmt := flat_map substmts (program nb).

Definition expressions (nb : notebook) : list expr :=
  flat_map subexprs (flat_map own_exprs (statements nb)).

Definition is_for (s : stmt) : bool := match s with For _ _ _ => true | _ => false end.
Definition is_while (s : stmt) : bool := match s with While _ _ => true | _ => false end.
Definition is_if (s : stmt) : bool := match s with If _ _ _ => true | _ => false end.
Definition is_try (s : stmt) : bool := match s with Try _ _ => true | _ => false end.
Definition is_assert (s : stmt) : bool := match s with Assert _ => true | _ => false end.
Definition is_raise (s : stmt) : bool := match s with Raise _ => true | _ => false end.
Definition is_definition (s : stmt) : bool :=
  match s with FunctionDef _ _ | ClassDef _ _ => true | _ => false end.
Definition is_lambda (e : expr) : bool := match e with Lambda _ => true | _ => false end.
Definition is_listcomp (e : expr) : bool :=
  match e with ListComp _ _ _ => true | _ => false end.
Definition is_ifexp (e : expr) : bool := match e with IfExp _ _ _ => true | _ => false end.

Definition for_loops (nb : notebook) : list stmt := List.filter is_for (statements nb).
Definition while_loops (nb : notebook) : list stmt := List.filter is_while (statements nb).
Definition if_statements (nb : notebook) : list stmt := List.filter is_if (statements nb).
Definition try_statements (nb : notebook) : list stmt := List.filter is_try (statements nb).
Definition assert_statements (nb : notebook) : list stmt :=
  List.filter is_assert (statements nb).
Definition raise_statements (nb : notebook) : list stmt :=
  List.filter is_raise (statements nb).
Definition definitions (nb : notebook) : list stmt :=
  List.filter is_definition (statements nb).
Definition lambdas (nb : notebook) : list expr := List.filter is_lambda (expressions nb).
Definition comprehensions (nb : notebook) : list expr :=
  List.filter is_listcomp (expressions nb).
Definition conditional_exprs (nb : notebook) : list expr :=
  List.filter is_ifexp (expressions nb).

(** What a [for] statement or a comprehension iterates over. *)
Definition iterated (s : stmt) : string :=
  match s with
  | For _ iter _ => describe iter
  | _ => "_"
  end.

Definition comprehended (e : expr) : string :=
  match e with
  | ListComp _ _ iter => describe iter
  | _ => "_"
  end.

(** The expressions an expression evaluates, and the blocks a statement runs. *)
Definition children (e : expr) : list expr :=
  match e with
  | Name _ | Constant _ | Str _ | Lambda _ => []
  | JoinedStr values => values
  | Attribute value _ | Keyword _ value => [value]
  | Subscript value slice => [value; slice]
  | Call func args keywords => func :: args ++ keywords
  | BinOp lhs _ rhs | Compare lhs _ rhs => [lhs; rhs]
  | Tuple elts | ListE elts => elts
  | Dict keys values => keys ++ values
  | ListComp elt target iter => [elt; target; iter]
  | IfExp test body orelse => [test; body; orelse]
  end.

Definition blocks (s : stmt) : list stmt :=
  match s with
  | For _ _ body | While _ body => body
  | If _ body orelse => body ++ orelse
  | Try body handler => body ++ handler
  | _ => []
  end.

(** The [for] statements inside the blocks of a statement. *)
Definition inner_loops (s : stmt) : list stmt :=
  List.filter is_for (flat_map substmts (blocks s)).

(** *** Semantics: exceptions and the trace of operations

    Values are not computed.  Every operation that can raise is an event;
    the environment decides which events raise, how many items an iteration
    yields and which way a test goes.  A run is the trace of events up to
    the first exception no handler catches.  A call is one event: the callee
    is code from elsewhere, and defining a function, a class or a lambda
    runs nothing. *)

Inductive event : Type :=
| EMagic (line : string)
| EImport (module : string)
| ECall (callee : string)
| EAttribute (attr : string)
| ESubscript (container : string)
| EOperator (op : string)
| EStore (target : string)
| ENext (iterable : string)
| ETruth
| EAssert
| ERaise.

Record environment : Type := {
  (** the exception the event at this step raises, if any *)
  raises : nat -> event -> option string;
  (** the number of items the iteration over this iterable, starting at this
      step, yields *)
  items : nat -> string -> nat;
  (** the truth value of the test made at this step *)
  truth : nat -> bool
}.

Inductive outcome : Type :=
| Normal
| Raised (exception : string).

Definition M : Type := list event -> outcome * list event.

Definition ret : M := fun trace => (Normal, trace).

Definition seq (a b : M) : M := fun trace =>
  match a trace with
  | (Normal, trace') => b trace'
  | raised => raised
  end.

Fixpoint repeat_m (n : nat) (a : M) : M :=
  match n with
  | 0 => ret
  | S n' => seq a (repeat_m n' a)
  end.

(** [try: body except: handler] with a bare [except]. *)
Definition try_except (body handler : M) : M := fun trace =>
  match body trace with
  | (Raised _, trace') => handler trace'
  | normal => normal
  end.

Section Semantics.
Variable env : environment.

(** An [assert] raises when its test is false, a [raise] always. *)
Definition throws (step : nat) (ev : event) : option string :=
  match ev with
  | EAssert => if truth env step then None else Some "AssertionError"
  | ERaise => Some "raised"
  | _ => raises env step ev
  end.

Definition emit (ev : event) : M := fun trace =>
  match throws (length trace) ev with
  | None => (Normal, trace ++ [ev])
  | Some exception => (Raised exception, trace ++ [ev])
  end.

(** Iterating: one [next] per item and a last one that ends the iteration. *)
Definition iterate (iterable : string) (body : M) : M := fun trace =>
  seq (repeat_m (items env (length trace) iterable) (seq (emit (ENext iterable)) body))
      (emit (ENext iterable)) trace.

(** Testing a value and taking a branch. *)
Definition branch (then_ else_ : M) : M := fun trace =>
  seq (emit ETruth) (if truth env (length trace) then then_ else else_) trace.

Definition in_order (f : expr -> M) (es : list expr) : M :=
  foldr (fun e rest => seq (f e) rest) ret es.

(** Binding a target: unpacking and item or attribute assignment can raise. *)
Fixpoint store (target : expr) : M :=
  match target with
  | Tuple elts | ListE elts => seq (emit (EStore "unpack")) (in_order store elts)
  | _ => ret
  end.

Fixpoint eval (e : expr) : M :=
  match e with
  | Name _ | Constant _ | Str _ => ret
  | JoinedStr values => in_order eval values
  | Attribute value attr => seq (eval value) (emit (EAttribute attr))
  | Subscript value slice =>
      seq (eval value) (seq (eval slice) (emit (ESubscript (describe value))))
  | Call func args keywords =>
      seq (eval func)
          (seq (in_order eval args)
               (seq (in_order eval keywords) (emit (ECall (describe func)))))
  | Keyword _ value => eval value
  | BinOp lhs op rhs | Compare lhs op rhs =>
      seq (eval lhs) (seq (eval rhs) (emit (EOperator op)))
  | Tuple elts | ListE elts => in_order eval elts
  | Dict keys values => seq (in_order eval keys) (in_order eval values)
  | ListComp elt target iter =>
      seq (eval iter) (iterate (describe iter) (seq (store target) (eval elt)))
  | IfExp test body orelse => seq (eval test) (branch (eval body) (eval orelse))
  | Lambda _ => ret
  end.

(** [target = value]: the value first, then the target. *)
Definition assign (target : expr) : M :=
  match target with
  | Subscript value slice =>
      seq (eval value) (seq (eval slice) (emit (EStore (describe value))))
  | Attribute value attr => seq (eval value) (emit (EStore attr))
  | _ => store target
  end.

Fixpoint exec (s : stmt) : M :=
  match s with
  | Magic line => emit (EMagic line)
  | Import module _ | ImportFrom module _ => emit (EImport module)
  | Expr value => eval value
  | Assign target value => seq (eval value) (assign target)
  | For target iter body =>
      seq (eval iter)
          (iterate (describe iter)
             (seq (store target) (foldr (fun s rest => seq (exec s) rest) ret body)))
  | While test body => fun trace =>
      seq (repeat_m (items env (length trace) "while")
             (seq (eval test)
                  (seq (emit ETruth) (foldr (fun s rest => seq (exec s) rest) ret body))))
          (seq (eval test) (emit ETruth)) trace
  | If test body orelse =>
      seq (eval test)
          (branch (foldr (fun s rest => seq (exec s) rest) ret body)
                  (foldr (fun s rest => seq (exec s) rest) ret orelse))
  | Try body handler =>
      try_except (foldr (fun s rest => seq (exec s) rest) ret body)
                 (foldr (fun s rest => seq (exec s) rest) ret handler)
  | Assert test => seq (eval test) (emit EAssert)
  | Raise exc => seq (eval exc) (emit ERaise)
  | FunctionDef _ _ | ClassDef _ _ => ret
  end.

Definition exec_all (body : list stmt) : M :=
  foldr (fun s rest => seq (exec s) rest) ret body.

(** Run All: the cells in order, from the empty trace. *)
Definition run (nb : notebook) : outcome * list event :=
  exec_all (program nb) [].
End Semantics.

(** Every exception raised in a run ends it, as its outcome and at its last
    event, unless a handler of the kind [caught] took it. *)
Definition propagates (env : environment) (caught : nat -> event -> Prop)
    (r : outcome * list event) : Prop :=
  forall step ev exception,
    r.2 !! step = Some ev -> throws env step ev = Some exception ->
    caught step ev \/ (r.1 = Raised exception /\ S step = length r.2).

(** The library calls of a trace, in the order they were made. *)
Definition calls (trace : list event) : list string :=
  omap (fun ev => match ev with ECall callee => Some callee | _ => None end) trace.

(** An environment in which nothing raises and every test holds; the
    iterations have the lengths of the tutorial's run: 30 subjects, 3 plotted
    matrices, 3 kinds, 15 folds. *)
Definition tutorial_run : environment :=
  {| raises := fun _ _ => None;
     items := fun _ iterable =>
       if String.eqb iterable "pooled_subjects" then 30
       else if String.eqb iterable "cv.split()" then 15
       else 3;
     truth := fun _ => true |}.

(** *** The pipeline stages of the specification

    fetch data (0), build the masker (1), fit it (2), transform images into
    time series (3), compute connectivity (4), visualise or classify (5).
    Building a [ConnectivityMeasure] or a [LinearSVC] computes nothing and
    has no stage, like every call outside the pipeline. *)
Definition stage_of (callee : string) : option nat :=
  if bool_decide (callee ∈ ["datasets.fetch_development_fmri";
                            "datasets.fetch_atlas_msdl"]) then Some 0
  else if bool_decide (callee ∈ ["maskers.NiftiMapsMasker";
                                 "maskers.MultiNiftiMapsMasker"]) then Some 1
  else if bool_decide (callee ∈ ["maskers.NiftiMapsMasker().fit";
                                 "maskers.MultiNiftiMapsMasker().fit"]) then Some 2
  else if bool_decide (callee ∈ ["masker.transform"]) then Some 3
  else if bool_decide (callee ∈ ["correlation_measure.fit_transform";
                                 "partial_correlation_measure.fit_transform";
                                 "tangent_measure.fit_transform";
                                 "connectivity.fit_transform";
                                 "connectivity.transform"]) then Some 4
  else if bool_decide (callee ∈ ["plotting.plot_matrix";
                                 "plotting.view_connectome";
                                 "LinearSVC().fit";
                                 "classifier.predict";
                                 "accuracy_score"]) then Some 5
  else None.

Definition event_stage (ev : event) : option nat :=
  match ev with
  | ECall callee => stage_of callee
  | _ => None
  end.

Definition stages (trace : list event) : list nat := omap event_stage trace.

(** No call of a later stage before a call of an earlier one. *)
Fixpoint never_back (ss : list nat) : bool :=
  match ss with
  | [] => true
  | s :: rest => forallb (fun later => s <=? later) rest && never_back rest
  end.

(** Every stage is first entered after all the earlier ones: [entered] counts
    the stages entered so far. *)
Fixpoint entered_in_order (entered : nat) (ss : list nat) : bool :=
  match ss with
  | [] => true
  | s :: rest => (s <=? entered) && entered_in_order (Nat.max entered (S s)) rest
  end.

(** The same check on the program text, for every run at once: the number
    of stages entered after the statement, if no call comes too early. *)
Definition check_in_order (f : nat -> expr -> option nat) (entered : nat)
    (es : list expr) : option nat :=
  foldl (fun acc e => acc ≫= fun n => f n e) (Some entered) es.

Definition check_event (entered : nat) (ev : event) : option nat :=
  match event_stage ev with
  | Some s => if s <=? entered then Some (Nat.max entered (S s)) else None
  | None => Some entered
  end.

Fixpoint check_expr (entered : nat) (e : expr) : option nat :=
  match e with
  | Name _ | Constant _ | Str _ | Lambda _ => Some entered
  | JoinedStr values => check_in_order check_expr entered values
  | Attribute value _ => check_expr entered value
  | Subscript value slice => check_expr entered value ≫= fun n => check_expr n slice
  | Call func args keywords =>
      n1 ← check_expr entered func;
      n2 ← check_in_order check_expr n1 args;
      n3 ← check_in_order check_expr n2 keywords;
      check_event n3 (ECall (describe func))
  | Keyword _ value => check_expr entered value
  | BinOp lhs _ rhs | Compare lhs _ rhs =>
      check_expr entered lhs ≫= fun n => check_expr n rhs
  | Tuple elts | ListE elts => check_in_order check_expr entered elts
  | Dict keys values =>
      check_in_order check_expr entered keys ≫= fun n =>
      check_in_order check_expr n values
  | ListComp elt _ iter =>
      n ← check_expr entered iter; _ ← check_expr n elt; Some n
  | IfExp test body orelse =>
      n ← check_expr entered test;
      n1 ← check_expr n body;
      n2 ← check_expr n orelse;
      Some (Nat.min n1 n2)
  end.

Definition check_assign (entered : nat) (target : expr) : option nat :=
  match target with
  | Subscript value slice => check_expr entered value ≫= fun n => check_expr n slice
  | Attribute value _ => check_expr entered value
  | _ => Some entered
  end.

Fixpoint check_stmt (entered : nat) (s : stmt) : option nat :=
  match s with
  | Magic _ | Import _ _ | ImportFrom _ _ | FunctionDef _ _ | ClassDef _ _ =>
      Some entered
  | Expr value | Assert value | Raise value => check_expr entered value
  | Assign target value => check_expr entered value ≫= fun n => check_assign n target
  | For _ iter body =>
      n ← check_expr entered iter;
      _ ← foldl (fun acc s => acc ≫= fun n => check_stmt n s) (Some n) body;
      Some n
  | While test body =>
      n ← check_expr entered test;
      _ ← foldl (fun acc s => acc ≫= fun n => check_stmt n s) (Some n) body;
      Some entered
  | If test body orelse =>
      n ← check_expr entered test;
      n1 ← foldl (fun acc s => acc ≫= fun n => check_stmt n s) (Some n) body;
      n2 ← foldl (fun acc s => acc ≫= fun n => check_stmt n s) (Some n) orelse;
      Some (Nat.min n1 n2)
  | Try body handler =>
      n1 ← foldl (fun acc s => acc ≫= fun n => check_stmt n s) (Some entered) body;
      n2 ← foldl (fun acc s => acc ≫= fun n => check_stmt n s) (Some entered) handler;
      Some (Nat.min n1 n2)
  end.

Definition check_all (entered : nat) (body : list stmt) : option nat :=
  foldl (fun acc s => acc ≫= fun n => check_stmt n s) (Some entered) body.

(** No [try] anywhere in the statement. *)
Fixpoint plain (s : stmt) : bool :=
  match s with
  | Try _ _ => false
  | For _ _ body | While _ body => forallb plain body
  | If _ body orelse => forallb plain body && forallb plain orelse
  | _ => true
  end.

End Py.

(** ** Invariants of runs

    The properties of a computation that the proofs carry through the
    statements of a program. *)
Module Invariants.
Import Py.

(** The trace only grows. *)
Definition extends (m : M) : Prop := forall trace, trace `prefix_of` (m trace).2.

Section Propagation.
Variable env : environment.
Variable caught : nat -> event -> Prop.

(** Every exception raised so far was taken by a handler. *)
Definition quiet (trace : list event) : Prop :=
  forall step ev exception,
    trace !! step = Some ev -> throws env step ev = Some exception -> caught step ev.

(** The last event raised, and nothing before it went uncaught. *)
Definition stopped (exception : string) (trace : list event) : Prop :=
  exists before ev,
    trace = before ++ [ev] /\ quiet before /\
    throws env (length before) ev = Some exception.

Definition sound (m : M) : Prop :=
  forall trace, quiet trace ->
    match m trace with
    | (Normal, trace') => quiet trace'
    | (Raised exception, trace') => stopped exception trace'
    end.

End Propagation.

(** The number of stages entered after the calls [ss], starting from [n]. *)
Definition reach (ss : list nat) (n : nat) : nat :=
  foldl (fun n s => Nat.max n (S s)) n ss.

(** The trace is in order and at least [n] stages have been entered. *)
Definition in_order_from (n : nat) (trace : list event) : Prop :=
  entered_in_order 0 (stages trace) = true /\ n <= reach (stages trace) 0.

Definition safe (n : nat) (m : M) (n' : nat) : Prop :=
  n <= n' /\
  forall trace, in_order_from n trace ->
    match m trace with
    | (Normal, trace') => in_order_from n' trace'
    | (Raised _, trace') => in_order_from n trace'
    end.

End Invariants.

(** ** The operations written in a program

    The events a statement can produce, read off its text in the order
    [Py.exec] produces them; the body of a loop is listed once, both
    branches of a test and both blocks of a [try] are listed. *)
Module Operations.
Import Py.

Fixpoint store_events (target : expr) : list event :=
  match target with
  | Tuple elts | ListE elts =>
      EStore "unpack" :: foldr (fun e rest => store_events e ++ rest) [] elts
  | _ => []
  end.

Fixpoint eval_events (e : expr) : list event :=
  match e with
  | Name _ | Constant _ | Str _ | Lambda _ => []
  | JoinedStr values => foldr (fun e rest => eval_events e ++ rest) [] values
  | Attribute value attr => eval_events value ++ [EAttribute attr]
  | Subscript value slice =>
      eval_events value ++ eval_events slice ++ [ESubscript (describe value)]
  | Call func args keywords =>
      eval_events func
      ++ foldr (fun e rest => eval_events e ++ rest) [] args
      ++ foldr (fun e rest => eval_events e ++ rest) [] keywords
      ++ [ECall (describe func)]
  | Keyword _ value => eval_events value
  | BinOp lhs op rhs | Compare lhs op rhs =>
      eval_events lhs ++ eval_events rhs ++ [EOperator op]
  | Tuple elts | ListE elts => foldr (fun e rest => eval_events e ++ rest) [] elts
  | Dict keys values =>
      foldr (fun e rest => eval_events e ++ rest) [] keys
      ++ foldr (fun e rest => eval_events e ++ rest) [] values
  | ListComp elt target iter =>
      eval_events iter
      ++ ENext (describe iter) :: store_events target ++ eval_events elt
  | IfExp test body orelse =>
      eval_events test ++ ETruth :: eval_events body ++ eval_events orelse
  end.

Definition assign_events (target : expr) : list event :=
  match target with
  | Subscript value slice =>
      eval_events value ++ eval_events slice ++ [EStore (describe value)]
  | Attribute value attr => eval_events value ++ [EStore attr]
  | _ => store_events target
  end.

Fixpoint exec_events (s : stmt) : list event :=
  match s with
  | Magic line => [EMagic line]
  | Import module _ | ImportFrom module _ => [EImport module]
  | Expr value => eval_events value
  | Assign target value => eval_events value ++ assign_events target
  | For target iter body =>
      eval_events iter
      ++ ENext (describe iter) :: store_events target
      ++ foldr (fun s rest => exec_events s ++ rest) [] body
  | While test body =>
      eval_events test
      ++ ETruth :: foldr (fun s rest => exec_events s ++ rest) [] body
  | If test body orelse =>
      eval_events test
      ++ ETruth :: foldr (fun s rest => exec_events s ++ rest) [] body
      ++ foldr (fun s rest => exec_events s ++ rest) [] orelse
  | Try body handler =>
      foldr (fun s rest => exec_events s ++ rest) [] body
      ++ foldr (fun s rest => exec_events s ++ rest) [] handler
  | Assert test => eval_events test ++ [EAssert]
  | Raise exc => eval_events exc ++ [ERaise]
  | FunctionDef _ _ | ClassDef _ _ => []
  end.

Definition events_of (body : list stmt) : list event :=
  foldr (fun s rest => exec_events s ++ rest) [] body.

(** No comprehension and no conditional expression in the expression. *)
Fixpoint straight_expr (e : expr) : bool :=
  match e with
  | Name _ | Constant _ | Str _ | Lambda _ => true
  | JoinedStr values => forallb straight_expr values
  | Attribute value _ | Keyword _ value => straight_expr value
  | Subscript value slice => straight_expr value && straight_expr slice
  | Call func args keywords =>
      straight_expr func && forallb straight_expr args
      && forallb straight_expr keywords
  | BinOp lhs _ rhs | Compare lhs _ rhs => straight_expr lhs && straight_expr rhs
  | Tuple elts | ListE elts => forallb straight_expr elts
  | Dict keys values => forallb straight_expr keys && forallb straight_expr values
  | ListComp _ _ _ | IfExp _ _ _ => false
  end.

(** A statement without loop, test or handler, in itself or its expressions. *)
Definition straight (s : stmt) : bool :=
  match s with
  | Magic _ | Import _ _ | ImportFrom _ _ | FunctionDef _ _ | ClassDef _ _ => true
  | Expr value | Assert value | Raise value => straight_expr value
  | Assign target value => straight_expr value && straight_expr target
  | For _ _ _ | While _ _ | If _ _ _ | Try _ _ => false
  end.

(** The operations of a list, one after the other, up to the first that raises. *)
Fixpoint play (env : environment) (evs : list event) : M :=
  match evs with
  | [] => ret
  | ev :: rest => seq (emit env ev) (play env rest)
  end.

(** The computation adds only events of the kind [allowed] to a trace. *)
Definition within (allowed : event -> Prop) (m : M) : Prop :=
  forall trace, exists added,
    (m trace).2 = trace ++ added /\ Forall allowed added.

(** The exception a computation ends with is the one its last operation raised. *)
Definition raised_by_last (env : environment) (m : M) : Prop :=
  forall trace exception,
    (m trace).1 = Raised exception ->
    exists before ev,
      (m trace).2 = before ++ [ev]
      /\ throws env (length before) ev = Some exception.

End Operations.

(** ** intro-to-nilearn.ipynb: the code cells

    Each cell is given with its index in the notebook file and its source. *)
Module IntroSource.
Import Py.

(**
<<
%matplotlib inline
>>
*)
Definition cell_3 : cell :=
  {| index := 3;
     source :=
       [Magic "%matplotlib inline"] |}.

(**
<<
# import nilearn newest version (make sure it is 0.8.0 or more)
try:
    import nilearn
except:
    !pip install nilearn
    import nilearn
nilearn.__version__
>>
*)
Definition cell_4 : cell :=
  {| index := 4;
     source :=
       [Try [Import "nilearn" None]
            [Magic "!pip install nilearn"; Import "nilearn" None];
        Expr (Attribute (Name "nilearn") "__version__")] |}.

(**
<<
# Let's use a Nifti file that is shipped with nilearn
from nilearn.datasets import MNI152_FILE_PATH
# Note that the variable MNI152_FILE_PATH is just a path to a Nifti file
print('Path to MNI152 template: %r' % MNI152_FILE_PATH)
>>
*)
Definition cell_6 : cell :=
  {| index := 6;
     source :=
       [ImportFrom "nilearn.datasets" ["MNI152_FILE_PATH"];
        Expr (Call (Name "print")
                [BinOp (Str "Path to MNI152 template: %r") "%" (Name "MNI152_FILE_PATH")]
                [])] |}.

(**
<<
from nilearn import plotting
plotting.plot_img(MNI152_FILE_PATH)
>>
*)
Definition cell_8 : cell :=
  {| index := 8;
     source :=
       [ImportFrom "nilearn" ["plotting"];
        Expr (Call (Attribute (Name "plotting") "plot_img") [Name "MNI152_FILE_PATH"] [])] |}.

(**
<<
from nilearn import datasets
# Load the same template but in lower resolution of 3mm
mni_template_3mm = datasets.load_mni152_template(resolution=3)
mni_template_3mm
>>
*)
Definition cell_12 : cell :=
  {| index := 12;
     source :=
       [ImportFrom "nilearn" ["datasets"];
        Assign (Name "mni_template_3mm")
          (Call (Attribute (Name "datasets") "load_mni152_template")
             []
             [Keyword "resolution" (Constant "3")]);
        Expr (Name "mni_template_3mm")] |}.

(**
<<
from nilearn import image
>>
*)
Definition cell_14 : cell :=
  {| index := 14;
     source :=
       [ImportFrom "nilearn" ["image"]] |}.

(**
<<
?image.smooth_img
>>
*)
Definition cell_16 : cell :=
  {| index := 16;
     source :=
       [Magic "?image.smooth_img"] |}.

(**
<<
smooth_anat_img = image.smooth_img(mni_template_3mm, fwhm=3)
>>
*)
Definition cell_18 : cell :=
  {| index := 18;
     source :=
       [Assign (Name "smooth_anat_img")
          (Call (Attribute (Name "image") "smooth_img")
             [Name "mni_template_3mm"]
             [Keyword "fwhm" (Constant "3")])] |}.

(**
<<
# The image data is a 3D Numpy array
# containing 338752 values
smooth_anat_img.shape
>>
*)
Definition cell_20 : cell :=
  {| index := 20;
     source :=
       [Expr (Attribute (Name "smooth_anat_img") "shape")] |}.

(**
<<
plotting.plot_img(smooth_anat_img)
>>
*)
Definition cell_22 : cell :=
  {| index := 22;
     source :=
       [Expr (Call (Attribute (Name "plotting") "plot_img") [Name "smooth_anat_img"] [])] |}.

(**
<<
import pandas as pd
# read_csv can read in just about any plain-text tabular data
data = pd.read_csv('./data/abide2.tsv', sep='\t')
data.head()
>>
*)
Definition cell_25 : cell :=
  {| index := 25;
     source :=
       [Import "pandas" (Some "pd");
        Assign (Name "data")
          (Call (Attribute (Name "pd") "read_csv")
             [Str "./data/abide2.tsv"]
             [Keyword "sep" (Str "\t")]);
        Expr (Call (Attribute (Name "data") "head") [] [])] |}.

(**
<<
from nilearn import datasets
development_dataset = datasets.fetch_development_fmri(n_subjects=30)
development_dataset.keys()
>>
*)
Definition cell_29 : cell :=
  {| index := 29;
     source :=
       [ImportFrom "nilearn" ["datasets"];
        Assign (Name "development_dataset")
          (Call (Attribute (Name "datasets") "fetch_development_fmri")
             []
             [Keyword "n_subjects" (Constant "30")]);
        Expr (Call (Attribute (Name "development_dataset") "keys") [] [])] |}.

(**
<<
len(development_dataset.func)
>>
*)
Definition cell_31 : cell :=
  {| index := 31;
     source :=
       [Expr (Call (Name "len") [Attribute (Name "development_dataset") "func"] [])] |}.

(**
<<
from nilearn import image
img = image.load_img(development_dataset.func[0])
img.shape
>>
*)
Definition cell_33 : cell :=
  {| index := 33;
     source :=
       [ImportFrom "nilearn" ["image"];
        Assign (Name "img")
          (Call (Attribute (Name "image") "load_img")
             [Subscript (Attribute (Name "development_dataset") "func") (Constant "0")]
             []);
        Expr (Attribute (Name "img") "shape")] |}.

(**
<<
from nilearn import plotting
mean_image = image.mean_img(img) # mean_image is 3D
plotting.view_img(mean_image, threshold=None)
>>
*)
Definition cell_37 : cell :=
  {| index := 37;
     source :=
       [ImportFrom "nilearn" ["plotting"];
        Assign (Name "mean_image")
          (Call (Attribute (Name "image") "mean_img") [Name "img"] []);
        Expr (Call (Attribute (Name "plotting") "view_img")
                [Name "mean_image"]
                [Keyword "threshold" (Constant "None")])] |}.

(**
<<
from IPython.display import Image
Image(filename='../images/masking.jpg')
>>
*)
Definition cell_40 : cell :=
  {| index := 40;
     source :=
       [ImportFrom "IPython.display" ["Image"];
        Expr (Call (Name "Image") [] [Keyword "filename" (Str "../images/masking.jpg")])] |}.

(**
<<
import numpy as np
msdl_atlas = datasets.fetch_atlas_msdl()
msdl_atlas.keys()
>>
*)
Definition cell_44 : cell :=
  {| index := 44;
     source :=
       [Import "numpy" (Some "np");
        Assign (Name "msdl_atlas")
          (Call (Attribute (Name "datasets") "fetch_atlas_msdl") [] []);
        Expr (Call (Attribute (Name "msdl_atlas") "keys") [] [])] |}.

(**
<<
msdl_coords = msdl_atlas.region_coords
n_regions = len(msdl_coords)
print(f'MSDL has {n_regions} ROIs, part of the following networks :\n{np.unique(msdl_atlas.networks)}.')
>>
*)
Definition cell_45 : cell :=
  {| index := 45;
     source :=
       [Assign (Name "msdl_coords") (Attribute (Name "msdl_atlas") "region_coords");
        Assign (Name "n_regions") (Call (Name "len") [Name "msdl_coords"] []);
        Expr (Call (Name "print")
                [JoinedStr [Str "MSDL has ";
                            Name "n_regions";
                            Str " ROIs, part of the following networks :\n";
                            Call (Attribute (Name "np") "unique")
                               [Attribute (Name "msdl_atlas") "networks"]
                               [];
                            Str "."]]
                [])] |}.

(**
<<
# Notice the data is 4D
image.load_img(msdl_atlas.maps).shape
>>
*)
Definition cell_47 : cell :=
  {| index := 47;
     source :=
       [Expr (Attribute (Call (Attribute (Name "image") "load_img")
                           [Attribute (Name "msdl_atlas") "maps"]
                           []) "shape")] |}.

(**
<<
plotting.plot_prob_atlas(msdl_atlas.maps)
>>
*)
Definition cell_49 : cell :=
  {| index := 49;
     source :=
       [Expr (Call (Attribute (Name "plotting") "plot_prob_atlas")
                [Attribute (Name "msdl_atlas") "maps"]
                [])] |}.

(**
<<
from nilearn import maskers
masker = maskers.NiftiMapsMasker(
    msdl_atlas.maps,
    resampling_target="data",
    t_r=2,
    detrend=True,
    low_pass=0.1,
    high_pass=0.01
).fit()
>>
*)
Definition cell_54 : cell :=
  {| index := 54;
     source :=
       [ImportFrom "nilearn" ["maskers"];
        Assign (Name "masker")
          (Call (Attribute (Call (Attribute (Name "maskers") "NiftiMapsMasker")
                              [Attribute (Name "msdl_atlas") "maps"]
                              [Keyword "resampling_target" (Str "data");
                               Keyword "t_r" (Constant "2");
                               Keyword "detrend" (Constant "True");
                               Keyword "low_pass" (Constant "0.1");
                               Keyword "high_pass" (Constant "0.01")]) "fit")
             []
             [])] |}.

(**
<<
roi_time_series = masker.transform(development_dataset.func[0])
roi_time_series.shape
>>
*)
Definition cell_58 : cell :=
  {| index := 58;
     source :=
       [Assign (Name "roi_time_series")
          (Call (Attribute (Name "masker") "transform")
             [Subscript (Attribute (Name "development_dataset") "func") (Constant "0")]
             []);
        Expr (Attribute (Name "roi_time_series") "shape")] |}.

(**
<<
Image(filename="../images/samples-features.png")
>>
*)
Definition cell_60 : cell :=
  {| index := 60;
     source :=
       [Expr (Call (Name "Image")
                []
                [Keyword "filename" (Str "../images/samples-features.png")])] |}.

(**
<<
from nilearn import connectome
correlation_measure = connectome.ConnectivityMeasure(kind='correlation')
correlation_matrix = correlation_measure.fit_transform([roi_time_series])[0]
>>
*)
Definition cell_65 : cell :=
  {| index := 65;
     source :=
       [ImportFrom "nilearn" ["connectome"];
        Assign (Name "correlation_measure")
          (Call (Attribute (Name "connectome") "ConnectivityMeasure")
             []
             [Keyword "kind" (Str "correlation")]);
        Assign (Name "correlation_matrix")
          (Subscript (Call (Attribute (Name "correlation_measure") "fit_transform")
                        [ListE [Name "roi_time_series"]]
                        []) (Constant "0"))] |}.

(**
<<
import matplotlib.pyplot as plt
np.fill_diagonal(correlation_matrix, 0)
fig = plt.figure(figsize=(8, 8))
plotting.plot_matrix(
    correlation_matrix,
    labels=msdl_atlas.labels,
    vmax=0.8,
    vmin=-0.8,
    colorbar=True,
    figure=fig
)
>>
*)
Definition cell_67 : cell :=
  {| index := 67;
     source :=
       [Import "matplotlib.pyplot" (Some "plt");
        Expr (Call (Attribute (Name "np") "fill_diagonal")
                [Name "correlation_matrix"; Constant "0"]
                []);
        Assign (Name "fig")
          (Call (Attribute (Name "plt") "figure")
             []
             [Keyword "figsize" (Tuple [Constant "8"; Constant "8"])]);
        Expr (Call (Attribute (Name "plotting") "plot_matrix")
                [Name "correlation_matrix"]
                [Keyword "labels" (Attribute (Name "msdl_atlas") "labels");
                 Keyword "vmax" (Constant "0.8");
                 Keyword "vmin" (Constant "-0.8");
                 Keyword "colorbar" (Constant "True");
                 Keyword "figure" (Name "fig")])] |}.

(**
<<
plotting.view_connectome(
    correlation_matrix,
    edge_threshold=0.2,
    node_coords=msdl_atlas.region_coords
)
>>
*)
Definition cell_69 : cell :=
  {| index := 69;
     source :=
       [Expr (Call (Attribute (Name "plotting") "view_connectome")
                [Name "correlation_matrix"]
                [Keyword "edge_threshold" (Constant "0.2");
                 Keyword "node_coords" (Attribute (Name "msdl_atlas") "region_coords")])] |}.

(**
<<
pd.read_table(development_dataset.confounds[0]).head()
>>
*)
Definition cell_72 : cell :=
  {| index := 72;
     source :=
       [Expr (Call (Attribute (Call (Attribute (Name "pd") "read_table")
                                 [Subscript (Attribute (Name "development_dataset") "confounds") (Constant "0")]
                                 []) "head")
                []
                [])] |}.

(**
<<
corrected_roi_time_series = masker.transform(
    development_dataset.func[0],
    confounds=development_dataset.confounds[0]
)
>>
*)
Definition cell_74 : cell :=
  {| index := 74;
     source :=
       [Assign (Name "corrected_roi_time_series")
          (Call (Attribute (Name "masker") "transform")
             [Subscript (Attribute (Name "development_dataset") "func") (Constant "0")]
             [Keyword "confounds" (Subscript (Attribute (Name "development_dataset") "confounds") (Constant "0"))])] |}.

(**
<<
corrected_correlation_matrix = correlation_measure.fit_transform(
    [corrected_roi_time_series])[0]
np.fill_diagonal(corrected_correlation_matrix, 0)
fig = plt.figure(figsize=(8, 8))
plotting.plot_matrix(
    corrected_correlation_matrix,
    labels=msdl_atlas.labels,
    vmax=0.8,
    vmin=-0.8,
    colorbar=True,
    figure=fig
)
>>
*)
Definition cell_75 : cell :=
  {| index := 75;
     source :=
       [Assign (Name "corrected_correlation_matrix")
          (Subscript (Call (Attribute (Name "correlation_measure") "fit_transform")
                        [ListE [Name "corrected_roi_time_series"]]
                        []) (Constant "0"));
        Expr (Call (Attribute (Name "np") "fill_diagonal")
                [Name "corrected_correlation_matrix"; Constant "0"]
                []);
        Assign (Name "fig")
          (Call (Attribute (Name "plt") "figure")
             []
             [Keyword "figsize" (Tuple [Constant "8"; Constant "8"])]);
        Expr (Call (Attribute (Name "plotting") "plot_matrix")
                [Name "corrected_correlation_matrix"]
                [Keyword "labels" (Attribute (Name "msdl_atlas") "labels");
                 Keyword "vmax" (Constant "0.8");
                 Keyword "vmin" (Constant "-0.8");
                 Keyword "colorbar" (Constant "True");
                 Keyword "figure" (Name "fig")])] |}.

(**
<<
plotting.view_connectome(
    corrected_correlation_matrix,
    edge_threshold=0.2,
    node_coords=msdl_atlas.region_coords
)
>>
*)
Definition cell_77 : cell :=
  {| index := 77;
     source :=
       [Expr (Call (Attribute (Name "plotting") "view_connectome")
                [Name "corrected_correlation_matrix"]
                [Keyword "edge_threshold" (Constant "0.2");
                 Keyword "node_coords" (Attribute (Name "msdl_atlas") "region_coords")])] |}.

(** The code cells in the order of the file. *)
Definition notebook : Py.notebook :=
  [cell_3;
   cell_4;
   cell_6;
   cell_8;
   cell_12;
   cell_14;
   cell_16;
   cell_18;
   cell_20;
   cell_22;
   cell_25;
   cell_29;
   cell_31;
   cell_33;
   cell_37;
   cell_40;
   cell_44;
   cell_45;
   cell_47;
   cell_49;
   cell_54;
   cell_58;
   cell_60;
   cell_65;
   cell_67;
   cell_69;
   cell_72;
   cell_74;
   cell_75;
   cell_77].

End IntroSource.

(** ** classification-example.ipynb: the code cells

    Each cell is given with its index in the notebook file and its source. *)
Module ClassificationSource.
Import Py.

(**
<<
%matplotlib inline
>>
*)
Definition cell_4 : cell :=
  {| index := 4;
     source :=
       [Magic "%matplotlib inline"] |}.

(**
<<
import numpy as np
import matplotlib.pyplot as plt
from nilearn import (datasets, maskers, plotting)
from nilearn.connectome import ConnectivityMeasure
# fetch data and atlas
development_dataset = datasets.fetch_development_fmri(n_subjects=30)
msdl_atlas = datasets.fetch_atlas_msdl()
# set up masker object
masker = maskers.MultiNiftiMapsMasker(
    msdl_atlas.maps,
    resampling_target="data",
    t_r=2,
    detrend=True,
    low_pass=0.1,
    high_pass=0.01
).fit()
# set up connectivity object
correlation_measure = ConnectivityMeasure(kind='correlation')
>>
*)
Definition cell_5 : cell :=
  {| index := 5;
     source :=
       [Import "numpy" (Some "np");
        Import "matplotlib.pyplot" (Some "plt");
        ImportFrom "nilearn" ["datasets"; "maskers"; "plotting"];
        ImportFrom "nilearn.connectome" ["ConnectivityMeasure"];
        Assign (Name "development_dataset")
          (Call (Attribute (Name "datasets") "fetch_development_fmri")
             []
             [Keyword "n_subjects" (Constant "30")]);
        Assign (Name "msdl_atlas")
          (Call (Attribute (Name "datasets") "fetch_atlas_msdl") [] []);
        Assign (Name "masker")
          (Call (Attribute (Call (Attribute (Name "maskers") "MultiNiftiMapsMasker")
                              [Attribute (Name "msdl_atlas") "maps"]
                              [Keyword "resampling_target" (Str "data");
                               Keyword "t_r" (Constant "2");
                               Keyword "detrend" (Constant "True");
                               Keyword "low_pass" (Constant "0.1");
                               Keyword "high_pass" (Constant "0.01")]) "fit")
             []
             []);
        Assign (Name "correlation_measure")
          (Call (Name "ConnectivityMeasure") [] [Keyword "kind" (Str "correlation")])] |}.

(**
<<
child_idx = development_dataset.phenotypic['Child_Adult'] == 'child'
child_func_files = np.array(development_dataset['func'])[child_idx]
child_confound_files = np.array(development_dataset['confounds'])[child_idx]
adult_idx = development_dataset.phenotypic['Child_Adult'] == 'adult'
adult_func_files = np.array(development_dataset['func'])[adult_idx]
adult_confound_files = np.array(development_dataset['confounds'])[adult_idx]
print(f'Data has {len(child_func_files)} children and {len(adult_func_files)} adults')
>>
*)
Definition cell_8 : cell :=
  {| index := 8;
     source :=
       [Assign (Name "child_idx")
          (Compare (Subscript (Attribute (Name "development_dataset") "phenotypic") (Str "Child_Adult")) "==" (Str "child"));
        Assign (Name "child_func_files")
          (Subscript (Call (Attribute (Name "np") "array")
                        [Subscript (Name "development_dataset") (Str "func")]
                        []) (Name "child_idx"));
        Assign (Name "child_confound_files")
          (Subscript (Call (Attribute (Name "np") "array")
                        [Subscript (Name "development_dataset") (Str "confounds")]
                        []) (Name "child_idx"));
        Assign (Name "adult_idx")
          (Compare (Subscript (Attribute (Name "development_dataset") "phenotypic") (Str "Child_Adult")) "==" (Str "adult"));
        Assign (Name "adult_func_files")
          (Subscript (Call (Attribute (Name "np") "array")
                        [Subscript (Name "development_dataset") (Str "func")]
                        []) (Name "adult_idx"));
        Assign (Name "adult_confound_files")
          (Subscript (Call (Attribute (Name "np") "array")
                        [Subscript (Name "development_dataset") (Str "confounds")]
                        []) (Name "adult_idx"));
        Expr (Call (Name "print")
                [JoinedStr [Str "Data has ";
                            Call (Name "len") [Name "child_func_files"] [];
                            Str " children and ";
                            Call (Name "len") [Name "adult_func_files"] [];
                            Str " adults"]]
                [])] |}.

(**
<<
# extract timeseries
children = masker.transform(child_func_files, confounds=child_confound_files)
adults = masker.transform(adult_func_files, confounds=adult_confound_files)
pooled_subjects = adults + children
>>
*)
Definition cell_10 : cell :=
  {| index := 10;
     source :=
       [Assign (Name "children")
          (Call (Attribute (Name "masker") "transform")
             [Name "child_func_files"]
             [Keyword "confounds" (Name "child_confound_files")]);
        Assign (Name "adults")
          (Call (Attribute (Name "masker") "transform")
             [Name "adult_func_files"]
             [Keyword "confounds" (Name "adult_confound_files")]);
        Assign (Name "pooled_subjects") (BinOp (Name "adults") "+" (Name "children"))] |}.

(**
<<
for p in pooled_subjects:
    assert p.shape == (168, 39)
>>
*)
Definition cell_12 : cell :=
  {| index := 12;
     source :=
       [For (Name "p")
          (Name "pooled_subjects")
          [Assert (Compare (Attribute (Name "p") "shape") "==" (Tuple [Constant "168"; Constant "39"]))]] |}.

(**
<<
correlation_matrices = correlation_measure.fit_transform(children)
>>
*)
Definition cell_14 : cell :=
  {| index := 14;
     source :=
       [Assign (Name "correlation_matrices")
          (Call (Attribute (Name "correlation_measure") "fit_transform")
             [Name "children"]
             [])] |}.

(**
<<
print('Correlations of children are stacked in an array of shape {0}'
      .format(correlation_matrices.shape))
>>
*)
Definition cell_16 : cell :=
  {| index := 16;
     source :=
       [Expr (Call (Name "print")
                [Call (Attribute (Str "Correlations of children are stacked in an array of shape {0}") "format")
                   [Attribute (Name "correlation_matrices") "shape"]
                   []]
                [])] |}.

(**
<<
mean_correlation_matrix = correlation_measure.mean_
print('Mean correlation has shape {0}.'.format(mean_correlation_matrix.shape))
>>
*)
Definition cell_18 : cell :=
  {| index := 18;
     source :=
       [Assign (Name "mean_correlation_matrix")
          (Attribute (Name "correlation_measure") "mean_");
        Expr (Call (Name "print")
                [Call (Attribute (Str "Mean correlation has shape {0}.") "format")
                   [Attribute (Name "mean_correlation_matrix") "shape"]
                   []]
                [])] |}.

(**
<<
_, axes = plt.subplots(1, 3, figsize=(15, 5))
for i, (matrix, ax) in enumerate(zip(correlation_matrices, axes)):
    plotting.plot_matrix(
        matrix,
        colorbar=False,
        axes=ax,
        vmin=-0.8,
        vmax=0.8,
        title='correlation, child {}'.format(i)
    )
>>
*)
Definition cell_20 : cell :=
  {| index := 20;
     source :=
       [Assign (Tuple [Name "_"; Name "axes"])
          (Call (Attribute (Name "plt") "subplots")
             [Constant "1"; Constant "3"]
             [Keyword "figsize" (Tuple [Constant "15"; Constant "5"])]);
        For (Tuple [Name "i"; Tuple [Name "matrix"; Name "ax"]])
          (Call (Name "enumerate")
             [Call (Name "zip") [Name "correlation_matrices"; Name "axes"] []]
             [])
          [Expr (Call (Attribute (Name "plotting") "plot_matrix")
                   [Name "matrix"]
                   [Keyword "colorbar" (Constant "False");
                    Keyword "axes" (Name "ax");
                    Keyword "vmin" (Constant "-0.8");
                    Keyword "vmax" (Constant "0.8");
                    Keyword "title" (Call (Attribute (Str "correlation, child {}") "format")
                                      [Name "i"]
                                      [])])]] |}.

(**
<<
plotting.view_connectome(
    mean_correlation_matrix,
    msdl_atlas.region_coords,
    edge_threshold=0.2,
    title='mean connectome over all children'
)
>>
*)
Definition cell_22 : cell :=
  {| index := 22;
     source :=
       [Expr (Call (Attribute (Name "plotting") "view_connectome")
                [Name "mean_correlation_matrix";
                 Attribute (Name "msdl_atlas") "region_coords"]
                [Keyword "edge_threshold" (Constant "0.2");
                 Keyword "title" (Str "mean connectome over all children")])] |}.

(**
<<
partial_correlation_measure = ConnectivityMeasure(kind='partial correlation')
partial_correlation_matrices = partial_correlation_measure.fit_transform(
    children)
>>
*)
Definition cell_24 : cell :=
  {| index := 24;
     source :=
       [Assign (Name "partial_correlation_measure")
          (Call (Name "ConnectivityMeasure")
             []
             [Keyword "kind" (Str "partial correlation")]);
        Assign (Name "partial_correlation_matrices")
          (Call (Attribute (Name "partial_correlation_measure") "fit_transform")
             [Name "children"]
             [])] |}.

(**
<<
_, axes = plt.subplots(1, 3, figsize=(15, 5))
for i, (matrix, ax) in enumerate(zip(partial_correlation_matrices, axes)):
    plotting.plot_matrix(
        matrix,
        colorbar=False,
        axes=ax,
        vmin=-0.8,
        vmax=0.8,
        title='partial correlation, child {}'.format(i)
    )
>>
*)
Definition cell_26 : cell :=
  {| index := 26;
     source :=
       [Assign (Tuple [Name "_"; Name "axes"])
          (Call (Attribute (Name "plt") "subplots")
             [Constant "1"; Constant "3"]
             [Keyword "figsize" (Tuple [Constant "15"; Constant "5"])]);
        For (Tuple [Name "i"; Tuple [Name "matrix"; Name "ax"]])
          (Call (Name "enumerate")
             [Call (Name "zip") [Name "partial_correlation_matrices"; Name "axes"] []]
             [])
          [Expr (Call (Attribute (Name "plotting") "plot_matrix")
                   [Name "matrix"]
                   [Keyword "colorbar" (Constant "False");
                    Keyword "axes" (Name "ax");
                    Keyword "vmin" (Constant "-0.8");
                    Keyword "vmax" (Constant "0.8");
                    Keyword "title" (Call (Attribute (Str "partial correlation, child {}") "format")
                                      [Name "i"]
                                      [])])]] |}.

(**
<<
plotting.view_connectome(
    partial_correlation_measure.mean_,
    msdl_atlas.region_coords,
    edge_threshold=0.2,
    title='mean partial correlation over all children'
)
>>
*)
Definition cell_28 : cell :=
  {| index := 28;
     source :=
       [Expr (Call (Attribute (Name "plotting") "view_connectome")
                [Attribute (Name "partial_correlation_measure") "mean_";
                 Attribute (Name "msdl_atlas") "region_coords"]
                [Keyword "edge_threshold" (Constant "0.2");
                 Keyword "title" (Str "mean partial correlation over all children")])] |}.

(**
<<
tangent_measure = ConnectivityMeasure(kind='tangent')
>>
*)
Definition cell_30 : cell :=
  {| index := 30;
     source :=
       [Assign (Name "tangent_measure")
          (Call (Name "ConnectivityMeasure") [] [Keyword "kind" (Str "tangent")])] |}.

(**
<<
tangent_matrices = tangent_measure.fit_transform(children)
>>
*)
Definition cell_32 : cell :=
  {| index := 32;
     source :=
       [Assign (Name "tangent_matrices")
          (Call (Attribute (Name "tangent_measure") "fit_transform")
             [Name "children"]
             [])] |}.

(**
<<
_, axes = plt.subplots(1, 3, figsize=(15, 5))
for i, (matrix, ax) in enumerate(zip(tangent_matrices, axes)):
    plotting.plot_matrix(
        matrix,
        colorbar=False,
        axes=ax,
        vmin=-0.8,
        vmax=0.8,
        title='tangent offset, child {}'.format(i)
    )
>>
*)
Definition cell_34 : cell :=
  {| index := 34;
     source :=
       [Assign (Tuple [Name "_"; Name "axes"])
          (Call (Attribute (Name "plt") "subplots")
             [Constant "1"; Constant "3"]
             [Keyword "figsize" (Tuple [Constant "15"; Constant "5"])]);
        For (Tuple [Name "i"; Tuple [Name "matrix"; Name "ax"]])
          (Call (Name "enumerate")
             [Call (Name "zip") [Name "tangent_matrices"; Name "axes"] []]
             [])
          [Expr (Call (Attribute (Name "plotting") "plot_matrix")
                   [Name "matrix"]
                   [Keyword "colorbar" (Constant "False");
                    Keyword "axes" (Name "ax");
                    Keyword "vmin" (Constant "-0.8");
                    Keyword "vmax" (Constant "0.8");
                    Keyword "title" (Call (Attribute (Str "tangent offset, child {}") "format")
                                      [Name "i"]
                                      [])])]] |}.

(**
<<
from sklearn.metrics import accuracy_score
from sklearn.model_selection import StratifiedShuffleSplit
from sklearn.svm import LinearSVC
groups = list(development_dataset.phenotypic['Child_Adult'])
kinds = ['correlation', 'partial correlation', 'tangent']
_, classes = np.unique(groups, return_inverse=True)
cv = StratifiedShuffleSplit(n_splits=15, random_state=0, test_size=5)
pooled_subjects = np.asarray(pooled_subjects)
>>
*)
Definition cell_37 : cell :=
  {| index := 37;
     source :=
       [ImportFrom "sklearn.metrics" ["accuracy_score"];
        ImportFrom "sklearn.model_selection" ["StratifiedShuffleSplit"];
        ImportFrom "sklearn.svm" ["LinearSVC"];
        Assign (Name "groups")
          (Call (Name "list")
             [Subscript (Attribute (Name "development_dataset") "phenotypic") (Str "Child_Adult")]
             []);
        Assign (Name "kinds")
          (ListE [Str "correlation"; Str "partial correlation"; Str "tangent"]);
        Assign (Tuple [Name "_"; Name "classes"])
          (Call (Attribute (Name "np") "unique")
             [Name "groups"]
             [Keyword "return_inverse" (Constant "True")]);
        Assign (Name "cv")
          (Call (Name "StratifiedShuffleSplit")
             []
             [Keyword "n_splits" (Constant "15");
              Keyword "random_state" (Constant "0");
              Keyword "test_size" (Constant "5")]);
        Assign (Name "pooled_subjects")
          (Call (Attribute (Name "np") "asarray") [Name "pooled_subjects"] [])] |}.

(**
<<
scores = {}
for kind in kinds:
    scores[kind] = []
    for train, test in cv.split(pooled_subjects, classes):
        # *ConnectivityMeasure* can output the estimated subjects coefficients
        # as a 1D arrays through the parameter *vectorize*.
        connectivity = ConnectivityMeasure(kind=kind, vectorize=True)
        # build vectorized connectomes for subjects in the train set
        connectomes = connectivity.fit_transform(pooled_subjects[train])
        # fit the classifier
        classifier = LinearSVC().fit(connectomes, classes[train])
        # make predictions for the left-out test subjects
        predictions = classifier.predict(
            connectivity.transform(pooled_subjects[test]))
        # store the accuracy for this cross-validation fold
        scores[kind].append(accuracy_score(classes[test], predictions))
>>
*)
Definition cell_39 : cell :=
  {| index := 39;
     source :=
       [Assign (Name "scores") (Dict [] []);
        For (Name "kind")
          (Name "kinds")
          [Assign (Subscript (Name "scores") (Name "kind")) (ListE []);
           For (Tuple [Name "train"; Name "test"])
             (Call (Attribute (Name "cv") "split")
                [Name "pooled_subjects"; Name "classes"]
                [])
             [Assign (Name "connectivity")
                (Call (Name "ConnectivityMeasure")
                   []
                   [Keyword "kind" (Name "kind");
                    Keyword "vectorize" (Constant "True")]);
              Assign (Name "connectomes")
                (Call (Attribute (Name "connectivity") "fit_transform")
                   [Subscript (Name "pooled_subjects") (Name "train")]
                   []);
              Assign (Name "classifier")
                (Call (Attribute (Call (Name "LinearSVC") [] []) "fit")
                   [Name "connectomes"; Subscript (Name "classes") (Name "train")]
                   []);
              Assign (Name "predictions")
                (Call (Attribute (Name "classifier") "predict")
                   [Call (Attribute (Name "connectivity") "transform")
                      [Subscript (Name "pooled_subjects") (Name "test")]
                      []]
                   []);
              Expr (Call (Attribute (Subscript (Name "scores") (Name "kind")) "append")
                      [Call (Name "accuracy_score")
                         [Subscript (Name "classes") (Name "test");
                          Name "predictions"]
                         []]
                      [])]]] |}.

(**
<<
mean_scores = [np.mean(scores[kind]) for kind in kinds]
scores_std = [np.std(scores[kind]) for kind in kinds]
plt.figure(figsize=(12, 6))
positions = np.arange(len(kinds)) * .1 + .1
plt.barh(positions, mean_scores, align='center', height=.05, xerr=scores_std)
yticks = [k.replace(' ', '\n') for k in kinds]
plt.yticks(positions, yticks, fontsize=15)
plt.gca().grid(True)
plt.gca().set_axisbelow(True)
plt.gca().axvline(.8, color='red', linestyle='--', linewidth=3)
plt.xlabel('Classification accuracy\n(red line = chance level)', fontsize=15)
plt.tight_layout()
>>
*)
Definition cell_41 : cell :=
  {| index := 41;
     source :=
       [Assign (Name "mean_scores")
          (ListComp (Call (Attribute (Name "np") "mean")
                       [Subscript (Name "scores") (Name "kind")]
                       []) (Name "kind") (Name "kinds"));
        Assign (Name "scores_std")
          (ListComp (Call (Attribute (Name "np") "std")
                       [Subscript (Name "scores") (Name "kind")]
                       []) (Name "kind") (Name "kinds"));
        Expr (Call (Attribute (Name "plt") "figure")
                []
                [Keyword "figsize" (Tuple [Constant "12"; Constant "6"])]);
        Assign (Name "positions")
          (BinOp (BinOp (Call (Attribute (Name "np") "arange")
                           [Call (Name "len") [Name "kinds"] []]
                           []) "*" (Constant "0.1")) "+" (Constant "0.1"));
        Expr (Call (Attribute (Name "plt") "barh")
                [Name "positions"; Name "mean_scores"]
                [Keyword "align" (Str "center");
                 Keyword "height" (Constant "0.05");
                 Keyword "xerr" (Name "scores_std")]);
        Assign (Name "yticks")
          (ListComp (Call (Attribute (Name "k") "replace") [Str " "; Str "\n"] []) (Name "k") (Name "kinds"));
        Expr (Call (Attribute (Name "plt") "yticks")
                [Name "positions"; Name "yticks"]
                [Keyword "fontsize" (Constant "15")]);
        Expr (Call (Attribute (Call (Attribute (Name "plt") "gca") [] []) "grid")
                [Constant "True"]
                []);
        Expr (Call (Attribute (Call (Attribute (Name "plt") "gca") [] []) "set_axisbelow")
                [Constant "True"]
                []);
        Expr (Call (Attribute (Call (Attribute (Name "plt") "gca") [] []) "axvline")
                [Constant "0.8"]
                [Keyword "color" (Str "red");
                 Keyword "linestyle" (Str "--");
                 Keyword "linewidth" (Constant "3")]);
        Expr (Call (Attribute (Name "plt") "xlabel")
                [Str "Classification accuracy\n(red line = chance level)"]
                [Keyword "fontsize" (Constant "15")]);
        Expr (Call (Attribute (Name "plt") "tight_layout") [] [])] |}.

(**
<<
scores_std
>>
*)
Definition cell_43 : cell :=
  {| index := 43;
     source :=
       [Expr (Name "scores_std")] |}.

(** The code cells in the order of the file. *)
Definition notebook : Py.notebook :=
  [cell_4;
   cell_5;
   cell_8;
   cell_10;
   cell_12;
   cell_14;
   cell_16;
   cell_18;
   cell_20;
   cell_22;
   cell_24;
   cell_26;
   cell_28;
   cell_30;
   cell_32;
   cell_34;
   cell_37;
   cell_39;
   cell_41;
   cell_43].

End ClassificationSource.

(** ** classification-example.ipynb: the cells that compute on data

    Cells are numbered by their index in the notebook file.  The fetched
    dataset and the fitted masker are variables of the section.  The
    connectivity estimator, the classifier, the metric and the
    cross-validation splitter come from nilearn and scikit-learn: each is a
    record of its calls, any of which may raise, with what its documentation
    and behaviour fix of them. *)
Module ClassificationExample.

Record Phenotypic : Type := { Child_Adult : list string }.

(** What [datasets.fetch_development_fmri] returns, as far as the cells read it. *)
Record Dataset : Type := {
  func : list string;
  confounds : list string;
  phenotypic : Phenotypic
}.

Record Files : Type := {
  child_func_files : list string;
  child_confound_files : list string;
  adult_func_files : list string;
  adult_confound_files : list string
}.

Definition kinds : list string := ["correlation"; "partial correlation"; "tangent"].

(** [ConnectivityMeasure(kind=kind, ...)]: [fit_transform] on a list of
    subjects gives the fitted estimator and one output per subject,
    [transform] one output per subject; both raise ValueError on no subject. *)
Record ConnectivityMeasure (TimeSeries Fitted Output : Type) : Type := {
  fit_transform : string -> list TimeSeries -> result (Fitted * list Output);
  transform : Fitted -> list TimeSeries -> result (list Output);
  fit_transform_empty : forall kind, fit_transform kind [] = Raise ValueError;
  fit_transform_subjects : forall kind subjects fitted outputs,
    fit_transform kind subjects = Ok (fitted, outputs) ->
    length outputs = length subjects;
  transform_empty : forall fitted, transform fitted [] = Raise ValueError;
  transform_subjects : forall fitted subjects outputs,
    transform fitted subjects = Ok outputs -> length outputs = length subjects
}.

Arguments fit_transform {TimeSeries Fitted Output} _ kind subjects.
Arguments transform {TimeSeries Fitted Output} _ fitted subjects.
Arguments fit_transform_empty {TimeSeries Fitted Output} _ kind.
Arguments fit_transform_subjects {TimeSeries Fitted Output} _ kind subjects fitted outputs.
Arguments transform_empty {TimeSeries Fitted Output} _ fitted.
Arguments transform_subjects {TimeSeries Fitted Output} _ fitted subjects outputs.

(** What the scoring loop calls of scikit-learn.

    [LinearSVC().fit(X, y)] takes as many labels as samples, of two classes
    at least, and raises ValueError otherwise; [predict] gives one label per
    sample.  [StratifiedShuffleSplit(n_splits=15, random_state=0,
    test_size=5).split(X, y)] raises ValueError unless [X] and [y] have one
    length, and otherwise yields 15 pairs of train and test indices into
    them, 5 test indices in each, the same pairs at every call.
    [accuracy_score(y_true, y_pred)] is the fraction of positions where the
    two vectors agree, and raises ValueError when their lengths differ; what
    it does on two empty vectors depends on the version and is left open. *)
Record Sklearn (TimeSeries Sample Classifier : Type) : Type := {
  LinearSVC_fit : list Sample -> list nat -> result Classifier;
  predict : Classifier -> list Sample -> result (list nat);
  cv_split : list TimeSeries -> list nat -> result (list (list nat * list nat));
  accuracy_score : list nat -> list nat -> result pyfloat;
  LinearSVC_fit_classes : forall X y classifier,
    LinearSVC_fit X y = Ok classifier ->
    length X = length y /\ exists a b, a ∈ y /\ b ∈ y /\ a <> b;
  predict_samples : forall classifier X predictions,
    predict classifier X = Ok predictions -> length predictions = length X;
  cv_split_folds : forall X y folds,
    cv_split X y = Ok folds ->
    length X = length y
    /\ length folds = 15
    /\ Forall (fun split : list nat * list nat =>
                 length split.2 = 5
                 /\ Forall (fun i => i < length X) split.1
                 /\ Forall (fun i => i < length X) split.2) folds;
  accuracy_score_fraction : forall y_true y_pred,
    y_true <> [] -> length y_true = length y_pred ->
    accuracy_score y_true y_pred = Ok (Fin (Sk.fraction y_true y_pred));
  accuracy_score_lengths : forall y_true y_pred,
    length y_true <> length y_pred ->
    accuracy_score y_true y_pred = Raise ValueError
}.

Arguments LinearSVC_fit {TimeSeries Sample Classifier} _ X y.
Arguments predict {TimeSeries Sample Classifier} _ classifier X.
Arguments cv_split {TimeSeries Sample Classifier} _ X y.
Arguments accuracy_score {TimeSeries Sample Classifier} _ y_true y_pred.
Arguments LinearSVC_fit_classes {TimeSeries Sample Classifier} _ X y classifier.
Arguments predict_samples {TimeSeries Sample Classifier} _ classifier X predictions.
Arguments cv_split_folds {TimeSeries Sample Classifier} _ X y folds.
Arguments accuracy_score_fraction {TimeSeries Sample Classifier} _ y_true y_pred.
Arguments accuracy_score_lengths {TimeSeries Sample Classifier} _ y_true y_pred.

(** The calls of cell 39 into nilearn and scikit-learn that have no model
    here beyond what their records say. *)
Definition estimator_calls : list string :=
  ["cv.split"; "connectivity.fit_transform"; "LinearSVC().fit";
   "connectivity.transform"; "classifier.predict"].

Section Cells.
Context {TimeSeries Fitted Connectome Classifier : Type}.

(** [p.shape] of an extracted array. *)
Variable shape : TimeSeries -> nat * nat.
(** The fitted [MultiNiftiMapsMasker] on one image and its confounds file. *)
Variable masker_transform_one : string -> string -> TimeSeries.
(** [ConnectivityMeasure(kind=kind, vectorize=True)] and scikit-learn. *)
Variable connectivity_measure : ConnectivityMeasure TimeSeries Fitted Connectome.
Variable sklearn : Sklearn TimeSeries Connectome Classifier.

(** [masker.transform(files, confounds=confound_files)]: one array per image. *)
Definition masker_transform (files confound_files : list string) : list TimeSeries :=
  zip_with masker_transform_one files confound_files.

(** Cell 8: select the children and the adults by boolean masks. *)
Definition cell_8 (development_dataset : Dataset) : result Files :=
  let child_idx :=
    Np.eq_elementwise (Child_Adult (phenotypic development_dataset)) "child" in
  child_func ← Np.bool_index (func development_dataset) child_idx;
  child_confound ← Np.bool_index (confounds development_dataset) child_idx;
  let adult_idx :=
    Np.eq_elementwise (Child_Adult (phenotypic development_dataset)) "adult" in
  adult_func ← Np.bool_index (func development_dataset) adult_idx;
  adult_confound ← Np.bool_index (confounds development_dataset) adult_idx;
  Ok {| child_func_files := child_func;
        child_confound_files := child_confound;
        adult_func_files := adult_func;
        adult_confound_files := adult_confound |}.

(** Cell 10: extract the time series; [pooled_subjects = adults + children]. *)
Definition cell_10 (files : Files) : list TimeSeries * list TimeSeries :=
  let children :=
    masker_transform (child_func_files files) (child_confound_files files) in
  let adults :=
    masker_transform (adult_func_files files) (adult_confound_files files) in
  let pooled_subjects := adults ++ children in
  (children, pooled_subjects).

(** Cell 12: [for p in pooled_subjects: assert p.shape == (168, 39)]. *)
Definition cell_12 (pooled_subjects : list TimeSeries) : result unit :=
  for_each pooled_subjects
    (fun p _ => if decide (shape p = (168, 39)) then Ok tt else Raise AssertionError)
    tt.

(** Cell 37: the labels of the classifier.  [groups] follows the rows of the
    phenotypic table; [np.asarray(pooled_subjects)] keeps the order of the list. *)
Definition groups (development_dataset : Dataset) : list string :=
  Child_Adult (phenotypic development_dataset).

Definition cell_37 (development_dataset : Dataset) : list string * list nat :=
  Np.unique_inverse (groups development_dataset).

(** One cross-validation fold of cell 39, operation by operation in the
    order Python evaluates them; [scores] is written by the last one only. *)
Definition fold (pooled_subjects : list TimeSeries) (classes : list nat)
    (kind : string) (split : list nat * list nat)
    (scores : gmap string (list pyfloat)) : attempt (gmap string (list pyfloat)) :=
  let '(train, test) := split in
  train_subjects ← at_ "pooled_subjects[train]" (Np.take pooled_subjects train);
  fitted ← at_ "connectivity.fit_transform"
              (fit_transform connectivity_measure kind train_subjects);
  let '(connectivity, connectomes) := fitted in
  train_classes ← at_ "classes[train]" (Np.take classes train);
  classifier ← at_ "LinearSVC().fit"
                  (LinearSVC_fit sklearn connectomes train_classes);
  test_subjects ← at_ "pooled_subjects[test]" (Np.take pooled_subjects test);
  test_connectomes ← at_ "connectivity.transform"
                        (transform connectivity_measure connectivity test_subjects);
  predictions ← at_ "classifier.predict" (predict sklearn classifier test_connectomes);
  so_far ← at_ "scores[kind]" (match scores !! kind with
                               | Some l => Ok l
                               | None => Raise KeyError
                               end);
  test_classes ← at_ "classes[test]" (Np.take classes test);
  score ← at_ "accuracy_score" (accuracy_score sklearn test_classes predictions);
  Done (<[kind := so_far ++ [score]]> scores).

(** [score] is the accuracy of the fold [split] for [kind]: the fraction of
    the test subjects of the fold whose class is the one predicted for them
    by the classifier fitted on its train subjects. *)
Definition fold_accuracy (pooled_subjects : list TimeSeries) (classes : list nat)
    (kind : string) (split : list nat * list nat) (score : pyfloat) : Prop :=
  exists train_subjects connectivity connectomes train_classes classifier
         test_subjects test_connectomes predictions test_classes,
    Np.take pooled_subjects split.1 = Ok train_subjects
    /\ fit_transform connectivity_measure kind train_subjects
       = Ok (connectivity, connectomes)
    /\ Np.take classes split.1 = Ok train_classes
    /\ LinearSVC_fit sklearn connectomes train_classes = Ok classifier
    /\ Np.take pooled_subjects split.2 = Ok test_subjects
    /\ transform connectivity_measure connectivity test_subjects
       = Ok test_connectomes
    /\ predict sklearn classifier test_connectomes = Ok predictions
    /\ Np.take classes split.2 = Ok test_classes
    /\ test_classes <> []
    /\ length predictions = length test_classes
    /\ score = Fin (Sk.fraction test_classes predictions).

(** The inner loop of cell 39 for one kind, after [scores[kind] = []]. *)
Definition folds_of_kind (pooled_subjects : list TimeSeries) (classes : list nat)
    (kind : string) (scores : gmap string (list pyfloat))
  : gmap string (list pyfloat) * attempt unit :=
  match at_ "cv.split" (cv_split sklearn pooled_subjects classes) with
  | Failed operation e => (scores, Failed operation e)
  | Done folds =>
      for_each_kept folds
        (fun split scores =>
           match fold pooled_subjects classes kind split scores with
           | Done scores' => (scores', Done tt)
           | Failed operation e => (scores, Failed operation e)
           end)
        scores
  end.

(** Cell 39: the scoring loop over the kinds and the folds.  [scores] is
    returned as the loop left it, also when an operation raised. *)
Definition cell_39 (pooled_subjects : list TimeSeries) (classes : list nat)
  : gmap string (list pyfloat) * attempt unit :=
  for_each_kept kinds
    (fun kind scores =>
       folds_of_kind pooled_subjects classes kind (<[kind := []]> scores))
    ∅.

(** Cell 41: [mean_scores = [np.mean(scores[kind]) for kind in kinds]]; the
    rest of the cell draws the bar chart. *)
Definition cell_41 (scores : gmap string (list pyfloat)) : result (list pyfloat) :=
  list_comp (fun kind => match scores !! kind with
                         | Some l => Ok (Np.mean l)
                         | None => Raise KeyError
                         end) kinds.

End Cells.

(** The rows of the phenotypic table with a given label, in table order. *)
Definition rows_of (column : list string) (value : string) : list nat :=
  filter (fun row => column !! row = Some value) (seq 0 (length column)).

(** The row of the phenotypic table each entry of [pooled_subjects] was
    extracted from: the masks of cell 8 and the concatenation of cell 10
    applied to the row numbers. *)
Definition pooled_rows (development_dataset : Dataset) : list nat :=
  let column := Child_Adult (phenotypic development_dataset) in
  let rows := seq 0 (length column) in
  Np.mask_select rows (Np.eq_elementwise column "adult")
  ++ Np.mask_select rows (Np.eq_elementwise column "child").

(** Entry [i] of the classifier's labels names the age group of the
    participant entry [i] of [pooled_subjects] was extracted from. *)
Definition labels_aligned (development_dataset : Dataset) : Prop :=
  let '(values, classes) := cell_37 development_dataset in
  forall i row, pooled_rows development_dataset !! i = Some row ->
    exists class group,
      classes !! i = Some class /\
      values !! class = Some group /\
      Child_Adult (phenotypic development_dataset) !! row = Some group.

(** The phenotypic table lists every adult before every child. *)
Definition adults_first (development_dataset : Dataset) : Prop :=
  exists n_adults n_children,
    Child_Adult (phenotypic development_dataset)
    = replicate n_adults "adult" ++ replicate n_children "child".

End ClassificationExample.

(** ** intro-to-nilearn.ipynb: the correlation matrix of cells 65 to 69

    numpy arrays are objects of the session: a variable holds the address of
    an array, [np.fill_diagonal] writes into the array at that address, and
    a plotting call receives the array that is there when it is called.
    The plotting calls only read it. *)
Module IntroToNilearn.

Section Connectome.
Context {TimeSeries Entry : Type}.

(** The literal [0] as an entry of the array. *)
Variable zero : Entry.
(** [ConnectivityMeasure(kind='correlation')] on the time series of one subject. *)
Variable correlation : TimeSeries -> list (list Entry).

Record Session : Type := {
  arrays : gmap nat (list (list Entry));
  displayed : list (string * list (list Entry))
}.

Definition session (A : Type) : Type := Session -> result (A * Session).

#[local] Instance session_ret : MRet session := fun _ a s => Ok (a, s).

#[local] Instance session_bind : MBind session := fun _ _ k m s =>
  match m s with
  | Ok (a, s') => k a s'
  | Raise e => Raise e
  end.

Definition new_array (a : list (list Entry)) : session nat := fun s =>
  let address := fresh (dom (arrays s)) in
  Ok (address, {| arrays := <[address := a]> (arrays s);
                  displayed := displayed s |}).

(** [correlation_measure.fit_transform(subjects)]: one matrix per subject. *)
Fixpoint fit_transform (subjects : list TimeSeries) : session (list nat) :=
  match subjects with
  | [] => mret []
  | subject :: rest =>
      address ← new_array (correlation subject);
      addresses ← fit_transform rest;
      mret (address :: addresses)
  end.

(** [matrices[i]]: a view, the same array. *)
Definition item (matrices : list nat) (i : nat) : session nat := fun s =>
  match matrices !! i with
  | Some address => Ok (address, s)
  | None => Raise IndexError
  end.

(** [np.fill_diagonal(a, val)], in place. *)
Definition fill_diagonal (address : nat) (val : Entry) : session unit := fun s =>
  Ok (tt, {| arrays := <[address := Np.fill_diagonal (arrays s !!! address) val]>
                         (arrays s);
             displayed := displayed s |}).

(** A plotting function called on the array at [address]. *)
Definition display (function : string) (address : nat) : session unit := fun s =>
  Ok (tt, {| arrays := arrays s;
             displayed := displayed s ++ [(function, arrays s !!! address)] |}).

(** Cell 65:
    [correlation_matrix = correlation_measure.fit_transform([roi_time_series])[0]]. *)
Definition cell_65 (roi_time_series : TimeSeries) : session nat :=
  matrices ← fit_transform [roi_time_series];
  item matrices 0.

(** Cell 67: [np.fill_diagonal(correlation_matrix, 0)], then, on a new
    figure, [plotting.plot_matrix(correlation_matrix, ...)]. *)
Definition cell_67 (correlation_matrix : nat) : session unit :=
  _ ← fill_diagonal correlation_matrix zero;
  display "plotting.plot_matrix" correlation_matrix.

(** Cell 69: [plotting.view_connectome(correlation_matrix, ...)]. *)
Definition cell_69 (correlation_matrix : nat) : session unit :=
  display "plotting.view_connectome" correlation_matrix.

Definition run (roi_time_series : TimeSeries) : session nat :=
  correlation_matrix ← cell_65 roi_time_series;
  _ ← cell_67 correlation_matrix;
  _ ← cell_69 correlation_matrix;
  mret correlation_matrix.
End Connectome.

(** Entry [(i, j)] of a two-dimensional array. *)
Definition entry {Entry : Type} (a : list (list Entry)) (i j : nat) : option Entry :=
  a !! i ≫= fun row => row !! j.

End IntroToNilearn.

(** ** intro-to-nilearn.ipynb: the corrected matrix of cells 72 to 77

    Cell 72 reads the first confounds file, cell 74 extracts the time series
    again with it, and cells 75 and 77 compute, write and display the second
    matrix like the first, in the session the first left behind. *)
Module IntroCorrected.
Import IntroToNilearn.

#[local] Existing Instances session_ret session_bind.

Section Corrected.
Context {TimeSeries Entry : Type}.

Variable zero : Entry.
Variable correlation : TimeSeries -> list (list Entry).
(** The fitted masker on one image, regressing out one confounds file. *)
Variable masker_transform : string -> string -> TimeSeries.
(** [pd.read_table(file).head()]: shown, not kept; reading may raise. *)
Variable read_table : string -> result unit.

(** [files[0]]. *)
Definition first_file (files : list string) : result string :=
  match files with
  | file :: _ => Ok file
  | [] => Raise IndexError
  end.

(** Cell 72: [pd.read_table(development_dataset.confounds[0]).head()]. *)
Definition cell_72 (confounds : list string) : result unit :=
  confound ← first_file confounds;
  read_table confound.

(** Cell 74: [corrected_roi_time_series = masker.transform(
    development_dataset.func[0], confounds=development_dataset.confounds[0])]. *)
Definition cell_74 (func confounds : list string) : result TimeSeries :=
  image ← first_file func;
  confound ← first_file confounds;
  Ok (masker_transform image confound).

(** Cell 75: the matrix of the corrected time series, its diagonal filled
    in place, then [plotting.plot_matrix]. *)
Definition cell_75 (corrected_roi_time_series : TimeSeries) : session nat :=
  matrices ← fit_transform correlation [corrected_roi_time_series];
  corrected_correlation_matrix ← item matrices 0;
  _ ← fill_diagonal corrected_correlation_matrix zero;
  _ ← display "plotting.plot_matrix" corrected_correlation_matrix;
  mret corrected_correlation_matrix.

(** Cell 77: [plotting.view_connectome(corrected_correlation_matrix, ...)]. *)
Definition cell_77 (corrected_correlation_matrix : nat) : @session Entry unit :=
  display "plotting.view_connectome" corrected_correlation_matrix.

(** Cells 65 to 77 in order: the two matrices. *)
Definition run_both (roi_time_series : TimeSeries) (func confounds : list string)
  : session (nat * nat) := fun s =>
  match run zero correlation roi_time_series s with
  | Raise e => Raise e
  | Ok (correlation_matrix, s1) =>
      match cell_72 confounds with
      | Raise e => Raise e
      | Ok _ =>
          match cell_74 func confounds with
          | Raise e => Raise e
          | Ok corrected_roi_time_series =>
              (corrected_correlation_matrix ← cell_75 corrected_roi_time_series;
               _ ← cell_77 corrected_correlation_matrix;
               mret (correlation_matrix, corrected_correlation_matrix)) s1
          end
      end
  end.
End Corrected.

End IntroCorrected.

(** ** classification-example.ipynb: the matrices of the children and their plots

    Cells 14, 24 and 32 compute one matrix per child with a
    [ConnectivityMeasure] of each kind; cells 20, 26 and 34 draw the first of
    them on the three axes of a new figure.  The estimator is the record of
    its calls; [plotting.plot_matrix] may raise like any call. *)
Module ClassificationPlots.
Import ClassificationExample.

Section Plots.
Context {TimeSeries Fitted Matrix Axes : Type}.

(** [ConnectivityMeasure(kind=kind)]. *)
Variable connectivity_measure : ConnectivityMeasure TimeSeries Fitted Matrix.
(** The axes of a new figure, from left to right. *)
Variable new_axes : nat -> Axes.

(** What one call of [plotting.plot_matrix] receives. *)
Record Plot : Type := {
  matrix : Matrix;
  axes : Axes;
  title : string
}.

Variable plot_matrix : Plot -> result unit.

(** [_, axes = plt.subplots(1, ncols, ...)]. *)
Definition subplots (ncols : nat) : list Axes := map new_axes (seq 0 ncols).

Definition enumerate {A : Type} (l : list A) : list (nat * A) := imap pair l.

(** ['... {}'.format(i)], for a template that ends in its one field. *)
Definition format (template : string) (i : nat) : string := template +:+ pretty i.

(** One turn of [for i, (matrix, ax) in enumerate(zip(matrices, axes)):
        plotting.plot_matrix(matrix, ..., axes=ax, title=template.format(i))]:
    the call is made and may raise. *)
Definition plot_turn (template : string) (item : nat * (Matrix * Axes))
    (calls : list Plot) : list Plot * attempt unit :=
  let '(i, (matrix, ax)) := item in
  let plot := {| matrix := matrix; axes := ax; title := format template i |} in
  (calls ++ [plot], at_ "plotting.plot_matrix" (plot_matrix plot)).

(** The loop: the calls made, in order, and how it ended. *)
Definition plot_each (template : string) (matrices : list Matrix)
    (axes : list Axes) : list Plot * attempt unit :=
  for_each_kept (enumerate (zip matrices axes)) (plot_turn template) [].

(** Cells 14 and 20. *)
Definition cell_14 (children : list TimeSeries) : result (Fitted * list Matrix) :=
  fit_transform connectivity_measure "correlation" children.

Definition cell_20 (correlation_matrices : list Matrix) : list Plot * attempt unit :=
  plot_each "correlation, child " correlation_matrices (subplots 3).

(** Cells 24 and 26. *)
Definition cell_24 (children : list TimeSeries) : result (Fitted * list Matrix) :=
  fit_transform connectivity_measure "partial correlation" children.

Definition cell_26 (partial_correlation_matrices : list Matrix)
  : list Plot * attempt unit :=
  plot_each "partial correlation, child " partial_correlation_matrices (subplots 3).

(** Cells 32 and 34. *)
Definition cell_32 (children : list TimeSeries) : result (Fitted * list Matrix) :=
  fit_transform connectivity_measure "tangent" children.

Definition cell_34 (tangent_matrices : list Matrix) : list Plot * attempt unit :=
  plot_each "tangent offset, child " tangent_matrices (subplots 3).
End Plots.

End ClassificationPlots.

(** ** Concrete inputs *)
Module Examples.
Import ClassificationExample.

(** Two participants, the child listed first. *)
Definition children_first : Dataset :=
  {| func := ["sub-01_bold.nii.gz"; "sub-02_bold.nii.gz"];
     confounds := ["sub-01_confounds.tsv"; "sub-02_confounds.tsv"];
     phenotypic := {| Child_Adult := ["child"; "adult"] |} |}.

(** Five participants, the two adults listed first. *)
Definition adults_then_children : Dataset :=
  {| func := ["sub-01_bold.nii.gz"; "sub-02_bold.nii.gz"; "sub-03_bold.nii.gz";
              "sub-04_bold.nii.gz"; "sub-05_bold.nii.gz"];
     confounds := ["sub-01_confounds.tsv"; "sub-02_confounds.tsv";
                   "sub-03_confounds.tsv"; "sub-04_confounds.tsv";
                   "sub-05_confounds.tsv"];
     phenotypic := {| Child_Adult := ["adult"; "adult"; "child"; "child"; "child"] |} |}.

(** Ten participants, the two adults listed first. *)
Definition ten_participants : Dataset :=
  {| func := ["sub-01_bold.nii.gz"; "sub-02_bold.nii.gz"; "sub-03_bold.nii.gz";
              "sub-04_bold.nii.gz"; "sub-05_bold.nii.gz"; "sub-06_bold.nii.gz";
              "sub-07_bold.nii.gz"; "sub-08_bold.nii.gz"; "sub-09_bold.nii.gz";
              "sub-10_bold.nii.gz"];
     confounds := ["sub-01_confounds.tsv"; "sub-02_confounds.tsv";
                   "sub-03_confounds.tsv"; "sub-04_confounds.tsv";
                   "sub-05_confounds.tsv"; "sub-06_confounds.tsv";
                   "sub-07_confounds.tsv"; "sub-08_confounds.tsv";
                   "sub-09_confounds.tsv"; "sub-10_confounds.tsv"];
     phenotypic :=
       {| Child_Adult := ["adult"; "adult"; "child"; "child"; "child";
                          "child"; "child"; "child"; "child"; "child"] |} |}.

(** A masker that returns the row of the image in [ten_participants]. *)
Definition row_of_image (image _ : string) : nat :=
  Np.position image (func ten_participants).

(** A connectivity estimator that hands each subject on as its connectome. *)
Definition pass_on : ConnectivityMeasure nat unit nat.
Proof.
  refine {| fit_transform := fun _ subjects =>
              match subjects with
              | [] => Raise ValueError
              | _ => Ok (tt, subjects)
              end;
            transform := fun _ subjects =>
              match subjects with
              | [] => Raise ValueError
              | _ => Ok subjects
              end |}.
  - reflexivity.
  - intros kind [|s subjects] fitted outputs; [discriminate|].
    intros [= _ <-]. reflexivity.
  - reflexivity.
  - intros fitted [|s subjects] outputs; [discriminate|].
    intros [= <-]. reflexivity.
Defined.

(** Two labels of a vector differ. *)
Definition two_classes (y : list nat) : bool :=
  existsb (fun a => existsb (fun b => negb (Nat.eqb a b)) y) y.

(** A classifier that calls the first seven subjects adults, a splitter that
    tests on the last five subjects fifteen times, and the accuracy with NaN
    for two empty vectors. *)
Definition first_seven : Sklearn nat nat unit.
Proof.
  refine {| LinearSVC_fit := fun X y =>
              if Nat.eqb (length X) (length y) && two_classes y
              then Ok tt else Raise ValueError;
            predict := fun _ X => Ok (map (fun x => if x <? 7 then 0 else 1) X);
            cv_split := fun X y =>
              if Nat.eqb (length X) (length y) && (5 <=? length X)
              then Ok (replicate 15 (seq 0 (length X - 5), seq (length X - 5) 5))
              else Raise ValueError;
            accuracy_score := fun y_true y_pred =>
              if Nat.eqb (length y_true) (length y_pred)
              then match y_true with
                   | [] => Ok NaN
                   | _ => Ok (Fin (Sk.fraction y_true y_pred))
                   end
              else Raise ValueError |}.
  - intros X y classifier.
    destruct (Nat.eqb_spec (length X) (length y)) as [Hlen|]; [|discriminate].
    destruct (two_classes y) eqn:Htwo; [|discriminate]. intros _.
    split; [exact Hlen|]. unfold two_classes in Htwo.
    apply existsb_exists in Htwo as (a & Ha & Htwo).
    apply existsb_exists in Htwo as (b & Hb & Hab).
    exists a, b. rewrite !list_elem_of_In. repeat split; try assumption.
    intros ->. rewrite Nat.eqb_refl in Hab. discriminate.
  - intros classifier X predictions [= <-]. apply length_map.
  - intros X y folds.
    destruct (Nat.eqb_spec (length X) (length y)) as [Hlen|]; [|discriminate].
    destruct (Nat.leb_spec 5 (length X)) as [Hfive|]; [|discriminate].
    intros Hfolds.
    assert (folds = replicate 15 (seq 0 (length X - 5), seq (length X - 5) 5))
      as -> by (injection Hfolds as <-; reflexivity).
    split; [exact Hlen|]. split; [apply length_replicate|].
    apply Forall_replicate. cbn [fst snd]. rewrite length_seq.
    split; [reflexivity|].
    split; apply Forall_forall; intros i Hi; apply elem_of_seq in Hi; lia.
  - intros y_true y_pred Hne Hlen. rewrite Hlen, Nat.eqb_refl.
    destruct y_true; [contradiction | reflexivity].
  - intros y_true y_pred Hlen.
    destruct (Nat.eqb_spec (length y_true) (length y_pred)); [contradiction|].
    reflexivity.
Defined.

(** A two-region correlation matrix. *)
Definition two_regions (_ : unit) : list (list Z) := [[1; 7]; [7; 1]]%Z.

(** An environment in which the first [import nilearn] fails and nothing else. *)
Definition nilearn_missing : Py.environment :=
  {| Py.raises := fun step _ =>
       if Nat.eqb step 1 then Some "ModuleNotFoundError" else None;
     Py.items := fun _ _ => 0;
     Py.truth := fun _ => true |}.

End Examples.

(** ** Further properties of the data the cells read *)
Module MoreProps.

(** The order of [np.unique] on strings. *)
Definition before (a b : string) : Prop := String.compare a b = Lt.

End MoreProps.

(** ** What the specification says of the notebooks' code *)
Module Spec.
Import Py.

(** The one handler: the [import nilearn] of cell 4 of the first notebook,
    the second operation of a run. *)
Definition guarded_import (step : nat) (ev : event) : Prop :=
  step = 1 /\ ev = EImport "nilearn".

Definition import_guard : stmt :=
  Try [Import "nilearn" None]
      [Magic "!pip install nilearn"; Import "nilearn" None].

(** No error handling of the notebook's own: no handler, no [raise], no [assert]. *)
Definition no_error_handling (nb : notebook) : Prop :=
  try_statements nb = [] /\ raise_statements nb = [] /\ assert_statements nb = [].

(** No branching: no [if], no [while], no conditional expression. *)
Definition no_branching (nb : notebook) : Prop :=
  if_statements nb = [] /\ while_loops nb = [] /\ conditional_exprs nb = [].

(** Nothing but calls into code from elsewhere: no function, class or lambda
    of the notebook's own, no branching, no error handling. *)
Definition library_calls_only (nb : notebook) : Prop :=
  definitions nb = [] /\ lambdas nb = [] /\ no_branching nb /\ no_error_handling nb.

(** Exactly two [for] loops in the two notebooks together, over the kinds
    and over the folds, and no other loop. *)
Definition two_for_loops (intro classification : notebook) : Prop :=
  map iterated (for_loops intro ++ for_loops classification) = ["kinds"; "cv.split()"]
  /\ while_loops intro ++ while_loops classification = []
  /\ comprehensions intro ++ comprehensions classification = [].

(** In every run, no call of a later pipeline stage precedes a call of an
    earlier one. *)
Definition never_goes_back (nb : notebook) : Prop :=
  forall env, never_back (stages (run env nb).2) = true.

(** The [assert] of cell 12 of the second notebook. *)
Definition shape_assert : stmt :=
  Assert (Compare (Attribute (Name "p") "shape") "=="
            (Tuple [Constant "168"; Constant "39"])).

End Spec.

(** ** The operations of the first notebook, in the order of its text *)
Module Paths.
Import Py Operations.

(** An operation of a library, not a check of the notebook's own. *)
Definition library (ev : event) : bool :=
  match ev with
  | EAssert | ERaise => false
  | _ => true
  end.

(** The installation the handler of the first notebook runs. *)
Definition installs (ev : event) : bool :=
  match ev with
  | EMagic line => String.eqb line "!pip install nilearn"
  | _ => false
  end.

(** The [import nilearn] of cell 4, the second operation of a run, raises. *)
Definition import_failed (env : environment) : bool :=
  match raises env 1 (EImport "nilearn") with
  | Some _ => true
  | None => false
  end.

(** The operations a run of the first notebook goes through: all that are
    written, without the two of the handler when the import succeeds. *)
Definition intro_operations (import_failed : bool) : list event :=
  let written := events_of (program IntroSource.notebook) in
  if import_failed then written else take 2 written ++ drop 4 written.

End Paths.

(** * Properties *)

(** ** numpy operations *)
Module NpFacts.
Import Np.

Lemma compare_refl (s : string) : String.compare s s = Eq.
Proof.
  pose proof (String.compare_antisym s s) as H.
  destruct (String.compare s s); simpl in H; congruence.
Qed.

Lemma insert_sorted_elem (s x : string) (us : list string) :
  x ∈ insert_sorted s us <-> x = s \/ x ∈ us.
Proof.
  induction us as [|u rest IH]; simpl.
  - set_solver.
  - destruct (String.compare s u) eqn:E.
    + apply String.compare_eq_iff in E. subst u. set_solver.
    + set_solver.
    + rewrite elem_of_cons, IH. set_solver.
Qed.

Lemma sorted_distinct_elem (x : string) (a : list string) :
  x ∈ sorted_distinct a <-> x ∈ a.
Proof.
  induction a as [|s a IH]; simpl.
  - reflexivity.
  - rewrite insert_sorted_elem, IH. set_solver.
Qed.

Lemma position_lookup (s : string) (us : list string) :
  s ∈ us -> us !! position s us = Some s.
Proof.
  induction us as [|u rest IH]; intros Hin.
  - inversion Hin.
  - simpl. destruct (String.eqb_spec s u) as [->|Hne]; [reflexivity|].
    simpl. apply IH. set_solver.
Qed.

(** The inverse indices rebuild the array from the distinct values. *)
Lemma unique_inverse_lookup (a : list string) (i : nat) (s : string) :
  a !! i = Some s ->
  exists c, (unique_inverse a).2 !! i = Some c /\ (unique_inverse a).1 !! c = Some s.
Proof.
  intros Hi. unfold unique_inverse; simpl.
  exists (position s (sorted_distinct a)). split.
  - rewrite list_lookup_fmap, Hi. reflexivity.
  - apply position_lookup, sorted_distinct_elem.
    eapply list_elem_of_lookup_2; eauto.
Qed.

Lemma unique_inverse_length (a : list string) :
  length (unique_inverse a).2 = length a.
Proof. unfold unique_inverse; simpl. apply length_fmap. Qed.

(** With only the two age groups as values, the distinct values are the
    groups that occur, adults before children. *)
Lemma sorted_distinct_age_groups (a : list string) :
  Forall (fun g => g = "child" \/ g = "adult") a ->
  sorted_distinct a
  = (if bool_decide ("adult" ∈ a) then ["adult"] else [])
    ++ (if bool_decide ("child" ∈ a) then ["child"] else []).
Proof.
  induction 1 as [|g a Hg _ IH]; [reflexivity|].
  simpl. rewrite IH. clear IH.
  destruct Hg as [-> | ->];
    repeat case_bool_decide; try reflexivity; exfalso; set_solver.
Qed.

Lemma mask_select_app {A : Type} (xs1 xs2 : list A) (m1 m2 : list bool) :
  length xs1 = length m1 ->
  mask_select (xs1 ++ xs2) (m1 ++ m2) = mask_select xs1 m1 ++ mask_select xs2 m2.
Proof.
  revert m1. induction xs1 as [|x xs1 IH]; intros [|b m1] Hlen; simpl in *;
    try discriminate; [reflexivity|].
  rewrite IH by lia. destruct b; reflexivity.
Qed.

Lemma mask_select_all {A : Type} (xs : list A) :
  mask_select xs (replicate (length xs) true) = xs.
Proof. induction xs; simpl; congruence. Qed.

Lemma mask_select_none {A : Type} (xs : list A) :
  mask_select xs (replicate (length xs) false) = [].
Proof. induction xs; simpl; congruence. Qed.

(** Selecting by a mask commutes with reading the rows the mask keeps. *)
Lemma mask_select_rows {A : Type} (pre xs : list A) (mask : list bool) :
  Forall2 (fun x row => (pre ++ xs) !! row = Some x)
          (mask_select xs mask)
          (mask_select (seq (length pre) (length xs)) mask).
Proof.
  revert pre mask. induction xs as [|x xs IH]; intros pre [|b mask]; simpl;
    try constructor.
  assert (Hrest : Forall2 (fun y row => (pre ++ x :: xs) !! row = Some y)
                    (mask_select xs mask)
                    (mask_select (seq (S (length pre)) (length xs)) mask)).
  { specialize (IH (pre ++ [x]) mask).
    rewrite length_app, <- app_assoc in IH. simpl in IH.
    replace (length pre + 1) with (S (length pre)) in IH by lia. exact IH. }
  destruct b; [constructor|]; try exact Hrest.
  rewrite lookup_app_r by lia. rewrite Nat.sub_diag. reflexivity.
Qed.

Lemma fill_diagonal_length {A : Type} (a : list (list A)) (val : A) :
  length (fill_diagonal a val) = length a.
Proof. unfold fill_diagonal. apply length_imap. Qed.

Lemma fill_diagonal_row {A : Type} (a : list (list A)) (val : A) (i : nat) :
  fill_diagonal a val !! i = (fun row => <[i := val]> row) <$> a !! i.
Proof. unfold fill_diagonal. rewrite list_lookup_imap. reflexivity. Qed.

End NpFacts.

(** ** The exception-and-trace semantics *)
Module PyFacts.
Import Py Invariants.

(** *** Induction over the nested syntax *)

Lemma expr_children_ind (P : expr -> Prop) :
  (forall e, Forall P (children e) -> P e) -> forall e, P e.
Proof.
  intros step.
  refine (fix IH (e : expr) : P e := _).
  pose (all := fix all (es : list expr) : Forall P es :=
          match es with
          | [] => @List.Forall_nil _ P
          | e' :: rest => @List.Forall_cons expr P e' rest (IH e') (all rest)
          end).
  apply step. destruct e; simpl; repeat first
    [ apply List.Forall_nil | apply Forall_app_2 | apply List.Forall_cons | apply all | apply IH ].
Qed.

Lemma stmt_blocks_ind (P : stmt -> Prop) :
  (forall s, Forall P (blocks s) -> P s) -> forall s, P s.
Proof.
  intros step.
  refine (fix IH (s : stmt) : P s := _).
  pose (all := fix all (ss : list stmt) : Forall P ss :=
          match ss with
          | [] => @List.Forall_nil _ P
          | s' :: rest => @List.Forall_cons stmt P s' rest (IH s') (all rest)
          end).
  apply step. destruct s; simpl; repeat first
    [ apply List.Forall_nil | apply Forall_app_2 | apply all ].
Qed.

(** *** Unfolding equations *)

Lemma in_order_cons (f : expr -> M) (e : expr) (es : list expr) :
  in_order f (e :: es) = seq (f e) (in_order f es).
Proof. reflexivity. Qed.

Lemma exec_all_cons (env : environment) (s : stmt) (body : list stmt) :
  exec_all env (s :: body) = seq (exec env s) (exec_all env body).
Proof. reflexivity. Qed.

Lemma exec_For (env : environment) (target iter : expr) (body : list stmt) :
  exec env (For target iter body)
  = seq (eval env iter)
        (iterate env (describe iter) (seq (store env target) (exec_all env body))).
Proof. reflexivity. Qed.

Lemma exec_While (env : environment) (test : expr) (body : list stmt) :
  exec env (While test body)
  = fun trace =>
      seq (repeat_m (items env (length trace) "while")
             (seq (eval env test) (seq (emit env ETruth) (exec_all env body))))
          (seq (eval env test) (emit env ETruth)) trace.
Proof. reflexivity. Qed.

Lemma exec_If (env : environment) (test : expr) (body orelse : list stmt) :
  exec env (If test body orelse)
  = seq (eval env test) (branch env (exec_all env body) (exec_all env orelse)).
Proof. reflexivity. Qed.

Lemma exec_Try (env : environment) (body handler : list stmt) :
  exec env (Try body handler)
  = try_except (exec_all env body) (exec_all env handler).
Proof. reflexivity. Qed.

Lemma store_elts (env : environment) (elts : list expr) :
  store env (Tuple elts) = seq (emit env (EStore "unpack")) (in_order (store env) elts)
  /\ store env (ListE elts)
     = seq (emit env (EStore "unpack")) (in_order (store env) elts).
Proof. split; reflexivity. Qed.

(** *** Properties of runs that every operation preserves

    A family [good] of computations that holds the events and is closed
    under sequencing, repetition and choices read off the trace holds every
    expression and every statement without [try]. *)
Section Closure.
Variable env : environment.
Variable good : M -> Prop.
Hypothesis good_ret : good ret.
Hypothesis good_emit : forall ev, good (emit env ev).
Hypothesis good_seq : forall a b, good a -> good b -> good (seq a b).
Hypothesis good_repeat : forall n a, good a -> good (repeat_m n a).
Hypothesis good_choice :
  forall (X : Type) (read : list event -> X) (f : X -> M),
    (forall x, good (f x)) -> good (fun trace => f (read trace) trace).

Lemma good_in_order (f : expr -> M) (es : list expr) :
  Forall (fun e => good (f e)) es -> good (in_order f es).
Proof.
  induction 1 as [|e es He _ IH]; [exact good_ret|].
  rewrite in_order_cons. auto.
Qed.

Lemma good_iterate (iterable : string) (body : M) :
  good body -> good (iterate env iterable body).
Proof.
  intros Hbody. unfold iterate.
  apply (good_choice nat (fun trace => items env (length trace) iterable)
           (fun n => seq (repeat_m n (seq (emit env (ENext iterable)) body))
                         (emit env (ENext iterable)))).
  intros n. auto.
Qed.

Lemma good_branch (then_ else_ : M) :
  good then_ -> good else_ -> good (branch env then_ else_).
Proof.
  intros Ht He. unfold branch.
  apply (good_choice bool (fun trace => truth env (length trace))
           (fun b => seq (emit env ETruth) (if b then then_ else else_))).
  intros []; auto.
Qed.

Lemma good_store (target : expr) : good (store env target).
Proof.
  induction target as [target IH] using expr_children_ind.
  destruct target; try exact good_ret; simpl in IH.
  - rewrite (proj1 (store_elts env elts)). auto using good_in_order.
  - rewrite (proj2 (store_elts env elts)). auto using good_in_order.
Qed.

Lemma good_eval (e : expr) : good (eval env e).
Proof.
  induction e as [e IH] using expr_children_ind.
  destruct e; simpl in IH; simpl eval;
    repeat match goal with
           | H : Forall _ (_ :: _) |- _ => apply Forall_cons_1 in H as [? H]
           | H : Forall _ (_ ++ _) |- _ => apply Forall_app in H as [? ?]
           end;
    auto 10 using good_in_order, good_iterate, good_branch, good_store.
Qed.

Lemma good_assign (target : expr) : good (assign env target).
Proof.
  destruct target; try apply good_store; simpl; auto 10 using good_eval.
Qed.

Lemma good_exec_all (body : list stmt) :
  Forall (fun s => good (exec env s)) body -> good (exec_all env body).
Proof.
  induction 1 as [|s body Hs _ IH]; [exact good_ret|].
  rewrite exec_all_cons. auto.
Qed.

Lemma good_exec (s : stmt) : plain s = true -> good (exec env s).
Proof.
  induction s as [s IH] using stmt_blocks_ind. intros Hplain.
  destruct s; simpl in IH, Hplain; try discriminate;
    try (simpl exec; auto 10 using good_eval, good_assign; fail).
  - rewrite exec_For. apply good_seq; [apply good_eval|].
    apply good_iterate, good_seq; [apply good_store|].
    apply good_exec_all. rewrite Forall_forall in IH |- *. intros s Hs.
    apply IH; [assumption|]. rewrite forallb_forall in Hplain.
    apply Hplain, list_elem_of_In, Hs.
  - rewrite exec_While.
    assert (Hbody : good (exec_all env body)).
    { apply good_exec_all. rewrite Forall_forall in IH |- *. intros s Hs.
      apply IH; [assumption|]. rewrite forallb_forall in Hplain.
      apply Hplain, list_elem_of_In, Hs. }
    apply (good_choice nat (fun trace => items env (length trace) "while")
             (fun n => seq (repeat_m n
                              (seq (eval env test)
                                   (seq (emit env ETruth) (exec_all env body))))
                           (seq (eval env test) (emit env ETruth)))).
    intros n. auto 10 using good_eval.
  - rewrite exec_If. apply andb_prop in Hplain as [Hb Ho].
    apply Forall_app in IH as [IHb IHo].
    apply good_seq; [apply good_eval|]. apply good_branch; apply good_exec_all.
    + rewrite Forall_forall in IHb |- *. intros s Hs.
      apply IHb; [assumption|]. rewrite forallb_forall in Hb.
      apply Hb, list_elem_of_In, Hs.
    + rewrite Forall_forall in IHo |- *. intros s Hs.
      apply IHo; [assumption|]. rewrite forallb_forall in Ho.
      apply Ho, list_elem_of_In, Hs.
Qed.

Lemma good_program (body : list stmt) :
  forallb plain body = true -> good (exec_all env body).
Proof.
  intros Hplain. apply good_exec_all, Forall_forall. intros s Hs.
  apply good_exec. rewrite forallb_forall in Hplain.
  apply Hplain, list_elem_of_In, Hs.
Qed.
End Closure.

(** *** Traces only grow *)
Section Growth.
Variable env : environment.

Lemma extends_ret : extends ret.
Proof. intros trace. reflexivity. Qed.

Lemma extends_emit (ev : event) : extends (emit env ev).
Proof.
  intros trace. unfold emit.
  destruct (throws env (length trace) ev); simpl; apply prefix_app_r; reflexivity.
Qed.

Lemma extends_seq (a b : M) : extends a -> extends b -> extends (seq a b).
Proof.
  intros Ha Hb trace. unfold seq. specialize (Ha trace).
  destruct (a trace) as [[|e] trace']; simpl in *; [|assumption].
  etrans; [exact Ha | apply Hb].
Qed.

Lemma extends_repeat (n : nat) (a : M) : extends a -> extends (repeat_m n a).
Proof.
  intros Ha. induction n; simpl; auto using extends_ret, extends_seq.
Qed.

Lemma extends_choice (X : Type) (read : list event -> X) (f : X -> M) :
  (forall x, extends (f x)) -> extends (fun trace => f (read trace) trace).
Proof. intros Hf trace. apply Hf. Qed.

Lemma extends_program (body : list stmt) :
  forallb plain body = true -> extends (exec_all env body).
Proof.
  apply (good_program env extends); auto using extends_ret, extends_emit,
    extends_seq, extends_repeat, extends_choice.
Qed.
End Growth.

(** *** Exceptions end the run *)
Section Propagation.
Variable env : environment.
Variable caught : nat -> event -> Prop.

Local Notation quiet := (Invariants.quiet env caught).
Local Notation stopped := (Invariants.stopped env caught).
Local Notation sound := (Invariants.sound env caught).

Lemma sound_ret : sound ret.
Proof. intros trace H. exact H. Qed.

Lemma sound_emit (ev : event) : sound (emit env ev).
Proof.
  intros trace H. unfold emit.
  destruct (throws env (length trace) ev) as [e|] eqn:E.
  - exists trace, ev. auto.
  - intros step ev' e' Hlook Hthrow.
    destruct (decide (step < length trace)) as [Hlt|Hge].
    + rewrite lookup_app_l in Hlook by assumption. eauto.
    + apply lookup_lt_Some in Hlook as Hlen. rewrite length_app in Hlen.
      simpl in Hlen. assert (step = length trace) as -> by lia.
      rewrite lookup_app_r, Nat.sub_diag in Hlook by lia.
      injection Hlook as <-. congruence.
Qed.

Lemma sound_seq (a b : M) : sound a -> sound b -> sound (seq a b).
Proof.
  intros Ha Hb trace H. unfold seq. specialize (Ha trace H).
  destruct (a trace) as [[|e] trace']; [apply Hb, Ha | exact Ha].
Qed.

Lemma sound_repeat (n : nat) (a : M) : sound a -> sound (repeat_m n a).
Proof. intros Ha. induction n; simpl; auto using sound_ret, sound_seq. Qed.

Lemma sound_choice (X : Type) (read : list event -> X) (f : X -> M) :
  (forall x, sound (f x)) -> sound (fun trace => f (read trace) trace).
Proof. intros Hf trace. apply Hf. Qed.

Lemma sound_program (body : list stmt) :
  forallb plain body = true -> sound (exec_all env body).
Proof.
  apply (good_program env sound); auto using sound_ret, sound_emit, sound_seq,
    sound_repeat, sound_choice.
Qed.

Lemma sound_propagates (m : M) (trace : list event) :
  sound m -> quiet trace -> propagates env caught (m trace).
Proof.
  intros Hm Hq. specialize (Hm trace Hq). unfold propagates.
  destruct (m trace) as [[|e] trace']; simpl.
  - intros step ev e' Hlook Hthrow. left. eauto.
  - destruct Hm as (before & last & -> & Hbefore & Hlast).
    intros step ev e' Hlook Hthrow.
    destruct (decide (step < length before)) as [Hlt|Hge].
    + rewrite lookup_app_l in Hlook by assumption. left. eauto.
    + apply lookup_lt_Some in Hlook as Hlen. rewrite length_app in Hlen.
      simpl in Hlen. assert (step = length before) as -> by lia.
      rewrite lookup_app_r, Nat.sub_diag in Hlook by lia.
      injection Hlook as <-. right. rewrite length_app. simpl.
      split; [congruence | lia].
Qed.
End Propagation.

(** *** The stage check on the program text is sound for every run *)
Section Stages.
Variable env : environment.

Lemma reach_ge (ss : list nat) (n : nat) : n <= reach ss n.
Proof.
  revert n. induction ss as [|s ss IH]; intros n; simpl; [lia|].
  specialize (IH (Nat.max n (S s))). unfold reach in *. lia.
Qed.

Lemma reach_app (ss1 ss2 : list nat) (n : nat) :
  reach (ss1 ++ ss2) n = reach ss2 (reach ss1 n).
Proof. unfold reach. apply foldl_app. Qed.

Lemma entered_in_order_app (n : nat) (ss1 ss2 : list nat) :
  entered_in_order n (ss1 ++ ss2)
  = entered_in_order n ss1 && entered_in_order (reach ss1 n) ss2.
Proof.
  revert n. induction ss1 as [|s ss1 IH]; intros n; simpl; [reflexivity|].
  rewrite IH, andb_assoc. reflexivity.
Qed.

Lemma in_order_from_le (n n' : nat) (trace : list event) :
  n <= n' -> in_order_from n' trace -> in_order_from n trace.
Proof. intros Hle [H1 H2]. split; [assumption | lia]. Qed.

Lemma safe_weaken (n n' n'' : nat) (m : M) :
  safe n m n' -> n <= n'' -> n'' <= n' -> safe n m n''.
Proof.
  intros [_ H] Hlo Hhi. split; [assumption|]. intros trace Htrace.
  specialize (H trace Htrace). destruct (m trace) as [[|e] trace']; [|assumption].
  eapply in_order_from_le; eassumption.
Qed.

Lemma safe_ret (n : nat) : safe n ret n.
Proof. split; [lia|]. intros trace H. exact H. Qed.

Lemma safe_seq (n n1 n2 : nat) (a b : M) :
  safe n a n1 -> safe n1 b n2 -> safe n (seq a b) n2.
Proof.
  intros [L1 Ha] [L2 Hb]. split; [lia|]. intros trace Htrace. unfold seq.
  specialize (Ha trace Htrace). destruct (a trace) as [[|e] trace']; [|assumption].
  specialize (Hb trace' Ha). destruct (b trace') as [[|e] trace'']; [assumption|].
  eapply in_order_from_le; eassumption.
Qed.

Lemma safe_repeat (k n : nat) (a : M) : safe n a n -> safe n (repeat_m k a) n.
Proof. intros Ha. induction k; simpl; eauto using safe_ret, safe_seq. Qed.

Lemma safe_choice (X : Type) (read : list event -> X) (f : X -> M) (n n' : nat) :
  (forall x, safe n (f x) n') -> n <= n' ->
  safe n (fun trace => f (read trace) trace) n'.
Proof.
  intros Hf Hle. split; [assumption|]. intros trace Htrace.
  apply (Hf (read trace)), Htrace.
Qed.

Lemma safe_emit (n n' : nat) (ev : event) :
  check_event n ev = Some n' -> safe n (emit env ev) n'.
Proof.
  unfold check_event. intros Hcheck.
  assert (Hboth : n <= n' /\ forall trace, in_order_from n trace ->
                              in_order_from n' (trace ++ [ev])).
  { destruct (event_stage ev) as [s|] eqn:Es.
    - destruct (Nat.leb_spec s n) as [Hs|]; [|discriminate].
      injection Hcheck as <-. split; [lia|]. intros trace [H1 H2].
      unfold in_order_from, stages in *. rewrite omap_app. simpl. rewrite Es. simpl.
      rewrite entered_in_order_app, reach_app, H1. simpl.
      split; [|lia]. rewrite andb_true_r. apply Nat.leb_le. lia.
    - injection Hcheck as <-. split; [lia|]. intros trace [H1 H2].
      unfold in_order_from, stages in *. rewrite omap_app. simpl. rewrite Es. simpl.
      rewrite app_nil_r. auto. }
  destruct Hboth as [Hle Hstep]. split; [assumption|]. intros trace Htrace.
  unfold emit. destruct (throws env (length trace) ev); [|auto].
  eapply in_order_from_le; eauto.
Qed.

Lemma safe_quiet_emit (n : nat) (ev : event) :
  event_stage ev = None -> safe n (emit env ev) n.
Proof. intros H. apply safe_emit. unfold check_event. rewrite H. reflexivity. Qed.

Lemma safe_iterate (n : nat) (iterable : string) (body : M) :
  safe n body n -> safe n (iterate env iterable body) n.
Proof.
  intros Hbody. unfold iterate.
  apply (safe_choice nat (fun trace => items env (length trace) iterable)
           (fun k => seq (repeat_m k (seq (emit env (ENext iterable)) body))
                         (emit env (ENext iterable)))); [|lia].
  intros k. eapply safe_seq; [|apply safe_quiet_emit; reflexivity].
  apply safe_repeat. eapply safe_seq; [apply safe_quiet_emit; reflexivity|].
  assumption.
Qed.

Lemma safe_branch (n n1 n2 : nat) (then_ else_ : M) :
  safe n then_ n1 -> safe n else_ n2 ->
  safe n (branch env then_ else_) (Nat.min n1 n2).
Proof.
  intros Ht He. pose proof (proj1 Ht). pose proof (proj1 He). unfold branch.
  apply (safe_choice bool (fun trace => truth env (length trace))
           (fun b => seq (emit env ETruth) (if b then then_ else else_))); [|lia].
  intros b. eapply safe_seq; [apply safe_quiet_emit; reflexivity|].
  destruct b; eapply safe_weaken; eauto; lia.
Qed.

Lemma safe_try (n n1 n2 : nat) (body handler : M) :
  safe n body n1 -> safe n handler n2 ->
  safe n (try_except body handler) (Nat.min n1 n2).
Proof.
  intros [L1 Hb] [L2 Hh]. split; [lia|]. intros trace Htrace. unfold try_except.
  specialize (Hb trace Htrace). destruct (body trace) as [[|e] trace'].
  - eapply in_order_from_le; [|eassumption]. lia.
  - specialize (Hh trace' Hb). destruct (handler trace') as [[|e'] trace''];
      [|assumption].
    eapply in_order_from_le; [|eassumption]. lia.
Qed.

Lemma safe_in_order_same (n : nat) (g : expr -> M) (es : list expr) :
  Forall (fun e => safe n (g e) n) es -> safe n (in_order g es) n.
Proof.
  induction 1 as [|e es He _ IH]; [apply safe_ret|].
  rewrite in_order_cons. eauto using safe_seq.
Qed.

Lemma safe_store (n : nat) (target : expr) : safe n (store env target) n.
Proof.
  induction target as [target IH] using expr_children_ind.
  destruct target; try apply safe_ret; simpl in IH.
  - rewrite (proj1 (store_elts env elts)).
    eapply safe_seq; [apply safe_quiet_emit; reflexivity|].
    apply safe_in_order_same, IH.
  - rewrite (proj2 (store_elts env elts)).
    eapply safe_seq; [apply safe_quiet_emit; reflexivity|].
    apply safe_in_order_same, IH.
Qed.

Lemma check_in_order_none (f : nat -> expr -> option nat) (es : list expr) :
  foldl (fun acc e => acc ≫= fun n => f n e) None es = None.
Proof. induction es; simpl; auto. Qed.

Lemma check_in_order_safe (f : nat -> expr -> option nat) (g : expr -> M)
    (es : list expr) :
  Forall (fun e => forall n n', f n e = Some n' -> safe n (g e) n') es ->
  forall n n', check_in_order f n es = Some n' -> safe n (in_order g es) n'.
Proof.
  unfold check_in_order.
  induction 1 as [|e es He _ IH]; intros n n' Hcheck; simpl in Hcheck.
  - injection Hcheck as <-. apply safe_ret.
  - destruct (f n e) as [n1|] eqn:E1; simpl in Hcheck.
    + rewrite in_order_cons. eauto using safe_seq.
    + rewrite check_in_order_none in Hcheck. discriminate.
Qed.

Lemma check_expr_safe (e : expr) :
  forall n n', check_expr n e = Some n' -> safe n (eval env e) n'.
Proof.
  induction e as [e IH] using expr_children_ind.
  intros n n' Hcheck.
  destruct e; simpl in IH; simpl in Hcheck; simpl eval;
    repeat match goal with
           | H : Forall _ (_ :: _) |- _ => apply Forall_cons_1 in H as [? H]
           | H : Forall _ (_ ++ _) |- _ => apply Forall_app in H as [? ?]
           end;
    simplify_option_eq;
    eauto 10 using safe_ret, safe_seq, safe_emit, safe_quiet_emit,
      check_in_order_safe.
  - (* ListComp *)
    eapply safe_seq; [eauto|]. apply safe_iterate.
    eapply safe_seq; [apply safe_store|].
    match goal with
    | H : check_expr n' e1 = Some ?k |- _ =>
        apply (safe_weaken n' k n'); [eauto | lia | ]
    end.
    match goal with
    | H1 : forall n n', check_expr n e1 = Some n' -> _,
      H2 : check_expr n' e1 = Some _ |- _ => apply (proj1 (H1 _ _ H2))
    end.
  - (* IfExp *)
    eapply safe_seq; [eauto|]. apply safe_branch; eauto.
Qed.

Lemma check_assign_safe (target : expr) :
  forall n n', check_assign n target = Some n' -> safe n (assign env target) n'.
Proof.
  intros n n' Hcheck.
  destruct target; simpl in Hcheck; try (injection Hcheck as <-);
    try apply safe_store; simpl assign; simplify_option_eq;
    eauto 10 using safe_seq, safe_quiet_emit, check_expr_safe.
Qed.

Lemma check_all_none (body : list stmt) :
  foldl (fun acc s => acc ≫= fun n => check_stmt n s) None body = None.
Proof. induction body; simpl; auto. Qed.

Lemma check_all_safe (body : list stmt) :
  Forall (fun s => forall n n', check_stmt n s = Some n' -> safe n (exec env s) n')
         body ->
  forall n n', check_all n body = Some n' -> safe n (exec_all env body) n'.
Proof.
  unfold check_all.
  induction 1 as [|s body Hs _ IH]; intros n n' Hcheck; simpl in Hcheck.
  - injection Hcheck as <-. apply safe_ret.
  - destruct (check_stmt n s) as [n1|] eqn:E1; simpl in Hcheck.
    + rewrite exec_all_cons. eauto using safe_seq.
    + rewrite check_all_none in Hcheck. discriminate.
Qed.

Lemma check_stmt_safe (s : stmt) :
  forall n n', check_stmt n s = Some n' -> safe n (exec env s) n'.
Proof.
  induction s as [s IH] using stmt_blocks_ind.
  intros n n' Hcheck.
  destruct s; simpl in IH;
    try (simpl in Hcheck; simpl exec; simplify_option_eq;
         eauto 10 using safe_ret, safe_seq, safe_quiet_emit, check_expr_safe,
           check_assign_safe; fail).
  - (* For *)
    rewrite exec_For.
    change (check_stmt n (For target iter body))
      with (n1 ← check_expr n iter; _ ← check_all n1 body; Some n1) in Hcheck.
    destruct (check_expr n iter) as [n1|] eqn:E1; [|discriminate].
    simpl in Hcheck.
    destruct (check_all n1 body) as [n2|] eqn:E2; [|discriminate].
    injection Hcheck as <-.
    pose proof (check_all_safe body IH n1 n2 E2) as Hbody.
    eapply safe_seq; [eapply check_expr_safe; eassumption|].
    apply safe_iterate. eapply safe_seq; [apply safe_store|].
    eapply safe_weaken; [exact Hbody | lia | apply Hbody].
  - (* While *)
    rewrite exec_While.
    change (check_stmt n (While test body))
      with (n1 ← check_expr n test; _ ← check_all n1 body; Some n) in Hcheck.
    destruct (check_expr n test) as [n1|] eqn:E1; [|discriminate].
    simpl in Hcheck.
    destruct (check_all n1 body) as [n2|] eqn:E2; [|discriminate].
    injection Hcheck as <-.
    pose proof (check_all_safe body IH n1 n2 E2) as Hbody.
    pose proof (check_expr_safe test n n1 E1) as Htest.
    pose proof (proj1 Hbody). pose proof (proj1 Htest).
    apply (safe_choice nat (fun trace => items env (length trace) "while")
             (fun k => seq (repeat_m k
                              (seq (eval env test)
                                   (seq (emit env ETruth) (exec_all env body))))
                           (seq (eval env test) (emit env ETruth)))); [|lia].
    intros k. eapply safe_seq.
    + apply safe_repeat. apply (safe_weaken n n2 n); [|lia|lia].
      eapply safe_seq; [exact Htest|].
      eapply safe_seq; [apply safe_quiet_emit; reflexivity | exact Hbody].
    + apply (safe_weaken n n1 n); [|lia|lia].
      eapply safe_seq; [exact Htest | apply safe_quiet_emit; reflexivity].
  - (* If *)
    rewrite exec_If.
    change (check_stmt n (If test body orelse))
      with (n1 ← check_expr n test; n2 ← check_all n1 body;
            n3 ← check_all n1 orelse; Some (Nat.min n2 n3)) in Hcheck.
    destruct (check_expr n test) as [n1|] eqn:E1; [|discriminate].
    simpl in Hcheck.
    destruct (check_all n1 body) as [n2|] eqn:E2; [|discriminate].
    simpl in Hcheck.
    destruct (check_all n1 orelse) as [n3|] eqn:E3; [|discriminate].
    injection Hcheck as <-.
    apply Forall_app in IH as [IHb IHo].
    eapply safe_seq; [eapply check_expr_safe; eassumption|].
    apply safe_branch; eauto using check_all_safe.
  - (* Try *)
    rewrite exec_Try.
    change (check_stmt n (Try body handler))
      with (n1 ← check_all n body; n2 ← check_all n handler;
            Some (Nat.min n1 n2)) in Hcheck.
    destruct (check_all n body) as [n1|] eqn:E1; [|discriminate].
    simpl in Hcheck.
    destruct (check_all n handler) as [n2|] eqn:E2; [|discriminate].
    injection Hcheck as <-.
    apply Forall_app in IH as [IHb IHh].
    apply safe_try; eauto using check_all_safe.
Qed.

(** A program that passes the check runs its stages in order, whatever
    raises and however long the iterations are. *)
Lemma check_sound (nb : notebook) (n : nat) :
  check_all 0 (program nb) = Some n ->
  entered_in_order 0 (stages (run env nb).2) = true.
Proof.
  intros Hcheck.
  assert (Hsafe : safe 0 (exec_all env (program nb)) n).
  { apply check_all_safe; [|assumption].
    apply Forall_forall. intros s _. apply check_stmt_safe. }
  destruct Hsafe as [_ Hsafe]. unfold run.
  specialize (Hsafe [] (conj eq_refl (Nat.le_0_l _))).
  destruct (exec_all env (program nb) []) as [[|e] trace]; apply Hsafe.
Qed.
End Stages.

End PyFacts.

(** ** classification-example.ipynb: selection, extraction and labels *)
Module ClassificationFacts.
Import Np NpFacts ClassificationExample.

Lemma mask_select_true {A : Type} (xs : list A) (n : nat) :
  length xs = n -> mask_select xs (replicate n true) = xs.
Proof. intros <-. apply mask_select_all. Qed.

Lemma mask_select_false {A : Type} (xs : list A) (n : nat) :
  length xs = n -> mask_select xs (replicate n false) = [].
Proof. intros <-. apply mask_select_none. Qed.

Lemma eq_elementwise_app (c1 c2 : list string) (v : string) :
  eq_elementwise (c1 ++ c2) v = eq_elementwise c1 v ++ eq_elementwise c2 v.
Proof. unfold eq_elementwise. apply map_app. Qed.

Lemma eq_elementwise_replicate (n : nat) (s v : string) :
  eq_elementwise (replicate n s) v = replicate n (String.eqb s v).
Proof. unfold eq_elementwise. induction n; simpl; congruence. Qed.

(** With the adults listed first, entry [i] of [pooled_subjects] comes from row [i]. *)
Lemma pooled_rows_adults_first (development_dataset : Dataset) :
  adults_first development_dataset ->
  pooled_rows development_dataset
  = seq 0 (length (Child_Adult (phenotypic development_dataset))).
Proof.
  intros (a & c & Hcol). unfold pooled_rows. rewrite Hcol.
  rewrite length_app, !length_replicate, seq_app.
  rewrite !eq_elementwise_app, !eq_elementwise_replicate. simpl.
  rewrite !mask_select_app by (rewrite length_seq, length_replicate; reflexivity).
  rewrite (mask_select_true (seq 0 a)) by apply length_seq.
  rewrite (mask_select_false (seq a c)) by apply length_seq.
  rewrite (mask_select_false (seq 0 a)) by apply length_seq.
  rewrite (mask_select_true (seq a c)) by apply length_seq.
  rewrite app_nil_r. reflexivity.
Qed.

Lemma Forall2_zip_with {A B C R : Type} (f : A -> B -> C)
    (P : A -> R -> Prop) (Q : B -> R -> Prop)
    (xs : list A) (ys : list B) (rows : list R) :
  Forall2 P xs rows -> Forall2 Q ys rows ->
  Forall2 (fun z row => exists x y, P x row /\ Q y row /\ z = f x y)
          (zip_with f xs ys) rows.
Proof.
  intros HP. revert ys. induction HP as [|x r xs rows Hx _ IH]; intros ys HQ.
  - inversion HQ; subst. constructor.
  - inversion HQ as [|y r' ys' rows' Hy HQ']; subst. simpl.
    constructor; [eauto | apply IH, HQ'].
Qed.

Lemma mask_select_length_le {A : Type} (xs : list A) (mask : list bool) :
  length (mask_select xs mask) <= length xs.
Proof.
  revert mask. induction xs as [|x xs IH]; intros [|b mask]; simpl; try lia.
  specialize (IH mask). destruct b; simpl; lia.
Qed.

(** A mask selects as many items from two lists of its own length. *)
Lemma mask_select_same_length {A B : Type} (xs : list A) (ys : list B)
    (mask : list bool) :
  length xs = length mask -> length ys = length mask ->
  length (mask_select xs mask) = length (mask_select ys mask).
Proof.
  revert ys mask. induction xs as [|x xs IH]; intros [|y ys] [|b mask] Hx Hy;
    simpl in *; try discriminate; [reflexivity|].
  destruct b; simpl; erewrite IH; eauto.
Qed.

(** Which rows a mask over a column of labels keeps. *)
Lemma elem_mask_select_seq (mask : list bool) (start row : nat) :
  row ∈ mask_select (seq start (length mask)) mask
  <-> start <= row /\ mask !! (row - start) = Some true.
Proof.
  revert start. induction mask as [|b mask IH]; intros start; simpl.
  - split; [intros H; inversion H | intros [_ H]; discriminate].
  - assert (Hrest : row ∈ mask_select (seq (S start) (length mask)) mask
                    <-> S start <= row /\ mask !! (row - S start) = Some true)
      by apply IH.
    destruct (decide (row = start)) as [->|Hne].
    + rewrite Nat.sub_diag. simpl. destruct b.
      * split; [intros _; split; [lia | reflexivity] | intros _; left].
      * rewrite Hrest. split; [lia | intros [_ H]; discriminate].
    + destruct b; rewrite ?elem_of_cons, Hrest.
      * split.
        -- intros [?|[Hle Hlook]]; [contradiction|]. split; [lia|].
           replace (row - start) with (S (row - S start)) by lia. exact Hlook.
        -- intros [Hle Hlook]. right. split; [lia|].
           replace (row - start) with (S (row - S start)) in Hlook by lia.
           exact Hlook.
      * split.
        -- intros [Hle Hlook]. split; [lia|].
           replace (row - start) with (S (row - S start)) by lia. exact Hlook.
        -- intros [Hle Hlook]. split; [lia|].
           replace (row - start) with (S (row - S start)) in Hlook by lia.
           exact Hlook.
Qed.

Lemma mask_select_sublist {A : Type} (xs : list A) (mask : list bool) :
  mask_select xs mask `sublist_of` xs.
Proof.
  revert mask. induction xs as [|x xs IH]; intros [|b mask]; simpl;
    try apply sublist_nil_l.
  destruct b; [apply sublist_skip | apply sublist_cons]; apply IH.
Qed.

Lemma eq_elementwise_lookup (column : list string) (value : string) (row : nat) :
  eq_elementwise column value !! row = Some true <-> column !! row = Some value.
Proof.
  unfold eq_elementwise. rewrite list_lookup_fmap.
  destruct (column !! row) as [g|]; simpl; [|split; discriminate].
  destruct (String.eqb_spec g value) as [->|Hne]; split; try discriminate; auto.
  intros [= ->]. contradiction.
Qed.

Lemma masks_cover (column : list string) (start : nat) :
  length (mask_select (seq start (length column)) (eq_elementwise column "adult"))
  + length (mask_select (seq start (length column)) (eq_elementwise column "child"))
  <= length column
  /\ (length (mask_select (seq start (length column)) (eq_elementwise column "adult"))
      + length (mask_select (seq start (length column))
                  (eq_elementwise column "child"))
      = length column
      <-> Forall (fun g => g = "child" \/ g = "adult") column).
Proof.
  revert start. induction column as [|g column IH]; intros start.
  - simpl. split; [lia|]. split; [constructor | reflexivity].
  - destruct (IH (S start)) as [Hle Hiff]. simpl.
    destruct (String.eqb_spec g "adult") as [->|Ha];
      [|destruct (String.eqb_spec g "child") as [->|Hc]]; simpl.
    + split; [lia|]. rewrite Forall_cons, <- Hiff. split; [intros; split; [auto|lia]|].
      intros [_ H]. lia.
    + split; [lia|]. rewrite Forall_cons, <- Hiff. split; [intros; split; [auto|lia]|].
      intros [_ H]. lia.
    + split; [lia|]. rewrite Forall_cons. split; [lia|].
      intros [[?|?] _]; contradiction.
Qed.

(** [a[mask]] returns exactly when the mask is empty or as long as [a]. *)
Lemma bool_index_ok {A : Type} (xs ys : list A) (mask : list bool) :
  bool_index xs mask = Ok ys
  <-> (mask = [] \/ length xs = length mask) /\ ys = mask_select xs mask.
Proof.
  unfold bool_index.
  destruct (Nat.eqb_spec (length mask) 0) as [Hm|Hm]; simpl.
  - split.
    + intros [= <-]. split; [left; destruct mask; [reflexivity | discriminate] | reflexivity].
    + intros [_ ->]. reflexivity.
  - destruct (Nat.eqb_spec (length xs) (length mask)) as [Hlen|Hlen].
    + split; [intros [= <-]; auto | intros [_ ->]; reflexivity].
    + split; [discriminate|]. intros [[->|?] _]; [simpl in Hm; lia | contradiction].
Qed.

Lemma bool_index_raise {A : Type} (xs : list A) (mask : list bool) (e : exn) :
  bool_index xs mask = Raise e
  <-> e = IndexError /\ mask <> [] /\ length xs <> length mask.
Proof.
  unfold bool_index.
  destruct (Nat.eqb_spec (length mask) 0) as [Hm|Hm]; simpl.
  - split; [discriminate|]. intros (_ & Hne & _). destruct mask; [contradiction | discriminate].
  - destruct (Nat.eqb_spec (length xs) (length mask)) as [Hlen|Hlen].
    + split; [discriminate|]. intros (_ & _ & ?). contradiction.
    + split.
      * intros [= <-]. repeat split; [|exact Hlen]. intros ->. simpl in Hm. lia.
      * intros (-> & _). reflexivity.
Qed.

(** Cell 8 returns exactly when the phenotypic column is empty or as long as
    both lists of files, and then returns the four selections. *)
Lemma cell_8_ok (development_dataset : Dataset) (files : Files) :
  cell_8 development_dataset = Ok files <->
  let column := Child_Adult (phenotypic development_dataset) in
  (column = []
   \/ (length (func development_dataset) = length column /\
       length (confounds development_dataset) = length column)) /\
  files = {| child_func_files :=
               mask_select (func development_dataset) (eq_elementwise column "child");
             child_confound_files :=
               mask_select (confounds development_dataset)
                           (eq_elementwise column "child");
             adult_func_files :=
               mask_select (func development_dataset) (eq_elementwise column "adult");
             adult_confound_files :=
               mask_select (confounds development_dataset)
                           (eq_elementwise column "adult") |}.
Proof.
  cbv zeta. set (column := Child_Adult (phenotypic development_dataset)).
  assert (Hmask : forall value,
             eq_elementwise column value = [] <-> column = []).
  { intros value. unfold eq_elementwise. destruct column; simpl; split; congruence. }
  assert (Hlen : forall value, length (eq_elementwise column value) = length column).
  { intros value. unfold eq_elementwise. apply length_map. }
  unfold cell_8. fold column.
  destruct (bool_index (func development_dataset) (eq_elementwise column "child"))
    as [cf|e] eqn:E1; cbn [mbind result_bind].
  2:{ apply bool_index_raise in E1 as (_ & Hne & Hl). rewrite Hmask in Hne.
      rewrite Hlen in Hl. split; [discriminate|].
      intros [[?|[? _]] _]; contradiction. }
  apply bool_index_ok in E1 as [H1 ->]. rewrite Hmask, Hlen in H1.
  destruct (bool_index (confounds development_dataset)
              (eq_elementwise column "child")) as [cc|e] eqn:E2;
    cbn [mbind result_bind].
  2:{ apply bool_index_raise in E2 as (_ & Hne & Hl). rewrite Hmask in Hne.
      rewrite Hlen in Hl. split; [discriminate|].
      intros [[?|[_ ?]] _]; contradiction. }
  apply bool_index_ok in E2 as [H2 ->]. rewrite Hmask, Hlen in H2.
  assert (E3 : bool_index (func development_dataset) (eq_elementwise column "adult")
               = Ok (mask_select (func development_dataset)
                       (eq_elementwise column "adult"))).
  { apply bool_index_ok. rewrite Hmask, Hlen. auto. }
  assert (E4 : bool_index (confounds development_dataset)
                 (eq_elementwise column "adult")
               = Ok (mask_select (confounds development_dataset)
                       (eq_elementwise column "adult"))).
  { apply bool_index_ok. rewrite Hmask, Hlen. auto. }
  rewrite E3, E4. cbn [mbind result_bind].
  split.
  - intros [= <-]. split; [|reflexivity].
    destruct H1 as [?|?]; [left; assumption|].
    destruct H2 as [?|?]; [left; assumption | right; auto].
  - intros [_ ->]. reflexivity.
Qed.

Section Alignment.
Context {TimeSeries : Type}.
Variable masker_transform_one : string -> string -> TimeSeries.

(** Every entry of [pooled_subjects] is the extraction of the image and
    confounds of the row [pooled_rows] names for it. *)
Lemma pooled_subjects_rows (development_dataset : Dataset) (files : Files) :
  cell_8 development_dataset = Ok files ->
  Forall2 (fun series row => exists image confound,
             func development_dataset !! row = Some image /\
             confounds development_dataset !! row = Some confound /\
             series = masker_transform_one image confound)
          (cell_10 masker_transform_one files).2
          (pooled_rows development_dataset).
Proof.
  intros H. apply cell_8_ok in H as [Hlen ->].
  unfold cell_10, masker_transform, pooled_rows; simpl.
  destruct Hlen as [Hempty | [L1 L2]].
  - rewrite Hempty. simpl.
    destruct (func development_dataset), (confounds development_dataset);
      constructor.
  - apply Forall2_app; apply Forall2_zip_with.
    + rewrite <- L1. apply (mask_select_rows []).
    + rewrite <- L2. apply (mask_select_rows []).
    + rewrite <- L1. apply (mask_select_rows []).
    + rewrite <- L2. apply (mask_select_rows []).
Qed.
End Alignment.

(** Cell 12 passes exactly when every extracted array has shape (168, 39). *)
Lemma cell_12_ok_iff {TimeSeries : Type} (shape : TimeSeries -> nat * nat)
    (pooled_subjects : list TimeSeries) :
  cell_12 shape pooled_subjects = Ok tt
  <-> Forall (fun p => shape p = (168, 39)) pooled_subjects.
Proof.
  unfold cell_12. induction pooled_subjects as [|p rest IH]; simpl.
  - split; [constructor | reflexivity].
  - destruct (decide (shape p = (168, 39))) as [Hp|Hp]; cbn.
    + rewrite IH. split; [constructor; assumption | inversion 1; assumption].
    + split; [discriminate | inversion 1; contradiction].
Qed.

Example children_first_labels :
  cell_37 Examples.children_first = (["adult"; "child"], [1; 0])
  /\ pooled_rows Examples.children_first = [1; 0].
Proof. split; reflexivity. Qed.

Example adults_first_labels :
  cell_37 Examples.adults_then_children = (["adult"; "child"], [0; 0; 1; 1; 1])
  /\ pooled_rows Examples.adults_then_children = [0; 1; 2; 3; 4].
Proof. split; reflexivity. Qed.

(** The rows a mask on a label keeps carry that label. *)
Lemma masked_rows_label (column : list string) (value : string) (row : nat) :
  row ∈ mask_select (seq 0 (length column)) (eq_elementwise column value)
  <-> column !! row = Some value.
Proof.
  replace (length column) with (length (eq_elementwise column value))
    by (unfold eq_elementwise; apply length_map).
  rewrite elem_mask_select_seq, Nat.sub_0_r, eq_elementwise_lookup.
  split; [intros [_ H]; exact H | intros H; split; [lia | exact H]].
Qed.

End ClassificationFacts.

(** ** classification-example.ipynb: the scoring loop *)
Module ScoreFacts.
Import Np ClassificationExample.



Lemma take_ok {A : Type} (xs : list A) (idx : list nat) :
  Forall (fun i => i < length xs) idx ->
  exists ys, take xs idx = Ok ys /\ length ys = length idx.
Proof.
  unfold take. induction 1 as [|i idx Hi _ (ys & IH & Hlen)]; simpl.
  - exists []. auto.
  - destruct (lookup_lt_is_Some_2 _ _ Hi) as [x ->]. cbn. rewrite IH. cbn.
    exists (x :: ys). simpl. auto.
Qed.

Lemma take_length {A : Type} (xs ys : list A) (idx : list nat) :
  take xs idx = Ok ys -> length ys = length idx.
Proof.
  unfold take. revert ys. induction idx as [|i idx IH]; intros ys; simpl.
  - intros [= <-]. reflexivity.
  - destruct (xs !! i); cbn; [|discriminate].
    destruct (list_comp _ idx) as [ys'|]; cbn; [|discriminate].
    intros [= <-]. simpl. f_equal. apply IH. reflexivity.
Qed.




Section Loop.
Context {TimeSeries Fitted Connectome Classifier : Type}.
Variable connectivity_measure : ConnectivityMeasure TimeSeries Fitted Connectome.
Variable sklearn : Sklearn TimeSeries Connectome Classifier.
Variable pooled_subjects : list TimeSeries.
Variable classes : list nat.

Local Notation fold_ := (fold connectivity_measure sklearn pooled_subjects classes).
Local Notation fold_accuracy_ :=
  (fold_accuracy connectivity_measure sklearn pooled_subjects classes).


(** A fold that goes through appends its accuracy to [scores[kind]]. *)
Lemma fold_done (kind : string) (split : list nat * list nat)
    (scores scores' : gmap string (list pyfloat)) :
  fold_ kind split scores = Done scores' ->
  exists l score,
    scores !! kind = Some l
    /\ fold_accuracy_ kind split score
    /\ scores' = <[kind := l ++ [score]]> scores.
Proof.
  destruct split as [train test]. unfold fold.
  destruct (take pooled_subjects train) as [train_subjects|] eqn:E1;
    cbn [at_ mbind attempt_bind]; [|discriminate].
  destruct (fit_transform connectivity_measure kind train_subjects)
    as [[connectivity connectomes]|] eqn:E2; cbn [at_ mbind attempt_bind];
    [|discriminate].
  destruct (take classes train) as [train_classes|] eqn:E3;
    cbn [at_ mbind attempt_bind]; [|discriminate].
  destruct (LinearSVC_fit sklearn connectomes train_classes) as [classifier|] eqn:E4;
    cbn [at_ mbind attempt_bind]; [|discriminate].
  destruct (take pooled_subjects test) as [test_subjects|] eqn:E5;
    cbn [at_ mbind attempt_bind]; [|discriminate].
  destruct (transform connectivity_measure connectivity test_subjects)
    as [test_connectomes|] eqn:E6; cbn [at_ mbind attempt_bind]; [|discriminate].
  destruct (predict sklearn classifier test_connectomes) as [predictions|] eqn:E7;
    cbn [at_ mbind attempt_bind]; [|discriminate].
  destruct (scores !! kind) as [l|] eqn:E8; cbn [at_ mbind attempt_bind];
    [|discriminate].
  destruct (take classes test) as [test_classes|] eqn:E9;
    cbn [at_ mbind attempt_bind]; [|discriminate].
  assert (Hsome : test_classes <> []).
  { intros ->. apply take_length in E9. apply take_length in E5.
    destruct test; [|discriminate]. destruct test_subjects; [|discriminate].
    rewrite transform_empty in E6. discriminate. }
  assert (Hlen : length predictions = length test_classes).
  { rewrite (predict_samples sklearn _ _ _ E7).
    rewrite (transform_subjects connectivity_measure _ _ _ E6).
    rewrite (take_length _ _ _ E5), (take_length _ _ _ E9). reflexivity. }
  rewrite (accuracy_score_fraction sklearn _ _ Hsome (eq_sym Hlen)).
  cbn [at_ mbind attempt_bind]. intros [= <-].
  exists l, (Fin (Sk.fraction test_classes predictions)).
  split; [reflexivity|]. split; [|reflexivity].
  exists train_subjects, connectivity, connectomes, train_classes, classifier,
    test_subjects, test_connectomes, predictions, test_classes.
  simpl. repeat split; assumption.
Qed.

(** With indices into arrays of one length and an entry for the kind, a
    fold raises only inside a call of an estimator. *)
Lemma fold_failed (kind : string) (split : list nat * list nat)
    (scores : gmap string (list pyfloat)) (operation : string) (e : exn) :
  length pooled_subjects = length classes ->
  Forall (fun i => i < length pooled_subjects) split.1 ->
  Forall (fun i => i < length pooled_subjects) split.2 ->
  is_Some (scores !! kind) ->
  fold_ kind split scores = Failed operation e ->
  operation ∈ estimator_calls.
Proof.
  destruct split as [train test]. simpl. intros Hsame Htrain Htest [l Hl].
  unfold fold, estimator_calls.
  destruct (take_ok pooled_subjects train Htrain) as (train_subjects & -> & _).
  cbn [at_ mbind attempt_bind].
  destruct (fit_transform connectivity_measure kind train_subjects)
    as [[connectivity connectomes]|] eqn:E2; cbn [at_ mbind attempt_bind];
    [|intros [= <- _]; set_solver].
  destruct (take_ok classes train) as (train_classes & -> & _);
    [rewrite <- Hsame; assumption|].
  cbn [at_ mbind attempt_bind].
  destruct (LinearSVC_fit sklearn connectomes train_classes) as [classifier|] eqn:E4;
    cbn [at_ mbind attempt_bind]; [|intros [= <- _]; set_solver].
  destruct (take_ok pooled_subjects test Htest) as (test_subjects & E5 & L5).
  rewrite E5. cbn [at_ mbind attempt_bind].
  destruct (transform connectivity_measure connectivity test_subjects)
    as [test_connectomes|] eqn:E6; cbn [at_ mbind attempt_bind];
    [|intros [= <- _]; set_solver].
  destruct (predict sklearn classifier test_connectomes) as [predictions|] eqn:E7;
    cbn [at_ mbind attempt_bind]; [|intros [= <- _]; set_solver].
  rewrite Hl. cbn [at_ mbind attempt_bind].
  destruct (take_ok classes test) as (test_classes & E9 & L9);
    [rewrite <- Hsame; assumption|].
  rewrite E9. cbn [at_ mbind attempt_bind].
  assert (Hsome : test_classes <> []).
  { intros ->. destruct test; [|discriminate]. destruct test_subjects; [|discriminate].
    rewrite transform_empty in E6. discriminate. }
  assert (Hlen : length predictions = length test_classes).
  { rewrite (predict_samples sklearn _ _ _ E7).
    rewrite (transform_subjects connectivity_measure _ _ _ E6). congruence. }
  rewrite (accuracy_score_fraction sklearn _ _ Hsome (eq_sym Hlen)).
  cbn [at_ mbind attempt_bind]. discriminate.
Qed.

Local Notation inner_ kind :=
  (fun (split : list nat * list nat) (scores : gmap string (list pyfloat)) =>
     match fold_ kind split scores with
     | Done scores' => (scores', Done tt)
     | Failed operation e => (scores, Failed operation e)
     end).

(** The inner loop appends the accuracy of fold after fold to
    [scores[kind]], up to the first call that raises. *)
Lemma folds_appended (kind : string) (folds : list (list nat * list nat)) :
  length pooled_subjects = length classes ->
  Forall (fun split : list nat * list nat =>
            Forall (fun i => i < length pooled_subjects) split.1
            /\ Forall (fun i => i < length pooled_subjects) split.2) folds ->
  forall (scores : gmap string (list pyfloat)) (l : list pyfloat),
    scores !! kind = Some l ->
    exists xs,
      (for_each_kept folds (inner_ kind) scores).1 = <[kind := l ++ xs]> scores
      /\ Forall2 (fold_accuracy_ kind) (firstn (length xs) folds) xs
      /\ match (for_each_kept folds (inner_ kind) scores).2 with
         | Done _ => length xs = length folds
         | Failed operation _ =>
             operation ∈ estimator_calls /\ length xs < length folds
         end.
Proof.
  intros Hsame. induction 1 as [|split folds [Htrain Htest] _ IH]; intros scores l Hl.
  - exists []. simpl. rewrite app_nil_r, insert_id by exact Hl.
    repeat split. constructor.
  - cbn [for_each_kept].
    destruct (fold_ kind split scores) as [scores'|operation e] eqn:Hfold.
    + destruct (fold_done kind split scores scores' Hfold)
        as (l' & score & Hl' & Hscore & ->).
      rewrite Hl in Hl'. injection Hl' as <-.
      destruct (IH (<[kind := l ++ [score]]> scores) (l ++ [score]))
        as (xs & Hstate & Hxs & Hend); [apply lookup_insert_eq|].
      exists (score :: xs). rewrite Hstate, insert_insert_eq, <- app_assoc.
      split; [reflexivity|]. split; [constructor; assumption|].
      destruct (for_each_kept folds _ _).2; simpl; [lia|].
      destruct Hend; split; [assumption | lia].
    + exists []. simpl. rewrite app_nil_r, insert_id by exact Hl.
      split; [reflexivity|]. split; [constructor|].
      split; [|lia].
      eapply fold_failed; eauto.
Qed.

(** What [scores] holds while cell 39 runs: under a kind, the accuracies of
    the first folds of the splitter, in order. *)
Local Notation sound_ scores :=
  (forall kind l, scores !! kind = Some l ->
     kind ∈ kinds
     /\ (l = []
         \/ exists folds,
              cv_split sklearn pooled_subjects classes = Ok folds
              /\ Forall2 (fold_accuracy_ kind) (firstn (length l) folds) l)).


(** One turn of the outer loop. *)
Lemma kind_scored (kind : string) (scores : gmap string (list pyfloat)) :
  kind ∈ kinds -> sound_ scores ->
  let r := folds_of_kind connectivity_measure sklearn pooled_subjects classes kind
             (<[kind := []]> scores) in
  sound_ (r.1)
  /\ dom r.1 = {[kind]} ∪ dom scores
  /\ (forall other, other <> kind -> r.1 !! other = scores !! other)
  /\ match r.2 with
     | Done _ =>
         exists folds l,
           cv_split sklearn pooled_subjects classes = Ok folds
           /\ r.1 !! kind = Some l
           /\ Forall2 (fold_accuracy_ kind) folds l
     | Failed operation _ => operation ∈ estimator_calls
     end.
Proof.
  intros Hkind Hsound r. subst r. unfold folds_of_kind.
  assert (Hstart : sound_ (<[kind := []]> scores)).
  { intros k l. destruct (decide (k = kind)) as [->|Hne].
    - rewrite lookup_insert_eq. intros [= <-]. auto.
    - rewrite lookup_insert_ne by congruence. apply Hsound. }
  destruct (cv_split sklearn pooled_subjects classes) as [folds|e] eqn:Hsplit;
    cbn [at_].
  2:{ simpl. split; [exact Hstart|]. split; [apply dom_insert_L|].
      split; [intros other Hne; apply lookup_insert_ne; congruence|].
      unfold estimator_calls. set_solver. }
  destruct (cv_split_folds sklearn _ _ _ Hsplit) as (Hsame & Hfifteen & Hfolds).
  destruct (folds_appended kind folds Hsame) with
    (scores := <[kind := @nil pyfloat]> scores) (l := @nil pyfloat)
    as (xs & Hstate & Hxs & Hend).
  { eapply Forall_impl; [exact Hfolds|]. intros split (_ & ? & ?). auto. }
  { apply lookup_insert_eq. }
  simpl in Hstate. rewrite insert_insert_eq in Hstate.
  rewrite Hstate. split.
  { intros k l. destruct (decide (k = kind)) as [->|Hne].
    - rewrite lookup_insert_eq. intros [= <-]. split; [exact Hkind|]. eauto.
    - rewrite lookup_insert_ne by congruence. apply Hsound. }
  split; [apply dom_insert_L|].
  split; [intros other Hne; apply lookup_insert_ne; congruence|].
  destruct (for_each_kept folds _ _).2 as [[]|operation e].
  - exists folds, xs. split; [reflexivity|].
    split; [apply lookup_insert_eq|].
    rewrite Hend, firstn_all in Hxs. exact Hxs.
  - apply Hend.
Qed.

(** Cell 39 as a whole: what [scores] holds however the loops end, what it
    holds when they end normally, and where they can raise. *)
Lemma cell_39_outcome :
  let r := cell_39 connectivity_measure sklearn pooled_subjects classes in
  sound_ (r.1)
  /\ (r.2 = Done tt ->
      exists folds,
        cv_split sklearn pooled_subjects classes = Ok folds
        /\ dom r.1 = list_to_set kinds
        /\ forall kind, kind ∈ kinds ->
             exists l, r.1 !! kind = Some l
                       /\ Forall2 (fold_accuracy_ kind) folds l)
  /\ (forall operation e,
        r.2 = Failed operation e -> operation ∈ estimator_calls).
Proof.
  intros r. subst r. unfold cell_39, kinds. cbn [for_each_kept].
  assert (Hempty : sound_ (∅ : gmap string (list pyfloat))).
  { intros kind l H. rewrite lookup_empty in H. discriminate. }
  pose proof (kind_scored "correlation" ∅ ltac:(unfold kinds; set_solver) Hempty)
    as (S1 & D1 & O1 & E1). cbv zeta in S1, D1, O1, E1.
  destruct (folds_of_kind _ _ _ _ "correlation" _) as [s1 [[]|op e]];
    cbn [fst snd] in *.
  2:{ split; [exact S1|]. split; [discriminate|]. intros ? ? [= <- _]. exact E1. }
  pose proof (kind_scored "partial correlation" s1
                ltac:(unfold kinds; set_solver) S1) as (S2 & D2 & O2 & E2).
  cbv zeta in S2, D2, O2, E2.
  destruct (folds_of_kind _ _ _ _ "partial correlation" _) as [s2 [[]|op e]];
    cbn [fst snd] in *.
  2:{ split; [exact S2|]. split; [discriminate|]. intros ? ? [= <- _]. exact E2. }
  pose proof (kind_scored "tangent" s2 ltac:(unfold kinds; set_solver) S2)
    as (S3 & D3 & O3 & E3).
  cbv zeta in S3, D3, O3, E3.
  destruct (folds_of_kind _ _ _ _ "tangent" _) as [s3 [[]|op e]];
    cbn [fst snd] in *.
  2:{ split; [exact S3|]. split; [discriminate|]. intros ? ? [= <- _]. exact E3. }
  split; [exact S3|]. split; [|discriminate]. intros _.
  destruct E1 as (folds & l1 & Hsplit & L1 & A1).
  destruct E2 as (folds2 & l2 & Hsplit2 & L2 & A2).
  destruct E3 as (folds3 & l3 & Hsplit3 & L3 & A3).
  rewrite Hsplit in Hsplit2, Hsplit3.
  injection Hsplit2 as <-. injection Hsplit3 as <-.
  assert (K1 : s3 !! "correlation" = Some l1).
  { rewrite O3, O2 by done. exact L1. }
  assert (K2 : s3 !! "partial correlation" = Some l2).
  { rewrite O3 by done. exact L2. }
  exists folds. split; [exact Hsplit|].
  split.
  { rewrite D3, D2, D1, dom_empty_L. simpl. set_solver. }
  intros kind Hkind.
  repeat (apply elem_of_cons in Hkind as [-> | Hkind]); eauto.
  inversion Hkind.
Qed.

End Loop.

(** Ten participants, two of them adults: each fold tests on the last five,
    all children, of whom the classifier calls two adults. *)
Example ten_participants_scored :
  cell_39 Examples.pass_on Examples.first_seven
          [0; 1; 2; 3; 4; 5; 6; 7; 8; 9] [0; 0; 1; 1; 1; 1; 1; 1; 1; 1]
  = (<["tangent" := replicate 15 (Fin (3 # 5)%Q)]>
       (<["partial correlation" := replicate 15 (Fin (3 # 5)%Q)]>
          (<["correlation" := replicate 15 (Fin (3 # 5)%Q)]> ∅)),
     Done tt).
Proof. vm_compute. reflexivity. Qed.

(** Ten children: the classifier cannot be fitted and nothing is scored. *)
Example children_only_not_scored :
  cell_39 Examples.pass_on Examples.first_seven
          [0; 1; 2; 3; 4; 5; 6; 7; 8; 9] [0; 0; 0; 0; 0; 0; 0; 0; 0; 0]
  = (<["correlation" := []]> ∅, Failed "LinearSVC().fit" ValueError).
Proof. vm_compute. reflexivity. Qed.

(** More labels than subjects: the splitter raises. *)
Example lengths_differ_not_split :
  cell_39 Examples.pass_on Examples.first_seven
          [0; 1; 2; 3; 4; 5; 6; 7; 8] [0; 0; 1; 1; 1; 1; 1; 1; 1; 1]
  = (<["correlation" := []]> ∅, Failed "cv.split" ValueError).
Proof. vm_compute. reflexivity. Qed.

End ScoreFacts.

(** ** intro-to-nilearn.ipynb: the matrix the plots receive *)
Module IntroFacts.
Import NpFacts IntroToNilearn.

Lemma entry_fill_diagonal_off {Entry : Type} (a : list (list Entry)) (val : Entry)
    (i j : nat) :
  i <> j -> entry (Np.fill_diagonal a val) i j = entry a i j.
Proof.
  intros Hne. unfold entry. rewrite fill_diagonal_row.
  destruct (a !! i) as [row|]; simpl; [|reflexivity].
  apply list_lookup_insert_ne. exact Hne.
Qed.

Lemma entry_fill_diagonal_on {Entry : Type} (a : list (list Entry)) (val : Entry)
    (i : nat) :
  is_Some (entry a i i) -> entry (Np.fill_diagonal a val) i i = Some val.
Proof.
  unfold entry. rewrite fill_diagonal_row.
  destruct (a !! i) as [row|]; simpl; intros [x Hx]; [|discriminate].
  apply list_lookup_insert_eq. eapply lookup_lt_Some, Hx.
Qed.

Lemma entry_fill_diagonal_shape {Entry : Type} (a : list (list Entry)) (val : Entry)
    (i j : nat) :
  is_Some (entry (Np.fill_diagonal a val) i j) <-> is_Some (entry a i j).
Proof.
  unfold entry. rewrite fill_diagonal_row.
  destruct (a !! i) as [row|]; simpl; [|reflexivity].
  rewrite !lookup_lt_is_Some, length_insert. reflexivity.
Qed.

Example two_regions_zero_diagonal :
  run 0%Z Examples.two_regions tt {| arrays := ∅; displayed := [] |}
  = Ok (0, {| arrays := {[0 := [[0; 7]; [7; 0]]%Z]};
              displayed := [("plotting.plot_matrix", [[0; 7]; [7; 0]]%Z);
                            ("plotting.view_connectome", [[0; 7]; [7; 0]]%Z)] |}).
Proof. vm_compute. reflexivity. Qed.

Example fill_diagonal_tall :
  Np.fill_diagonal [[1; 2]; [3; 4]; [5; 6]] 0 = [[0; 2]; [3; 0]; [5; 6]].
Proof. reflexivity. Qed.

(** C10.  After cell 67 the array [correlation_matrix] names holds 0 in
    every diagonal entry and the output of [fit_transform] in every other
    entry, with the same shape; it is the array written in place, and
    [plot_matrix] and [view_connectome] both receive it, not the original. *)
Theorem plots_receive_zero_diagonal {TimeSeries Entry : Type} (zero : Entry)
    (correlation : TimeSeries -> list (list Entry))
    (roi_time_series : TimeSeries) (s0 : Session) :
  let original := correlation roi_time_series in
  exists correlation_matrix s received,
    run zero correlation roi_time_series s0 = Ok (correlation_matrix, s)
    /\ arrays s0 !! correlation_matrix = None
    /\ arrays s !! correlation_matrix = Some received
    /\ displayed s
       = displayed s0 ++ [("plotting.plot_matrix", received);
                          ("plotting.view_connectome", received)]
    /\ (forall i j, i <> j -> entry received i j = entry original i j)
    /\ (forall i, is_Some (entry original i i) -> entry received i i = Some zero)
    /\ (forall i j, is_Some (entry received i j) <-> is_Some (entry original i j)).
Proof.
  intros original.
  set (address := fresh (dom (arrays s0))).
  exists address. eexists. exists (Np.fill_diagonal original zero).
  split.
  { unfold run, cell_65, cell_67, cell_69, fit_transform, new_array, item,
      fill_diagonal, display, mbind, session_bind, mret, session_ret. cbn.
    fold address.
    rewrite lookup_total_insert_eq, insert_insert_eq, lookup_total_insert_eq.
    reflexivity. }
  simpl. split.
  { apply not_elem_of_dom. apply is_fresh. }
  split; [apply lookup_insert_eq|].
  split; [rewrite <- app_assoc; reflexivity|].
  split; [intros; apply entry_fill_diagonal_off; assumption|].
  split; [intros; apply entry_fill_diagonal_on; assumption|].
  intros. apply entry_fill_diagonal_shape.
Qed.

End IntroFacts.

(** ** The control structure of the two notebooks *)
Module ControlFacts.
Import Py Invariants PyFacts Spec.

Lemma quiet_nil (env : environment) (caught : nat -> event -> Prop) :
  quiet env caught [].
Proof. intros step ev e H. discriminate. Qed.

(** The first two cells of the first notebook, followed by any statements:
    the five ways the run can go. *)
Lemma guarded_import_cases (env : environment) (k : M) :
  seq (emit env (EMagic "%matplotlib inline"))
    (seq (try_except
            (seq (emit env (EImport "nilearn")) ret)
            (seq (emit env (EMagic "!pip install nilearn"))
                 (seq (emit env (EImport "nilearn")) ret)))
         k) []
  = match raises env 0 (EMagic "%matplotlib inline") with
    | Some e0 => (Raised e0, [EMagic "%matplotlib inline"])
    | None =>
        match raises env 1 (EImport "nilearn") with
        | None => k [EMagic "%matplotlib inline"; EImport "nilearn"]
        | Some _ =>
            match raises env 2 (EMagic "!pip install nilearn") with
            | Some e2 =>
                (Raised e2, [EMagic "%matplotlib inline"; EImport "nilearn";
                             EMagic "!pip install nilearn"])
            | None =>
                match raises env 3 (EImport "nilearn") with
                | Some e3 =>
                    (Raised e3, [EMagic "%matplotlib inline"; EImport "nilearn";
                                 EMagic "!pip install nilearn"; EImport "nilearn"])
                | None =>
                    k [EMagic "%matplotlib inline"; EImport "nilearn";
                       EMagic "!pip install nilearn"; EImport "nilearn"]
                end
            end
        end
    end.
Proof.
  unfold seq, try_except, emit, ret. simpl.
  destruct (raises env 0 (EMagic "%matplotlib inline")); [reflexivity|]. simpl.
  destruct (raises env 1 (EImport "nilearn")); [|reflexivity]. simpl.
  destruct (raises env 2 (EMagic "!pip install nilearn")); [reflexivity|]. simpl.
  destruct (raises env 3 (EImport "nilearn")); reflexivity.
Qed.

Lemma guarded_import_run (env : environment) (k : M) :
  sound env guarded_import k -> extends k ->
  let r := seq (emit env (EMagic "%matplotlib inline"))
             (seq (try_except
                     (seq (emit env (EImport "nilearn")) ret)
                     (seq (emit env (EMagic "!pip install nilearn"))
                          (seq (emit env (EImport "nilearn")) ret)))
                  k) [] in
  propagates env guarded_import r /\
  (forall exception,
     raises env 0 (EMagic "%matplotlib inline") = None ->
     raises env 1 (EImport "nilearn") = Some exception ->
     exists rest,
       r.2 = [EMagic "%matplotlib inline"; EImport "nilearn";
              EMagic "!pip install nilearn"] ++ rest /\
       (raises env 2 (EMagic "!pip install nilearn") = None ->
        head rest = Some (EImport "nilearn"))).
Proof.
  intros Hsound Hext r. subst r. rewrite guarded_import_cases.
  destruct (raises env 0 (EMagic "%matplotlib inline")) as [e0|] eqn:E0.
  { split; [|discriminate].
    intros [|step] ev e Hlook Hthrow; [|discriminate]. simpl in *.
    injection Hlook as <-. simpl in Hthrow. right. split; congruence. }
  destruct (raises env 1 (EImport "nilearn")) as [e1|] eqn:E1.
  2:{ split; [|discriminate]. apply sound_propagates; [assumption|].
      intros [|[|step]] ev e Hlook Hthrow; simpl in *; try discriminate;
        injection Hlook as <-; simpl in Hthrow; congruence. }
  destruct (raises env 2 (EMagic "!pip install nilearn")) as [e2|] eqn:E2.
  { split.
    - intros [|[|[|step]]] ev e Hlook Hthrow; simpl in *; try discriminate;
        injection Hlook as <-; simpl in Hthrow.
      + congruence.
      + left. split; reflexivity.
      + right. split; congruence.
    - intros e _ _. exists []. split; [reflexivity | discriminate]. }
  destruct (raises env 3 (EImport "nilearn")) as [e3|] eqn:E3.
  { split.
    - intros [|[|[|[|step]]]] ev e Hlook Hthrow; simpl in *; try discriminate;
        injection Hlook as <-; simpl in Hthrow.
      + congruence.
      + left. split; reflexivity.
      + congruence.
      + right. split; congruence.
    - intros e _ _. exists [EImport "nilearn"]. split; reflexivity. }
  split.
  - apply sound_propagates; [assumption|].
    intros [|[|[|[|step]]]] ev e Hlook Hthrow; simpl in *; try discriminate;
      injection Hlook as <-; simpl in Hthrow; try congruence.
    split; reflexivity.
  - intros e _ _.
    destruct (Hext [EMagic "%matplotlib inline"; EImport "nilearn";
                    EMagic "!pip install nilearn"; EImport "nilearn"])
      as [tail Htail].
    rewrite Htail. exists (EImport "nilearn" :: tail). split; reflexivity.
Qed.

Example nilearn_missing_run :
  take 5 (run Examples.nilearn_missing IntroSource.notebook).2
  = [EMagic "%matplotlib inline"; EImport "nilearn"; EMagic "!pip install nilearn";
     EImport "nilearn"; EAttribute "__version__"]
  /\ (run Examples.nilearn_missing IntroSource.notebook).1 = Normal.
Proof. split; vm_compute; reflexivity. Qed.

(** C4.  The notebooks hold one handler, around the [import nilearn] of the
    first notebook; when that import raises, the handler runs the
    installation and then the import again; every other exception, raised by
    any operation of either notebook, ends the run as its outcome. *)
Theorem only_the_import_is_guarded :
  try_statements IntroSource.notebook = [import_guard]
  /\ try_statements ClassificationSource.notebook = []
  /\ (forall env exception,
        raises env 0 (EMagic "%matplotlib inline") = None ->
        raises env 1 (EImport "nilearn") = Some exception ->
        exists rest,
          (run env IntroSource.notebook).2
          = [EMagic "%matplotlib inline"; EImport "nilearn";
             EMagic "!pip install nilearn"] ++ rest /\
          (raises env 2 (EMagic "!pip install nilearn") = None ->
           head rest = Some (EImport "nilearn")))
  /\ (forall env, propagates env guarded_import (run env IntroSource.notebook))
  /\ (forall env,
        propagates env (fun _ _ => False) (run env ClassificationSource.notebook)).
Proof.
  split; [reflexivity|]. split; [reflexivity|].
  assert (Hplain : forallb plain (drop 2 (program IntroSource.notebook)) = true)
    by reflexivity.
  assert (Hintro : forall env,
    run env IntroSource.notebook
    = seq (emit env (EMagic "%matplotlib inline"))
        (seq (try_except
                (seq (emit env (EImport "nilearn")) ret)
                (seq (emit env (EMagic "!pip install nilearn"))
                     (seq (emit env (EImport "nilearn")) ret)))
             (exec_all env (drop 2 (program IntroSource.notebook)))) [])
    by reflexivity.
  split; [|split].
  - intros env e. rewrite Hintro.
    apply (guarded_import_run env); [apply sound_program | apply extends_program];
      exact Hplain.
  - intros env. rewrite Hintro.
    apply (guarded_import_run env); [apply sound_program | apply extends_program];
      exact Hplain.
  - intros env. unfold run. apply sound_propagates.
    + apply sound_program. reflexivity.
    + apply quiet_nil.
Qed.

(** C5 as stated fails: the first notebook has a handler of its own. *)
Lemma intro_handles_import_error : ~ library_calls_only IntroSource.notebook.
Proof. intros (_ & _ & _ & Htry & _). discriminate Htry. Qed.

(** C5, amended.  The notebooks define no function, class or lambda and
    have no [if], [while], conditional expression or [raise]; the error
    handling of their own is the one [try]/[except] around [import nilearn]
    in the first notebook and the one [assert] on the shape of every
    extracted time series in the second. *)
Theorem error_handling_inventory :
  definitions IntroSource.notebook = []
  /\ definitions ClassificationSource.notebook = []
  /\ lambdas IntroSource.notebook = []
  /\ lambdas ClassificationSource.notebook = []
  /\ no_branching IntroSource.notebook
  /\ no_branching ClassificationSource.notebook
  /\ raise_statements IntroSource.notebook = []
  /\ raise_statements ClassificationSource.notebook = []
  /\ try_statements IntroSource.notebook = [import_guard]
  /\ try_statements ClassificationSource.notebook = []
  /\ assert_statements IntroSource.notebook = []
  /\ assert_statements ClassificationSource.notebook = [shape_assert].
Proof. unfold no_branching. repeat split; vm_compute; reflexivity. Qed.

(** C6 as stated fails: the second notebook has six [for] statements. *)
Lemma more_than_two_loops :
  ~ two_for_loops IntroSource.notebook ClassificationSource.notebook.
Proof. intros [Hfor _]. vm_compute in Hfor. discriminate Hfor. Qed.

(** C6, amended.  All loops are in the second notebook: six [for]
    statements, over the pooled subjects (the shape check), three times over
    the first matrices of a kind (the plots), over the kinds and, inside
    that one, over the folds; and three list comprehensions over the kinds.
    There is no [while] and no [if]. *)
Theorem loop_inventory :
  for_loops IntroSource.notebook = []
  /\ map iterated (for_loops ClassificationSource.notebook)
     = ["pooled_subjects"; "enumerate()"; "enumerate()"; "enumerate()";
        "kinds"; "cv.split()"]
  /\ map (fun s => map iterated (inner_loops s))
         (for_loops ClassificationSource.notebook)
     = [[]; []; []; []; ["cv.split()"]; []]
  /\ comprehensions IntroSource.notebook = []
  /\ map comprehended (comprehensions ClassificationSource.notebook)
     = ["kinds"; "kinds"; "kinds"]
  /\ while_loops IntroSource.notebook = []
  /\ while_loops ClassificationSource.notebook = []
  /\ if_statements IntroSource.notebook = []
  /\ if_statements ClassificationSource.notebook = [].
Proof. repeat split; vm_compute; reflexivity. Qed.

(** C7 as stated fails: in the tutorial's run of the first notebook the
    second [masker.transform] (cell 74) comes after [plotting.view_connectome]
    (cell 69). *)
Lemma pipeline_goes_back : ~ never_goes_back IntroSource.notebook.
Proof.
  intros H. specialize (H tutorial_run). vm_compute in H. discriminate H.
Qed.

(** C7, amended.  In every run of either notebook a pipeline stage is first
    entered only after all the earlier ones: data is fetched before the
    masker is built, the masker is built and then fitted before any
    transform, a transform is made before any connectivity is computed, and
    connectivity is computed before any matrix is visualised or classified.
    Stages are entered again later: the tutorial's run of the first notebook
    goes through transform, connectivity and visualisation twice, and that of
    the second computes connectivity again after its first plots. *)
Theorem stages_entered_in_order (env : environment) :
  entered_in_order 0 (stages (run env IntroSource.notebook).2) = true
  /\ entered_in_order 0 (stages (run env ClassificationSource.notebook).2) = true
  /\ stages (run tutorial_run IntroSource.notebook).2
     = [0; 0; 1; 2; 3; 4; 5; 5; 3; 4; 5; 5]
  /\ take 12 (stages (run tutorial_run ClassificationSource.notebook).2)
     = [0; 0; 1; 2; 3; 3; 4; 5; 5; 5; 5; 4]
  /\ Forall (fun s => s ∈ stages (run tutorial_run ClassificationSource.notebook).2)
            [0; 1; 2; 3; 4; 5].
Proof.
  split; [apply (check_sound env IntroSource.notebook 6); reflexivity|].
  split; [apply (check_sound env ClassificationSource.notebook 6); reflexivity|].
  split; [vm_compute; reflexivity|].
  split; [vm_compute; reflexivity|].
  apply (bool_decide_unpack _). vm_compute. exact I.
Qed.

End ControlFacts.

(** ** classification-example.ipynb: the two age groups *)
Module GroupFacts.
Import Np NpFacts ClassificationExample ClassificationFacts ScoreFacts.

Lemma take_elem {A : Type} (xs ys : list A) (idx : list nat) (x : A) :
  take xs idx = Ok ys -> x ∈ ys -> x ∈ xs.
Proof.
  unfold take. revert ys. induction idx as [|i idx IH]; intros ys; simpl.
  - intros [= <-] H. inversion H.
  - destruct (xs !! i) as [x'|] eqn:Hi; cbn; [|discriminate].
    destruct (list_comp _ idx) as [ys'|]; cbn; [|discriminate].
    intros [= <-] Hx. apply elem_of_cons in Hx as [->|Hx].
    + eapply list_elem_of_lookup_2, Hi.
    + eapply IH; [reflexivity | exact Hx].
Qed.

(** With the two age groups as the only labels, the classes are 0 for an
    adult and 1 for a child. *)
Lemma classes_of_age_groups (column : list string) (i : nat) :
  Forall (fun g => g = "child" \/ g = "adult") column ->
  sorted_distinct column = ["adult"; "child"] ->
  ((unique_inverse column).2 !! i = Some 0 <-> column !! i = Some "adult")
  /\ ((unique_inverse column).2 !! i = Some 1 <-> column !! i = Some "child").
Proof.
  intros Honly Hvalues. unfold unique_inverse. simpl.
  rewrite Hvalues, list_lookup_fmap.
  destruct (column !! i) as [g|] eqn:Hg; simpl; [|split; split; discriminate].
  rewrite Forall_forall in Honly.
  destruct (Honly g (list_elem_of_lookup_2 _ _ _ Hg)) as [-> | ->]; simpl;
    split; split; intros H; try reflexivity; discriminate H.
Qed.

(** Two classes that differ come from two labels that differ. *)
Lemma classes_differ (column : list string) (a b : nat) :
  a ∈ (unique_inverse column).2 -> b ∈ (unique_inverse column).2 -> a <> b ->
  exists ga gb, ga ∈ column /\ gb ∈ column /\ ga <> gb.
Proof.
  unfold unique_inverse. simpl. intros Ha Hb Hne.
  apply list_elem_of_fmap in Ha as (ga & -> & Ha).
  apply list_elem_of_fmap in Hb as (gb & -> & Hb).
  exists ga, gb. repeat split; try assumption. intros ->. contradiction.
Qed.

(** C8.  With 'child' and 'adult' both in [groups] and no other value,
    [np.unique] yields exactly the two classes adult and child, [classes]
    has one entry per participant, each 0 or 1, and the entry is 0 exactly
    for an adult and 1 exactly for a child.  And [groups] is such whenever
    the loop of cell 39 has scored a fold: the splitter takes only as many
    subjects as labels, which leaves no label other than the two, and the
    classifier is fitted only on labels of two classes. *)
Theorem two_age_groups (development_dataset : Dataset) :
  ((forall g, g ∈ groups development_dataset -> g = "child" \/ g = "adult") ->
   "child" ∈ groups development_dataset ->
   "adult" ∈ groups development_dataset ->
   (cell_37 development_dataset).1 = ["adult"; "child"]
   /\ length (cell_37 development_dataset).2 = length (groups development_dataset)
   /\ Forall (fun class => class = 0 \/ class = 1) (cell_37 development_dataset).2
   /\ forall i,
        ((cell_37 development_dataset).2 !! i = Some 0
         <-> groups development_dataset !! i = Some "adult")
        /\ ((cell_37 development_dataset).2 !! i = Some 1
            <-> groups development_dataset !! i = Some "child"))
  /\ (forall (TimeSeries Fitted Connectome Classifier : Type)
             (masker_transform_one : string -> string -> TimeSeries)
             (connectivity_measure : ConnectivityMeasure TimeSeries Fitted Connectome)
             (sklearn : Sklearn TimeSeries Connectome Classifier)
             (files : Files) (kind : string) (score : pyfloat) (l : list pyfloat),
        cell_8 development_dataset = Ok files ->
        (cell_39 connectivity_measure sklearn
                 (cell_10 masker_transform_one files).2
                 (cell_37 development_dataset).2).1 !! kind = Some (score :: l) ->
        (forall g, g ∈ groups development_dataset -> g = "child" \/ g = "adult")
        /\ "child" ∈ groups development_dataset
        /\ "adult" ∈ groups development_dataset).
Proof.
  split.
  - intros Honly Hchild Hadult.
    assert (Hall : Forall (fun g => g = "child" \/ g = "adult")
                          (groups development_dataset))
      by (apply Forall_forall; exact Honly).
    assert (Hvalues : sorted_distinct (groups development_dataset)
                      = ["adult"; "child"]).
    { rewrite sorted_distinct_age_groups by exact Hall.
      rewrite !bool_decide_eq_true_2 by assumption. reflexivity. }
    unfold cell_37. split; [exact Hvalues|].
    split; [apply unique_inverse_length|].
    split.
    + apply Forall_forall. intros class Hclass.
      unfold unique_inverse in Hclass. simpl in Hclass.
      apply list_elem_of_fmap in Hclass as (g & -> & Hg). rewrite Hvalues.
      destruct (Honly g Hg) as [-> | ->]; simpl; auto.
    + intros i. apply classes_of_age_groups; assumption.
  - intros TimeSeries Fitted Connectome Classifier masker_transform_one
      connectivity_measure sklearn files kind score l Hfiles Hscored.
    destruct (cell_39_outcome connectivity_measure sklearn
                (cell_10 masker_transform_one files).2
                (cell_37 development_dataset).2) as (Hsound & _ & _).
    destruct (Hsound kind _ Hscored) as [_ [Hnone | (folds & Hsplit & Hfolds)]];
      [discriminate|].
    destruct (cv_split_folds sklearn _ _ _ Hsplit) as (Hsame & _ & _).
    assert (Hall : Forall (fun g => g = "child" \/ g = "adult")
                          (groups development_dataset)).
    { pose proof (pooled_subjects_rows masker_transform_one _ _ Hfiles) as Hrows.
      apply Forall2_length in Hrows. rewrite Hrows in Hsame.
      unfold cell_37 in Hsame. rewrite unique_inverse_length in Hsame.
      unfold pooled_rows in Hsame. rewrite length_app in Hsame.
      apply (masks_cover _ 0). exact Hsame. }
    split; [apply Forall_forall; exact Hall|].
    simpl in Hfolds. destruct folds as [|split folds]; [inversion Hfolds|].
    apply Forall2_cons_1 in Hfolds as [Hscore _].
    destruct Hscore as (? & ? & connectomes & train_classes & classifier & ?
                        & ? & ? & ? & _ & _ & Htrain & Hfit & _).
    destruct (LinearSVC_fit_classes sklearn _ _ _ Hfit) as (_ & a & b & Ha & Hb & Hne).
    destruct (classes_differ (groups development_dataset) a b)
      as (ga & gb & Hga & Hgb & Hdiffer);
      [eapply take_elem; eassumption | eapply take_elem; eassumption | exact Hne |].
    rewrite Forall_forall in Hall.
    destruct (Hall ga Hga) as [-> | ->], (Hall gb Hgb) as [-> | ->];
      try contradiction; auto.
Qed.

(** The ten participants of the examples: two groups, and the loop scores. *)
Example ten_participants_two_groups :
  cell_37 Examples.ten_participants
  = (["adult"; "child"], [0; 0; 1; 1; 1; 1; 1; 1; 1; 1])
  /\ exists files,
       cell_8 Examples.ten_participants = Ok files
       /\ (cell_10 Examples.row_of_image files).2 = [0; 1; 2; 3; 4; 5; 6; 7; 8; 9].
Proof. split; [reflexivity|]. eexists. split; reflexivity. Qed.

(** Two children and nothing else: one class, numbered 0. *)
Example children_only_one_class :
  cell_37 {| func := []; confounds := [];
             phenotypic := {| Child_Adult := ["child"; "child"] |} |}
  = (["child"], [0; 0]).
Proof. reflexivity. Qed.

End GroupFacts.

(** ** classification-example.ipynb: selecting, checking and labelling *)
Module SelectionFacts.
Import Np NpFacts ClassificationExample ClassificationFacts.

(** A mask on a label keeps the rows with that label, in order. *)
Lemma mask_select_rows_of (pre column : list string) (value : string) :
  mask_select (seq (length pre) (length column)) (eq_elementwise column value)
  = filter (fun row => (pre ++ column) !! row = Some value)
           (seq (length pre) (length column)).
Proof.
  revert pre. induction column as [|g column IH]; intros pre; [reflexivity|].
  simpl. rewrite filter_cons.
  assert (Hhere : (pre ++ g :: column) !! length pre = Some g).
  { rewrite lookup_app_r by lia. rewrite Nat.sub_diag. reflexivity. }
  assert (Hrest : mask_select (seq (S (length pre)) (length column))
                    (eq_elementwise column value)
                  = filter (fun row => (pre ++ g :: column) !! row = Some value)
                           (seq (S (length pre)) (length column))).
  { specialize (IH (pre ++ [g])). rewrite length_app, <- app_assoc in IH.
    simpl in IH. replace (length pre + 1) with (S (length pre)) in IH by lia.
    exact IH. }
  rewrite Hrest, Hhere.
  destruct (String.eqb_spec g value) as [->|Hne].
  - rewrite decide_True by reflexivity. reflexivity.
  - rewrite decide_False by congruence. reflexivity.
Qed.

Lemma masked_rows_of (column : list string) (value : string) :
  mask_select (seq 0 (length column)) (eq_elementwise column value)
  = rows_of column value.
Proof. exact (mask_select_rows_of [] column value). Qed.

Lemma pooled_rows_of (development_dataset : Dataset) :
  pooled_rows development_dataset
  = rows_of (Child_Adult (phenotypic development_dataset)) "adult"
    ++ rows_of (Child_Adult (phenotypic development_dataset)) "child".
Proof.
  unfold pooled_rows. cbv zeta. rewrite !masked_rows_of. reflexivity.
Qed.

Lemma rows_of_label (column : list string) (value : string) (row : nat) :
  row ∈ rows_of column value <-> column !! row = Some value.
Proof.
  unfold rows_of. rewrite list_elem_of_filter, elem_of_seq.
  split; [intros [H _]; exact H|]. intros H. split; [exact H|].
  apply lookup_lt_Some in H. lia.
Qed.

(** What a boolean mask on a label selects from a list as long as the column. *)
Lemma selected_rows {A : Type} (xs : list A) (column : list string) (value : string) :
  column = [] \/ length xs = length column ->
  Forall2 (fun x row => xs !! row = Some x)
          (mask_select xs (eq_elementwise column value))
          (rows_of column value).
Proof.
  intros [-> | Hlen].
  - destruct xs; constructor.
  - rewrite <- masked_rows_of, <- Hlen. apply (mask_select_rows []).
Qed.

(** X1.  Cell 8 raises IndexError, and nothing else, exactly when the
    phenotypic column is not empty and the list of images or the list of
    confounds is not as long as it; on an empty column it selects nothing.
    When it returns, the files of each group are the images and the
    confounds of the rows with that label, in the order of the table. *)
Theorem cell_8_outcome (development_dataset : Dataset) :
  let column := Child_Adult (phenotypic development_dataset) in
  (cell_8 development_dataset = Raise IndexError
   <-> column <> []
       /\ (length (func development_dataset) <> length column
           \/ length (confounds development_dataset) <> length column))
  /\ (forall e, cell_8 development_dataset = Raise e -> e = IndexError)
  /\ (forall files, cell_8 development_dataset = Ok files ->
        Forall2 (fun image row => func development_dataset !! row = Some image)
                (child_func_files files) (rows_of column "child")
        /\ Forall2 (fun confound row =>
                      confounds development_dataset !! row = Some confound)
                   (child_confound_files files) (rows_of column "child")
        /\ Forall2 (fun image row => func development_dataset !! row = Some image)
                   (adult_func_files files) (rows_of column "adult")
        /\ Forall2 (fun confound row =>
                      confounds development_dataset !! row = Some confound)
                   (adult_confound_files files) (rows_of column "adult")).
Proof.
  intros column.
  destruct (cell_8 development_dataset) as [files|e] eqn:E.
  - apply cell_8_ok in E as [Hlen ->]. fold column in Hlen.
    split; [split; [discriminate|]|].
    { intros [Hne [H|H]]; destruct Hlen as [?|[? ?]]; contradiction. }
    split; [discriminate|]. intros files' [= <-]. simpl.
    repeat split; apply selected_rows; tauto.
  - assert (Hnot : ~ (column = []
                      \/ (length (func development_dataset) = length column /\
                          length (confounds development_dataset) = length column))).
    { intros H.
      assert (Hok : exists files, cell_8 development_dataset = Ok files).
      { eexists. apply cell_8_ok. split; [exact H | reflexivity]. }
      destruct Hok as [files Hok]. congruence. }
    assert (He : e = IndexError).
    { revert E. unfold cell_8.
      repeat match goal with
             | |- context [bool_index ?xs ?mask] =>
                 let E' := fresh "E" in
                 destruct (bool_index xs mask) eqn:E'; cbn [mbind result_bind];
                 [|apply bool_index_raise in E' as (-> & _); intros [= <-];
                   reflexivity]
             end.
      discriminate. }
    subst e. split; [split; [intros _|reflexivity]|].
    { split; [intros H; apply Hnot; left; exact H|].
      destruct (decide (length (func development_dataset) = length column));
        [|left; assumption].
      destruct (decide (length (confounds development_dataset) = length column));
        [|right; assumption].
      exfalso. apply Hnot. right. auto. }
    split; [congruence | discriminate].
Qed.

Example empty_column_selects_nothing :
  cell_8 {| func := ["sub-01_bold.nii.gz"]; confounds := [];
            phenotypic := {| Child_Adult := [] |} |}
  = Ok {| child_func_files := []; child_confound_files := [];
          adult_func_files := []; adult_confound_files := [] |}.
Proof. reflexivity. Qed.

Example missing_confounds_file :
  cell_8 {| func := ["sub-01_bold.nii.gz"; "sub-02_bold.nii.gz"];
            confounds := ["sub-01_confounds.tsv"];
            phenotypic := {| Child_Adult := ["adult"; "child"] |} |}
  = Raise IndexError.
Proof. reflexivity. Qed.

Section Pooled.
Context {TimeSeries : Type}.
Variable masker_transform_one : string -> string -> TimeSeries.

(** X2.  After cell 8 returned, [pooled_subjects] holds the extraction of
    the image and confounds of every row labelled 'adult', in table order,
    then of every row labelled 'child', in table order: exactly the
    participants with one of the two labels, each once; a participant with
    any other label is left out. *)
Theorem pooled_subjects_exactly_the_two_groups (development_dataset : Dataset)
    (files : Files) :
  cell_8 development_dataset = Ok files ->
  let column := Child_Adult (phenotypic development_dataset) in
  let rows := rows_of column "adult" ++ rows_of column "child" in
  Forall2 (fun series row => exists image confound,
             func development_dataset !! row = Some image /\
             confounds development_dataset !! row = Some confound /\
             series = masker_transform_one image confound)
          (cell_10 masker_transform_one files).2 rows
  /\ NoDup rows
  /\ forall row,
       row ∈ rows <-> column !! row = Some "adult" \/ column !! row = Some "child".
Proof.
  intros Hfiles column rows. subst rows column. rewrite <- pooled_rows_of.
  split; [apply pooled_subjects_rows, Hfiles|].
  rewrite pooled_rows_of. split.
  - apply NoDup_app. repeat split.
    + apply NoDup_filter, NoDup_seq.
    + intros row Ha Hc. apply rows_of_label in Ha. apply rows_of_label in Hc.
      congruence.
    + apply NoDup_filter, NoDup_seq.
  - intros row. rewrite elem_of_app, !rows_of_label. reflexivity.
Qed.
End Pooled.

Lemma pooled_subjects_exactly_the_two_groups_witness :
  let column := Child_Adult (phenotypic Examples.children_first) in
  let rows := rows_of column "adult" ++ rows_of column "child" in
  Forall2 (fun series row => exists image confound,
             func Examples.children_first !! row = Some image /\
             confounds Examples.children_first !! row = Some confound /\
             series = (image, confound))
          (cell_10 pair
             {| child_func_files := ["sub-01_bold.nii.gz"];
                child_confound_files := ["sub-01_confounds.tsv"];
                adult_func_files := ["sub-02_bold.nii.gz"];
                adult_confound_files := ["sub-02_confounds.tsv"] |}).2 rows
  /\ NoDup rows
  /\ forall row,
       row ∈ rows <-> column !! row = Some "adult" \/ column !! row = Some "child".
Proof.
  apply (pooled_subjects_exactly_the_two_groups pair Examples.children_first).
  reflexivity.
Defined.

Example children_first_pooled :
  exists files,
    cell_8 Examples.children_first = Ok files
    /\ (cell_10 pair files).2
       = [("sub-02_bold.nii.gz", "sub-02_confounds.tsv");
          ("sub-01_bold.nii.gz", "sub-01_confounds.tsv")].
Proof. eexists. split; reflexivity. Qed.

(** X3.  After cell 8 returned, [pooled_subjects] has as many entries as
    [classes] exactly when every label of the phenotypic column is 'child'
    or 'adult'; with any other label it is shorter. *)
Theorem pooled_as_long_as_classes {TimeSeries : Type}
    (masker_transform_one : string -> string -> TimeSeries)
    (development_dataset : Dataset) (files : Files) :
  cell_8 development_dataset = Ok files ->
  length (cell_10 masker_transform_one files).2
  <= length (cell_37 development_dataset).2
  /\ (length (cell_10 masker_transform_one files).2
      = length (cell_37 development_dataset).2
      <-> Forall (fun g => g = "child" \/ g = "adult")
                 (Child_Adult (phenotypic development_dataset))).
Proof.
  intros Hfiles.
  pose proof (pooled_subjects_rows masker_transform_one _ _ Hfiles) as Hrows.
  apply Forall2_length in Hrows. rewrite Hrows.
  unfold cell_37, groups. rewrite unique_inverse_length.
  unfold pooled_rows. rewrite length_app. apply masks_cover.
Qed.

Lemma pooled_as_long_as_classes_witness :
  length (cell_10 pair
            {| child_func_files :=
                 ["sub-03_bold.nii.gz"; "sub-04_bold.nii.gz"; "sub-05_bold.nii.gz"];
               child_confound_files :=
                 ["sub-03_confounds.tsv"; "sub-04_confounds.tsv";
                  "sub-05_confounds.tsv"];
               adult_func_files := ["sub-01_bold.nii.gz"; "sub-02_bold.nii.gz"];
               adult_confound_files :=
                 ["sub-01_confounds.tsv"; "sub-02_confounds.tsv"] |}).2
  <= length (cell_37 Examples.adults_then_children).2
  /\ (length (cell_10 pair
                {| child_func_files :=
                     ["sub-03_bold.nii.gz"; "sub-04_bold.nii.gz"; "sub-05_bold.nii.gz"];
                   child_confound_files :=
                     ["sub-03_confounds.tsv"; "sub-04_confounds.tsv";
                      "sub-05_confounds.tsv"];
                   adult_func_files := ["sub-01_bold.nii.gz"; "sub-02_bold.nii.gz"];
                   adult_confound_files :=
                     ["sub-01_confounds.tsv"; "sub-02_confounds.tsv"] |}).2
      = length (cell_37 Examples.adults_then_children).2
      <-> Forall (fun g => g = "child" \/ g = "adult")
                 (Child_Adult (phenotypic Examples.adults_then_children))).
Proof.
  apply (pooled_as_long_as_classes pair Examples.adults_then_children).
  reflexivity.
Defined.

(** X4.  The loop of cell 12 returns when every extracted array has shape
    (168, 39) and raises AssertionError otherwise; it raises nothing else and
    changes nothing. *)
Theorem cell_12_outcome {TimeSeries : Type} (shape : TimeSeries -> nat * nat)
    (pooled_subjects : list TimeSeries) :
  cell_12 shape pooled_subjects
  = if decide (Forall (fun p => shape p = (168, 39)) pooled_subjects)
    then Ok tt else Raise AssertionError.
Proof.
  unfold cell_12. induction pooled_subjects as [|p rest IH]; cbn [for_each].
  - rewrite decide_True by constructor. reflexivity.
  - destruct (decide (shape p = (168, 39))) as [Hp|Hp]; cbn [mbind result_bind].
    + rewrite IH.
      destruct (decide (Forall (fun p => shape p = (168, 39)) rest)) as [Hr|Hr].
      * rewrite decide_True by (constructor; assumption). reflexivity.
      * rewrite decide_False; [reflexivity|]. inversion 1; contradiction.
    + rewrite decide_False; [reflexivity|]. inversion 1; contradiction.
Qed.

End SelectionFacts.

(** ** classification-example.ipynb: the labels of cell 37 *)
Module LabelFacts.
Import Np NpFacts ClassificationExample MoreProps.

Lemma before_trans (a b c : string) : before a b -> before b c -> before a c.
Proof.
  unfold before. intros Hab Hbc.
  apply OrderedTypeEx.String_as_OT.cmp_lt.
  eapply OrderedTypeEx.String_as_OT.lt_trans;
    apply OrderedTypeEx.String_as_OT.cmp_lt; eassumption.
Qed.

Lemma before_irrefl (a : string) : ~ before a a.
Proof. unfold before. rewrite compare_refl. discriminate. Qed.

Lemma after_before (a b : string) : String.compare a b = Gt -> before b a.
Proof.
  unfold before. intros H. rewrite String.compare_antisym, H. reflexivity.
Qed.

Lemma insert_sorted_increasing (s : string) (us : list string) :
  StronglySorted before us -> StronglySorted before (insert_sorted s us).
Proof.
  induction 1 as [|u rest Hrest IH Hu]; simpl.
  - repeat constructor.
  - destruct (String.compare s u) eqn:E.
    + constructor; assumption.
    + constructor; [constructor; assumption|].
      constructor; [exact E|].
      eapply Forall_impl; [exact Hu|]. intros x Hx. eapply before_trans; eauto.
    + constructor; [exact IH|].
      apply Forall_forall. intros x Hx. apply insert_sorted_elem in Hx as [->|Hx].
      * apply after_before, E.
      * rewrite Forall_forall in Hu. auto.
Qed.

Lemma sorted_distinct_increasing (a : list string) :
  StronglySorted before (sorted_distinct a).
Proof.
  induction a as [|s a IH]; simpl; [constructor|].
  apply insert_sorted_increasing, IH.
Qed.

Lemma increasing_NoDup (us : list string) : StronglySorted before us -> NoDup us.
Proof.
  induction 1 as [|u rest _ IH Hu]; constructor; [|exact IH].
  intros Hin. rewrite Forall_forall in Hu. eapply before_irrefl, Hu, Hin.
Qed.

(** X5.  The values [np.unique] returns in cell 37 are the labels that occur
    in [groups], each once and in increasing order; [classes] has one entry
    per label, entry [i] is the position of [groups[i]] among the values,
    and two participants get the same class exactly when they have the same
    label. *)
Theorem classes_decode_to_groups (development_dataset : Dataset) :
  let values := (cell_37 development_dataset).1 in
  let classes := (cell_37 development_dataset).2 in
  StronglySorted before values
  /\ NoDup values
  /\ (forall g, g ∈ values <-> g ∈ groups development_dataset)
  /\ length classes = length (groups development_dataset)
  /\ (forall i g, groups development_dataset !! i = Some g ->
        exists class, classes !! i = Some class /\ values !! class = Some g)
  /\ (forall i j gi gj ci cj,
        groups development_dataset !! i = Some gi ->
        groups development_dataset !! j = Some gj ->
        classes !! i = Some ci -> classes !! j = Some cj ->
        (ci = cj <-> gi = gj)).
Proof.
  intros values classes. subst values classes. unfold cell_37.
  set (a := groups development_dataset).
  split; [apply sorted_distinct_increasing|].
  split; [apply increasing_NoDup, sorted_distinct_increasing|].
  split; [intros g; apply sorted_distinct_elem|].
  split; [apply unique_inverse_length|].
  split; [intros i g; apply unique_inverse_lookup|].
  intros i j gi gj ci cj Hi Hj Hci Hcj.
  destruct (unique_inverse_lookup a i gi Hi) as (ci' & Hci' & Hvi).
  destruct (unique_inverse_lookup a j gj Hj) as (cj' & Hcj' & Hvj).
  assert (ci' = ci) as -> by congruence. assert (cj' = cj) as -> by congruence.
  split; [intros ->; congruence|]. intros ->.
  unfold unique_inverse in Hci, Hcj. simpl in Hci, Hcj.
  rewrite list_lookup_fmap, Hi in Hci. rewrite list_lookup_fmap, Hj in Hcj.
  simpl in Hci, Hcj. congruence.
Qed.

(** X6.  With both age groups in [groups] and no other label, an adult gets
    class 0 and a child class 1. *)
Theorem adult_is_zero_child_is_one (development_dataset : Dataset) :
  (forall g, g ∈ groups development_dataset -> g = "child" \/ g = "adult") ->
  "child" ∈ groups development_dataset ->
  "adult" ∈ groups development_dataset ->
  forall i,
    (groups development_dataset !! i = Some "adult"
     -> (cell_37 development_dataset).2 !! i = Some 0)
    /\ (groups development_dataset !! i = Some "child"
        -> (cell_37 development_dataset).2 !! i = Some 1).
Proof.
  intros Honly Hchild Hadult i.
  assert (Hvalues : sorted_distinct (groups development_dataset) = ["adult"; "child"]).
  { rewrite sorted_distinct_age_groups by (apply Forall_forall; exact Honly).
    rewrite !bool_decide_eq_true_2 by assumption. reflexivity. }
  unfold cell_37, unique_inverse. simpl. rewrite Hvalues, list_lookup_fmap.
  split; intros ->; reflexivity.
Qed.

Lemma adult_is_zero_child_is_one_witness :
  (groups Examples.adults_then_children !! 2 = Some "adult"
   -> (cell_37 Examples.adults_then_children).2 !! 2 = Some 0)
  /\ (groups Examples.adults_then_children !! 2 = Some "child"
      -> (cell_37 Examples.adults_then_children).2 !! 2 = Some 1).
Proof.
  apply (adult_is_zero_child_is_one Examples.adults_then_children).
  - intros g Hg. simpl in Hg.
    repeat (apply elem_of_cons in Hg as [-> | Hg]; [auto|]).
    inversion Hg.
  - simpl. do 2 right. left.
  - simpl. left.
Defined.

Lemma sorted_distinct_replicate (n : nat) (g : string) :
  sorted_distinct (replicate (S n) g) = [g].
Proof.
  induction n as [|n IH]; [reflexivity|].
  change (sorted_distinct (replicate (S (S n)) g))
    with (insert_sorted g (sorted_distinct (replicate (S n) g))).
  rewrite IH. simpl. rewrite compare_refl. reflexivity.
Qed.

(** X7.  When every participant has the same label, whichever it is, that
    label is the only value and every class is 0: in a dataset of children
    only, 'child' is class 0, not 1. *)
Theorem one_group_is_class_zero (development_dataset : Dataset) (n : nat) (g : string) :
  groups development_dataset = replicate (S n) g ->
  cell_37 development_dataset = ([g], replicate (S n) 0).
Proof.
  intros Hgroups. unfold cell_37, unique_inverse. rewrite Hgroups.
  rewrite sorted_distinct_replicate. f_equal.
  generalize (S n). intros m. induction m as [|m IH]; [reflexivity|].
  simpl. rewrite String.eqb_refl. f_equal. exact IH.
Qed.

Lemma one_group_is_class_zero_witness :
  cell_37 {| func := ["sub-01_bold.nii.gz"; "sub-02_bold.nii.gz"];
             confounds := ["sub-01_confounds.tsv"; "sub-02_confounds.tsv"];
             phenotypic := {| Child_Adult := ["child"; "child"] |} |}
  = (["child"], replicate 2 0).
Proof.
  apply (one_group_is_class_zero
           {| func := ["sub-01_bold.nii.gz"; "sub-02_bold.nii.gz"];
              confounds := ["sub-01_confounds.tsv"; "sub-02_confounds.tsv"];
              phenotypic := {| Child_Adult := ["child"; "child"] |} |} 1 "child").
  reflexivity.
Defined.

End LabelFacts.

(** ** classification-example.ipynb: subjects and their labels *)
Module AlignmentFacts.
Import Np NpFacts ClassificationExample ClassificationFacts SelectionFacts.

Lemma rows_of_cover (column : list string) :
  Forall (fun g => g = "child" \/ g = "adult") column ->
  length (rows_of column "adult") + length (rows_of column "child") = length column.
Proof.
  intros Hall. rewrite <- !masked_rows_of. apply (masks_cover column 0), Hall.
Qed.

Lemma rows_of_adults_first (n_adults n_children : nat) :
  let column := replicate n_adults "adult" ++ replicate n_children "child" in
  rows_of column "adult" ++ rows_of column "child" = seq 0 (length column).
Proof.
  intros column.
  pose proof (pooled_rows_adults_first
                {| func := []; confounds := [];
                   phenotypic := {| Child_Adult := column |} |}) as H.
  rewrite pooled_rows_of in H. simpl in H. apply H.
  exists n_adults, n_children. reflexivity.
Qed.

Section Alignment.
Context {TimeSeries : Type}.
Variable masker_transform_one : string -> string -> TimeSeries.

(** X19.  After cell 8 returned on a table whose labels are all 'child' or
    'adult': entry [i] of [pooled_subjects] is extracted from the image and
    confounds of row [i] of the adult rows followed by the child rows, while
    entry [i] of [classes] is the class of row [i] of the table.  So the
    class at [i] names the age group of the participant whose series is at
    [i], for every [i], if and only if the table lists every adult before
    every child; the cells do not sort either of the two. *)
Theorem labels_aligned_iff_adults_first (development_dataset : Dataset)
    (files : Files) :
  cell_8 development_dataset = Ok files ->
  Forall (fun g => g = "child" \/ g = "adult")
         (Child_Adult (phenotypic development_dataset)) ->
  let column := Child_Adult (phenotypic development_dataset) in
  let rows := rows_of column "adult" ++ rows_of column "child" in
  Forall2 (fun series row => exists image confound,
             func development_dataset !! row = Some image /\
             confounds development_dataset !! row = Some confound /\
             series = masker_transform_one image confound)
          (cell_10 masker_transform_one files).2 rows
  /\ ((forall i row,
         rows !! i = Some row ->
         exists class group,
           (cell_37 development_dataset).2 !! i = Some class
           /\ (cell_37 development_dataset).1 !! class = Some group
           /\ column !! row = Some group)
      <-> adults_first development_dataset).
Proof.
  intros Hfiles Hall column rows.
  split.
  { subst rows column. rewrite <- pooled_rows_of.
    apply pooled_subjects_rows, Hfiles. }
  pose proof (rows_of_cover column Hall) as Hcover.
  split.
  - intros Haligned.
    exists (length (rows_of column "adult")), (length (rows_of column "child")).
    fold column. apply list_eq. intros i.
    destruct (column !! i) as [g|] eqn:Hg.
    + assert (Hi : i < length rows).
      { subst rows. rewrite length_app, Hcover. eapply lookup_lt_Some, Hg. }
      destruct (lookup_lt_is_Some_2 _ _ Hi) as [row Hrow].
      destruct (Haligned i row Hrow) as (class & group & Hclass & Hvalue & Hlabel).
      destruct (unique_inverse_lookup column i g Hg) as (class' & Hclass' & Hvalue').
      unfold cell_37, groups in Hclass, Hvalue. fold column in Hclass, Hvalue.
      rewrite Hclass' in Hclass. injection Hclass as <-.
      rewrite Hvalue' in Hvalue. injection Hvalue as <-.
      subst rows.
      destruct (decide (i < length (rows_of column "adult"))) as [Ha|Hc].
      * rewrite lookup_app_l in Hrow by exact Ha.
        apply list_elem_of_lookup_2, rows_of_label in Hrow.
        rewrite lookup_app_l by (rewrite length_replicate; exact Ha).
        rewrite lookup_replicate_2 by exact Ha. congruence.
      * rewrite lookup_app_r in Hrow by lia.
        apply lookup_lt_Some in Hrow as Hlt.
        apply list_elem_of_lookup_2, rows_of_label in Hrow.
        rewrite lookup_app_r by (rewrite length_replicate; lia).
        rewrite length_replicate, lookup_replicate_2 by exact Hlt. congruence.
    + symmetry. apply lookup_ge_None_2.
      rewrite length_app, !length_replicate, Hcover.
      apply lookup_ge_None_1, Hg.
  - intros (n_adults & n_children & Hcolumn) i row Hrow.
    fold column in Hcolumn. subst rows. revert Hrow.
    rewrite Hcolumn, rows_of_adults_first, <- Hcolumn.
    intros Hrow. apply lookup_seq in Hrow as [-> Hlt]. simpl.
    destruct (lookup_lt_is_Some_2 _ _ Hlt) as [group Hgroup].
    destruct (unique_inverse_lookup _ _ _ Hgroup) as (class & Hclass & Hvalue).
    exists class, group. auto.
Qed.
End Alignment.

Lemma labels_aligned_iff_adults_first_witness :
  let column := Child_Adult (phenotypic Examples.children_first) in
  let rows := rows_of column "adult" ++ rows_of column "child" in
  Forall2 (fun series row => exists image confound,
             func Examples.children_first !! row = Some image /\
             confounds Examples.children_first !! row = Some confound /\
             series = (image, confound))
          (cell_10 pair
             {| child_func_files := ["sub-01_bold.nii.gz"];
                child_confound_files := ["sub-01_confounds.tsv"];
                adult_func_files := ["sub-02_bold.nii.gz"];
                adult_confound_files := ["sub-02_confounds.tsv"] |}).2 rows
  /\ ((forall i row,
         rows !! i = Some row ->
         exists class group,
           (cell_37 Examples.children_first).2 !! i = Some class
           /\ (cell_37 Examples.children_first).1 !! class = Some group
           /\ column !! row = Some group)
      <-> adults_first Examples.children_first).
Proof.
  apply (labels_aligned_iff_adults_first pair Examples.children_first).
  - reflexivity.
  - apply List.Forall_cons; [left; reflexivity|].
    apply List.Forall_cons; [right; reflexivity|]. apply List.Forall_nil.
Defined.

(** With the child listed first, entry 0 of [pooled_subjects] is the adult
    of row 1 and entry 0 of [classes] is the class of the child of row 0. *)
Example children_first_misaligned :
  pooled_rows Examples.children_first = [1; 0]
  /\ cell_37 Examples.children_first = (["adult"; "child"], [1; 0])
  /\ ~ labels_aligned Examples.children_first
  /\ ~ adults_first Examples.children_first.
Proof.
  split; [reflexivity|]. split; [reflexivity|]. split.
  - unfold labels_aligned. simpl. intros H.
    destruct (H 0 1 eq_refl) as (class & group & Hclass & Hvalue & Hgroup).
    simpl in Hclass. injection Hclass as <-.
    simpl in Hvalue, Hgroup. congruence.
  - intros (n_adults & n_children & H). simpl in H.
    destruct n_adults as [|n_adults]; simpl in H; [|discriminate].
    destruct n_children as [|[|n_children]]; simpl in H; discriminate.
Qed.

Example adults_first_aligned :
  pooled_rows Examples.adults_then_children = [0; 1; 2; 3; 4]
  /\ cell_37 Examples.adults_then_children
     = (["adult"; "child"], [0; 0; 1; 1; 1])
  /\ adults_first Examples.adults_then_children.
Proof.
  split; [reflexivity|]. split; [reflexivity|]. exists 2, 3. reflexivity.
Qed.

End AlignmentFacts.

(** ** intro-to-nilearn.ipynb: the two matrices of cells 65 to 77 *)
Module CorrectedFacts.
Import NpFacts IntroToNilearn IntroCorrected.




Example two_matrices :
  run_both 0%Z (fun series : list (list Z) => series) (fun _ _ => [[1; 2]; [2; 1]]%Z)
           (fun _ => Ok tt)
           [[1; 7]; [7; 1]]%Z ["sub-01_bold.nii.gz"] ["sub-01_confounds.tsv"]
           {| arrays := ∅; displayed := [] |}
  = Ok ((0, 1),
        {| arrays := {[0 := [[0; 7]; [7; 0]]%Z; 1 := [[0; 2]; [2; 0]]%Z]};
           displayed := [("plotting.plot_matrix", [[0; 7]; [7; 0]]%Z);
                         ("plotting.view_connectome", [[0; 7]; [7; 0]]%Z);
                         ("plotting.plot_matrix", [[0; 2]; [2; 0]]%Z);
                         ("plotting.view_connectome", [[0; 2]; [2; 0]]%Z)] |}).
Proof. vm_compute. reflexivity. Qed.

End CorrectedFacts.

(** ** classification-example.ipynb: what the three figures show *)
Module PlotFacts.
Import ClassificationExample ClassificationPlots.

Section Plots.
Context {TimeSeries Fitted Matrix Axes : Type}.
Variable connectivity_measure : ConnectivityMeasure TimeSeries Fitted Matrix.
Variable new_axes : nat -> Axes.
Variable plot_matrix : @Plot Matrix Axes -> result unit.

(** The call of one turn of the loop. *)
Local Notation call_ template :=
  (fun item : nat * (Matrix * Axes) =>
     let '(i, (matrix, ax)) := item in
     {| matrix := matrix; axes := ax; title := format template i |}).

Lemma plot_each_turns (template : string) (items : list (nat * (Matrix * Axes)))
    (calls : list Plot) :
  let r := for_each_kept items (plot_turn plot_matrix template) calls in
  exists made,
    r.1 = calls ++ map (call_ template) made
    /\ made `prefix_of` items
    /\ (r.2 = Done tt -> made = items)
    /\ (forall operation e,
          r.2 = Failed operation e ->
          operation = "plotting.plot_matrix"
          /\ exists item, last made = Some item
                          /\ plot_matrix (call_ template item) = Raise e).
Proof.
  revert calls. induction items as [|[i [matrix ax]] items IH]; intros calls.
  - exists []. simpl. rewrite app_nil_r. split; [reflexivity|]. split; [reflexivity|].
    split; [reflexivity|]. intros operation e H. discriminate H.
  - set (plot := {| matrix := matrix; axes := ax; title := format template i |}).
    assert (Hturn : plot_turn plot_matrix template (i, (matrix, ax)) calls
                    = (calls ++ [plot],
                       at_ "plotting.plot_matrix" (plot_matrix plot)))
      by reflexivity.
    cbn [for_each_kept]. rewrite Hturn.
    destruct (plot_matrix plot) as [[]|e] eqn:Hplot; cbn [at_].
    + destruct (IH (calls ++ [plot])) as (made & Hcalls & Hprefix & Hdone & Hfailed).
      exists ((i, (matrix, ax)) :: made). rewrite Hcalls, <- app_assoc.
      split; [reflexivity|]. split; [apply prefix_cons, Hprefix|].
      split; [intros H; f_equal; auto|].
      intros operation e He. destruct (Hfailed operation e He) as (-> & item & Hlast & Hitem).
      split; [reflexivity|]. exists item. split; [|exact Hitem].
      destruct made; [discriminate | exact Hlast].
    + exists [(i, (matrix, ax))]. simpl.
      split; [reflexivity|]. split; [apply (prefix_app_r [_] [_]); reflexivity|].
      split; [discriminate|]. intros operation e' [= <- <-].
      split; [reflexivity|]. exists (i, (matrix, ax)). auto.
Qed.

Lemma enumerate_lookup {A : Type} (l : list A) (i : nat) (item : nat * A) :
  enumerate l !! i = Some item <-> exists x, l !! i = Some x /\ item = (i, x).
Proof.
  unfold enumerate. rewrite list_lookup_imap.
  destruct (l !! i) as [x|]; simpl.
  - split; [intros [= <-]; eauto | intros (x' & [= <-] & ->); reflexivity].
  - split; [discriminate | intros (x' & H & _); discriminate].
Qed.

Lemma subplots_lookup (ncols i : nat) (ax : Axes) :
  subplots new_axes ncols !! i = Some ax <-> i < ncols /\ ax = new_axes i.
Proof.
  unfold subplots. rewrite list_lookup_fmap.
  destruct (decide (i < ncols)) as [Hi|Hi].
  - rewrite lookup_seq_lt by exact Hi. simpl.
    split; [intros [= <-]; auto | intros [_ ->]; reflexivity].
  - rewrite lookup_seq_ge by lia. simpl. split; [discriminate | intros [? _]; lia].
Qed.

Lemma format_inj (template : string) (i j : nat) :
  format template i = format template j -> i = j.
Proof.
  unfold format. intros Heq. apply (inj (String.app template)) in Heq.
  apply (inj pretty) in Heq. exact Heq.
Qed.

(** The loop of one figure. *)
Lemma plot_each_outcome (template : string) (matrices : list Matrix) :
  let r := plot_each plot_matrix template matrices (subplots new_axes 3) in
  length r.1 <= Nat.min (length matrices) 3
  /\ (r.2 = Done tt -> length r.1 = Nat.min (length matrices) 3)
  /\ (forall i plot,
        r.1 !! i = Some plot ->
        exists matrix,
          matrices !! i = Some matrix
          /\ plot = {| matrix := matrix; axes := new_axes i;
                       title := template +:+ pretty i |})
  /\ NoDup (map title r.1)
  /\ (forall operation e,
        r.2 = Failed operation e ->
        operation = "plotting.plot_matrix"
        /\ exists plot, last r.1 = Some plot /\ plot_matrix plot = Raise e).
Proof.
  intros r. subst r. unfold plot_each.
  destruct (plot_each_turns template
              (enumerate (zip matrices (subplots new_axes 3))) [])
    as (made & Hcalls & Hprefix & Hdone & Hfailed).
  cbv zeta in Hcalls, Hdone, Hfailed. rewrite Hcalls. simpl app.
  assert (Hitems : length (enumerate (zip matrices (subplots new_axes 3)))
                   = Nat.min (length matrices) 3).
  { unfold enumerate, subplots.
    rewrite length_imap, length_zip_with, length_map, length_seq. reflexivity. }
  assert (Hlookup : forall i plot,
             map (call_ template) made !! i = Some plot ->
             exists matrix,
               matrices !! i = Some matrix
               /\ plot = {| matrix := matrix; axes := new_axes i;
                            title := format template i |}).
  { intros i plot Hplot. rewrite list_lookup_fmap in Hplot.
    destruct (made !! i) as [item|] eqn:Hitem; [|discriminate].
    simpl in Hplot. injection Hplot as <-.
    pose proof (prefix_lookup_Some _ _ _ _ Hitem Hprefix) as Hthere.
    apply enumerate_lookup in Hthere as ([matrix ax] & Hpair & ->).
    apply lookup_zip_Some in Hpair as [Hmatrix Hax].
    apply subplots_lookup in Hax as [_ ->]. eauto. }
  split.
  { rewrite length_map, <- Hitems. apply prefix_length, Hprefix. }
  split.
  { intros H. rewrite (Hdone H), length_map. exact Hitems. }
  split; [exact Hlookup|].
  split.
  { apply NoDup_alt. intros i j t Hi Hj.
    rewrite list_lookup_fmap in Hi, Hj.
    destruct (map (call_ template) made !! i) as [p|] eqn:Hp; [|discriminate].
    destruct (map (call_ template) made !! j) as [q|] eqn:Hq; [|discriminate].
    destruct (Hlookup i p Hp) as (? & _ & ->).
    destruct (Hlookup j q Hq) as (? & _ & ->).
    simpl in Hi, Hj. injection Hi as <-. injection Hj as Hj.
    apply format_inj in Hj. congruence. }
  intros operation e He. destruct (Hfailed operation e He) as (-> & item & Hlast & Hitem).
  split; [reflexivity|]. exists (call_ template item).
  split; [|exact Hitem]. rewrite fmap_last, Hlast. reflexivity.
Qed.

(** X13.  Cells 14 to 34, for each of the three kinds.  With no child the
    estimator raises ValueError and there is no matrix to plot.  When it
    returns, there is one matrix per child, and the loop over them calls
    [plot_matrix] on the first three at most, in order: call [i] draws
    matrix [i] on axes [i] with the number [i] in its title, so no two
    titles are the same; with fewer than three children [zip] ends the loop
    early.  The loop makes all of these calls unless one of them raises, and
    raises nothing of its own. *)
Theorem figures_show_the_first_children (children : list TimeSeries) :
  Forall
    (fun '(fit, plot, template) =>
       (children = [] -> fit children = Raise ValueError)
       /\ (forall fitted (matrices : list Matrix),
             fit children = Ok (fitted, matrices) ->
             length matrices = length children
             /\ length (plot matrices).1 <= Nat.min (length children) 3
             /\ ((plot matrices).2 = Done tt ->
                 length (plot matrices).1 = Nat.min (length children) 3)
             /\ (forall i call,
                   (plot matrices).1 !! i = Some call ->
                   exists matrix,
                     matrices !! i = Some matrix
                     /\ call = {| matrix := matrix; axes := new_axes i;
                                  title := template +:+ pretty i |})
             /\ NoDup (map title (plot matrices).1)
             /\ (forall operation e,
                   (plot matrices).2 = Failed operation e ->
                   operation = "plotting.plot_matrix"
                   /\ exists call, last (plot matrices).1 = Some call
                                   /\ plot_matrix call = Raise e)))
    [(cell_14 connectivity_measure, cell_20 new_axes plot_matrix,
      "correlation, child ");
     (cell_24 connectivity_measure, cell_26 new_axes plot_matrix,
      "partial correlation, child ");
     (cell_32 connectivity_measure, cell_34 new_axes plot_matrix,
      "tangent offset, child ")].
Proof.
  unfold cell_14, cell_20, cell_24, cell_26, cell_32, cell_34.
  repeat apply List.Forall_cons; try apply List.Forall_nil;
    (split; [intros ->; apply fit_transform_empty|]);
    intros fitted matrices Hfit;
    rewrite <- (fit_transform_subjects connectivity_measure _ _ _ _ Hfit);
    (split; [reflexivity | apply plot_each_outcome]).
Qed.
End Plots.

Example two_children_two_plots :
  cell_20 (fun i => i) (fun _ => Ok tt) ["matrix of sub-03"; "matrix of sub-04"]
  = ([{| matrix := "matrix of sub-03"; axes := 0; title := "correlation, child 0" |};
      {| matrix := "matrix of sub-04"; axes := 1; title := "correlation, child 1" |}],
     Done tt).
Proof. vm_compute. reflexivity. Qed.

Example second_plot_raises :
  cell_34 (fun i => i)
          (fun plot => if Nat.eqb (axes plot) 1 then Raise ValueError else Ok tt)
          ["a"; "b"; "c"; "d"]
  = ([{| matrix := "a"; axes := 0; title := "tangent offset, child 0" |};
      {| matrix := "b"; axes := 1; title := "tangent offset, child 1" |}],
     Failed "plotting.plot_matrix" ValueError).
Proof. vm_compute. reflexivity. Qed.

End PlotFacts.

(** ** classification-example.ipynb: the means of cell 41 *)
Module MeanFacts.
Import Np ClassificationExample.

Lemma list_comp_ok {A B : Type} (f : A -> result B) (xs : list A) (ys : list B) :
  list_comp f xs = Ok ys <-> Forall2 (fun x y => f x = Ok y) xs ys.
Proof.
  revert ys. induction xs as [|x xs IH]; intros ys; simpl.
  - split.
    + intros [= <-]. constructor.
    + intros H. apply Forall2_nil_inv_l in H. congruence.
  - destruct (f x) as [y|e] eqn:Hfx; cbn.
    + destruct (list_comp f xs) as [ys'|e] eqn:Hrest; cbn.
      * split.
        -- intros [= <-]. constructor; [exact Hfx | apply IH; reflexivity].
        -- intros H. apply Forall2_cons_inv_l in H as (y' & ys'' & Hy & Hys & ->).
           apply IH in Hys. congruence.
      * split; [discriminate|].
        intros H. apply Forall2_cons_inv_l in H as (y' & ys'' & Hy & Hys & ->).
        apply IH in Hys. discriminate.
    + split; [discriminate|].
      intros H. apply Forall2_cons_inv_l in H as (y' & ys'' & Hy & Hys & ->).
      congruence.
Qed.

Lemma list_comp_raise {A B : Type} (f : A -> result B) (xs : list A) (e : exn) :
  list_comp f xs = Raise e
  <-> exists i x, xs !! i = Some x /\ f x = Raise e
                  /\ forall j x', j < i -> xs !! j = Some x' ->
                                  exists y, f x' = Ok y.
Proof.
  induction xs as [|x xs IH]; simpl.
  - split; [discriminate|]. intros (i & x & Hx & _). discriminate.
  - destruct (f x) as [y|e'] eqn:Hfx; cbn.
    + destruct (list_comp f xs) as [ys'|e'] eqn:Hrest; cbn.
      * split; [discriminate|].
        intros (i & x' & Hx' & Hraise & Hbefore). destruct i as [|i].
        -- simpl in Hx'. congruence.
        -- assert (@Ok (list B) ys' = Raise e) as Habs; [|discriminate Habs].
           apply IH. exists i, x'. split; [exact Hx'|]. split; [exact Hraise|].
           intros j x'' Hj Hx''. apply (Hbefore (S j)); [lia | exact Hx''].
      * split.
        -- intros [= ->]. apply proj1 in IH.
           destruct (IH eq_refl) as (i & x' & Hx' & Hraise & Hbefore).
           exists (S i), x'. split; [exact Hx'|]. split; [exact Hraise|].
           intros [|j] x'' Hj Hx''.
           ++ simpl in Hx''. injection Hx'' as <-. eauto.
           ++ apply (Hbefore j); [lia | exact Hx''].
        -- intros (i & x' & Hx' & Hraise & Hbefore). destruct i as [|i].
           ++ simpl in Hx'. congruence.
           ++ assert (@Raise (list B) e' = Raise e) as Heq; [|exact Heq].
              apply IH. exists i, x'. split; [exact Hx'|]. split; [exact Hraise|].
              intros j x'' Hj Hx''. apply (Hbefore (S j)); [lia | exact Hx''].
    + split.
      * intros [= ->]. exists 0, x. split; [reflexivity|]. split; [exact Hfx|].
        intros j x' Hj. lia.
      * intros (i & x' & Hx' & Hraise & Hbefore). destruct i as [|i].
        -- simpl in Hx'. injection Hx' as <-. congruence.
        -- destruct (Hbefore 0 x ltac:(lia) eq_refl) as [y Hy]. congruence.
Qed.

(** X14.  Cell 41 raises KeyError exactly when [scores] has no entry for
    one of the three kinds, and raises nothing else; otherwise it returns
    the mean of each kind's list in the order of [kinds], whatever else
    [scores] holds. *)
Theorem cell_41_outcome (scores : gmap string (list pyfloat)) :
  (cell_41 scores = Raise KeyError
   <-> exists kind, kind ∈ kinds /\ scores !! kind = None)
  /\ (forall e, cell_41 scores = Raise e -> e = KeyError)
  /\ (forall mean_scores,
        cell_41 scores = Ok mean_scores
        <-> Forall2 (fun kind mean => exists l, scores !! kind = Some l
                                                /\ mean = Np.mean l)
                    kinds mean_scores)
  /\ (forall key l, key ∉ kinds -> cell_41 (<[key := l]> scores) = cell_41 scores).
Proof.
  unfold cell_41. split; [|split; [|split]].
  - rewrite list_comp_raise. split.
    + intros (i & kind & Hkind & Hraise & _). exists kind.
      split; [eapply list_elem_of_lookup_2, Hkind|].
      destruct (scores !! kind); [discriminate | reflexivity].
    + intros (kind & Hin & Hnone).
      assert (Hfirst : exists i kind', kinds !! i = Some kind'
                         /\ scores !! kind' = None
                         /\ forall j k, j < i -> kinds !! j = Some k ->
                                        is_Some (scores !! k)).
      { assert (Hex : Exists (fun kind => scores !! kind = None) kinds)
          by (apply Exists_exists; eauto).
        clear kind Hin Hnone. revert Hex. generalize kinds. intros ks Hex.
        induction Hex as [k ks Hk | k ks _ IH].
        - exists 0, k. split; [reflexivity|]. split; [exact Hk|]. intros; lia.
        - destruct (scores !! k) eqn:Hk.
          + destruct IH as (i & k' & Hi & Hn & Hb).
            exists (S i), k'. split; [exact Hi|]. split; [exact Hn|].
            intros [|j] k'' Hj Hk''.
            * simpl in Hk''. injection Hk'' as <-. rewrite Hk. eauto.
            * apply (Hb j); [lia | exact Hk''].
          + exists 0, k. split; [reflexivity|]. split; [exact Hk|]. intros; lia. }
      destruct Hfirst as (i & kind' & Hi & Hn & Hb).
      exists i, kind'. split; [exact Hi|]. split; [rewrite Hn; reflexivity|].
      intros j k Hj Hk. destruct (Hb j k Hj Hk) as [l Hl]. rewrite Hl. eauto.
  - intros e. rewrite list_comp_raise. intros (i & kind & _ & Hraise & _).
    destruct (scores !! kind); congruence.
  - intros mean_scores. rewrite list_comp_ok. split; intros H.
    + eapply Forall2_impl; [exact H|]. intros kind mean Hk. simpl in Hk.
      destruct (scores !! kind) as [l|]; [|discriminate].
      injection Hk as <-. eauto.
    + eapply Forall2_impl; [exact H|]. intros kind mean (l & -> & ->). reflexivity.
  - intros key l Hkey. unfold kinds in *. cbn [list_comp].
    rewrite !lookup_insert_ne; [reflexivity|..];
      intros ->; apply Hkey; set_solver.
Qed.

End MeanFacts.

(** ** Runs against the text: which operations a run performs *)
Module OperationFacts.
Import Py Invariants PyFacts Operations Paths Spec.

Lemma Forall_flat {A : Type} (P : event -> Prop) (f : A -> list event)
    (xs : list A) :
  Forall P (foldr (fun x rest => f x ++ rest) [] xs)
  <-> Forall (fun x => Forall P (f x)) xs.
Proof.
  induction xs as [|x xs IH]; simpl.
  - split; constructor.
  - rewrite Forall_app, Forall_cons, IH. reflexivity.
Qed.

(** *** Properties of runs that the operations of the text preserve

    A family [good] of computations that holds every event of the kind
    [allowed] and is closed under sequencing, repetition, choices read off
    the trace and handlers holds every program whose text has only events of
    that kind. *)
Section Restricted.
Variable env : environment.
Variable allowed : event -> Prop.
Variable good : M -> Prop.
Hypothesis good_ret : good ret.
Hypothesis good_emit : forall ev, allowed ev -> good (emit env ev).
Hypothesis good_seq : forall a b, good a -> good b -> good (seq a b).
Hypothesis good_repeat : forall n a, good a -> good (repeat_m n a).
Hypothesis good_choice :
  forall (X : Type) (read : list event -> X) (f : X -> M),
    (forall x, good (f x)) -> good (fun trace => f (read trace) trace).
Hypothesis good_try : forall a b, good a -> good b -> good (try_except a b).

Lemma allowed_in_order (f : expr -> M) (g : expr -> list event) (es : list expr) :
  Forall (fun e => Forall allowed (g e) -> good (f e)) es ->
  Forall allowed (foldr (fun e rest => g e ++ rest) [] es) ->
  good (in_order f es).
Proof.
  induction 1 as [|e es He _ IH]; intros Hall; [exact good_ret|].
  simpl in Hall. apply Forall_app in Hall as [Hhere Hrest].
  rewrite in_order_cons. auto.
Qed.

Lemma allowed_iterate (iterable : string) (body : M) :
  allowed (ENext iterable) -> good body -> good (iterate env iterable body).
Proof.
  intros Hnext Hbody. unfold iterate.
  apply (good_choice nat (fun trace => items env (length trace) iterable)
           (fun n => seq (repeat_m n (seq (emit env (ENext iterable)) body))
                         (emit env (ENext iterable)))).
  intros n. auto.
Qed.

Lemma allowed_branch (then_ else_ : M) :
  allowed ETruth -> good then_ -> good else_ -> good (branch env then_ else_).
Proof.
  intros Htruth Ht He. unfold branch.
  apply (good_choice bool (fun trace => truth env (length trace))
           (fun b => seq (emit env ETruth) (if b then then_ else else_))).
  intros []; auto.
Qed.

Lemma allowed_store (target : expr) :
  Forall allowed (store_events target) -> good (store env target).
Proof.
  induction target as [target IH] using expr_children_ind.
  destruct target; try (intros _; exact good_ret); simpl in IH; simpl store_events;
    intros Hall; apply Forall_cons_1 in Hall as [Hunpack Hall].
  - rewrite (proj1 (store_elts env elts)).
    apply good_seq; [auto|]. apply (allowed_in_order _ store_events); assumption.
  - rewrite (proj2 (store_elts env elts)).
    apply good_seq; [auto|]. apply (allowed_in_order _ store_events); assumption.
Qed.

Ltac split_allowed :=
  repeat match goal with
         | H : Forall _ (_ ++ _) |- _ => apply Forall_app in H as [? ?]
         | H : Forall _ (_ :: _) |- _ => apply Forall_cons_1 in H as [? ?]
         end.

Ltac close_good :=
  repeat first
    [ exact good_ret
    | apply allowed_iterate; [assumption|]
    | apply allowed_branch; [assumption| |]
    | apply good_emit; assumption
    | apply good_seq
    | apply allowed_store; assumption
    | apply (allowed_in_order _ eval_events); assumption
    | match goal with H : _ -> good ?m |- good ?m => apply H; assumption end ].

Lemma allowed_eval (e : expr) :
  Forall allowed (eval_events e) -> good (eval env e).
Proof.
  induction e as [e IH] using expr_children_ind.
  destruct e; simpl in IH; simpl eval_events; simpl eval; intros Hall;
    split_allowed; close_good.
Qed.

Lemma allowed_assign (target : expr) :
  Forall allowed (assign_events target) -> good (assign env target).
Proof.
  destruct target; try apply allowed_store; simpl; intros Hall; split_allowed;
    repeat first [ apply good_seq | apply good_emit; assumption
                 | apply allowed_eval; assumption ].
Qed.

Lemma allowed_exec_all (body : list stmt) :
  Forall (fun s => Forall allowed (exec_events s) -> good (exec env s)) body ->
  Forall allowed (events_of body) -> good (exec_all env body).
Proof.
  induction 1 as [|s body Hs _ IH]; intros Hall; [exact good_ret|].
  simpl in Hall. apply Forall_app in Hall as [Hhere Hrest].
  rewrite exec_all_cons. auto.
Qed.

Lemma allowed_exec (s : stmt) :
  Forall allowed (exec_events s) -> good (exec env s).
Proof.
  induction s as [s IH] using stmt_blocks_ind.
  destruct s; simpl in IH; simpl exec_events; intros Hall; split_allowed;
    try (simpl exec;
         repeat first [ exact good_ret | apply good_seq
                      | apply good_emit; assumption
                      | apply allowed_eval; assumption
                      | apply allowed_assign; assumption ]; fail).
  - rewrite exec_For. apply good_seq; [apply allowed_eval; assumption|].
    apply allowed_iterate; [assumption|].
    apply good_seq; [apply allowed_store; assumption|].
    apply allowed_exec_all; assumption.
  - rewrite exec_While.
    assert (Hbody : good (exec_all env body)) by (apply allowed_exec_all; assumption).
    assert (Htest : good (eval env test)) by (apply allowed_eval; assumption).
    apply (good_choice nat (fun trace => items env (length trace) "while")
             (fun n => seq (repeat_m n
                              (seq (eval env test)
                                   (seq (emit env ETruth) (exec_all env body))))
                           (seq (eval env test) (emit env ETruth)))).
    intros n. auto 10.
  - rewrite exec_If. apply good_seq; [apply allowed_eval; assumption|].
    apply allowed_branch; [assumption| |]; apply allowed_exec_all; assumption.
  - rewrite exec_Try. apply good_try; apply allowed_exec_all; assumption.
Qed.

Lemma allowed_program (body : list stmt) :
  Forall allowed (events_of body) -> good (exec_all env body).
Proof.
  apply allowed_exec_all, Forall_forall. intros s _. apply allowed_exec.
Qed.
End Restricted.

(** *** Computations that add only events of one kind *)
Section Within.
Variable env : environment.
Variable allowed : event -> Prop.

Lemma within_ret : within allowed ret.
Proof. intros trace. exists []. rewrite app_nil_r. split; [reflexivity | constructor]. Qed.

Lemma within_emit (ev : event) : allowed ev -> within allowed (emit env ev).
Proof.
  intros Hev trace. exists [ev]. unfold emit.
  destruct (throws env (length trace) ev); simpl; split; auto.
Qed.

Lemma within_seq (a b : M) :
  within allowed a -> within allowed b -> within allowed (seq a b).
Proof.
  intros Ha Hb trace. unfold seq.
  destruct (Ha trace) as (added & Hadded & Hall).
  destruct (a trace) as [[|e] trace']; simpl in *; [|eauto].
  destruct (Hb trace') as (added' & Hadded' & Hall').
  exists (added ++ added'). rewrite Hadded', Hadded, app_assoc.
  split; [reflexivity | apply Forall_app; auto].
Qed.

Lemma within_try (a b : M) :
  within allowed a -> within allowed b -> within allowed (try_except a b).
Proof.
  intros Ha Hb trace. unfold try_except.
  destruct (Ha trace) as (added & Hadded & Hall).
  destruct (a trace) as [[|e] trace']; simpl in *; [eauto|].
  destruct (Hb trace') as (added' & Hadded' & Hall').
  exists (added ++ added'). rewrite Hadded', Hadded, app_assoc.
  split; [reflexivity | apply Forall_app; auto].
Qed.

Lemma within_repeat (n : nat) (a : M) :
  within allowed a -> within allowed (repeat_m n a).
Proof. intros Ha. induction n; simpl; auto using within_ret, within_seq. Qed.

Lemma within_choice (X : Type) (read : list event -> X) (f : X -> M) :
  (forall x, within allowed (f x)) ->
  within allowed (fun trace => f (read trace) trace).
Proof. intros Hf trace. apply Hf. Qed.

Lemma within_program (body : list stmt) :
  Forall allowed (events_of body) -> within allowed (exec_all env body).
Proof.
  apply (allowed_program env allowed (within allowed));
    auto using within_ret, within_emit, within_seq, within_repeat,
      within_choice, within_try.
Qed.
End Within.

(** A run performs only operations its text holds. *)
Lemma run_within (env : environment) (allowed : event -> bool) (nb : notebook) :
  forallb allowed (events_of (program nb)) = true ->
  Forall (fun ev => allowed ev = true) (run env nb).2.
Proof.
  intros Hall. unfold run.
  destruct (within_program env (fun ev => allowed ev = true) (program nb)) with
    (trace := @nil event) as (added & -> & Hadded).
  - apply Forall_forall. intros ev Hev. rewrite forallb_forall in Hall.
    apply Hall, list_elem_of_In, Hev.
  - exact Hadded.
Qed.

(** *** The exception of a run is that of its last operation *)
Section Last.
Variable env : environment.

Lemma last_ret : raised_by_last env ret.
Proof. intros trace e H. discriminate H. Qed.

Lemma last_emit (ev : event) : raised_by_last env (emit env ev).
Proof.
  intros trace e. unfold emit.
  destruct (throws env (length trace) ev) as [e'|] eqn:Hthrow; simpl;
    [|discriminate].
  intros [= ->]. exists trace, ev. auto.
Qed.

Lemma last_seq (a b : M) :
  raised_by_last env a -> raised_by_last env b -> raised_by_last env (seq a b).
Proof.
  intros Ha Hb trace e. unfold seq. specialize (Ha trace).
  destruct (a trace) as [[|e'] trace']; simpl in *; [apply Hb | apply Ha].
Qed.

Lemma last_try (a b : M) :
  raised_by_last env a -> raised_by_last env b ->
  raised_by_last env (try_except a b).
Proof.
  intros Ha Hb trace e. unfold try_except.
  destruct (a trace) as [[|e'] trace']; simpl; [discriminate | apply Hb].
Qed.

Lemma last_repeat (n : nat) (a : M) :
  raised_by_last env a -> raised_by_last env (repeat_m n a).
Proof. intros Ha. induction n; simpl; auto using last_ret, last_seq. Qed.

Lemma last_choice (X : Type) (read : list event -> X) (f : X -> M) :
  (forall x, raised_by_last env (f x)) ->
  raised_by_last env (fun trace => f (read trace) trace).
Proof. intros Hf trace. apply Hf. Qed.

Lemma last_program (body : list stmt) : raised_by_last env (exec_all env body).
Proof.
  apply (allowed_program env (fun _ => True) (raised_by_last env));
    auto using last_ret, last_emit, last_seq, last_repeat, last_choice, last_try.
  apply Forall_forall. auto.
Qed.
End Last.

(** *** Straight statements perform their operations in the order of the text *)
Section Play.
Variable env : environment.

Lemma seq_ext (a a' b b' : M) :
  (forall trace, a trace = a' trace) -> (forall trace, b trace = b' trace) ->
  forall trace, seq a b trace = seq a' b' trace.
Proof.
  intros Ha Hb trace. unfold seq. rewrite Ha.
  destruct (a' trace) as [[|e] trace']; [apply Hb | reflexivity].
Qed.

Lemma play_app (xs ys : list event) (trace : list event) :
  play env (xs ++ ys) trace = seq (play env xs) (play env ys) trace.
Proof.
  revert trace. induction xs as [|x xs IH]; intros trace; simpl.
  - reflexivity.
  - unfold seq at 1 2 3. destruct (emit env x trace) as [[|e] trace'];
      [apply IH | reflexivity].
Qed.

Lemma play_one (ev : event) (trace : list event) :
  play env [ev] trace = emit env ev trace.
Proof.
  simpl. unfold seq, ret. destruct (emit env ev trace) as [[|e] trace']; reflexivity.
Qed.

Lemma play_seq (a b : M) (xs ys : list event) :
  (forall trace, a trace = play env xs trace) ->
  (forall trace, b trace = play env ys trace) ->
  forall trace, seq a b trace = play env (xs ++ ys) trace.
Proof.
  intros Ha Hb trace. rewrite play_app. apply seq_ext; assumption.
Qed.

Lemma play_emit (ev : event) (trace : list event) :
  emit env ev trace = play env [ev] trace.
Proof. symmetry. apply play_one. Qed.

Lemma play_in_order (f : expr -> M) (g : expr -> list event) (es : list expr) :
  Forall (fun e => forall trace, f e trace = play env (g e) trace) es ->
  forall trace,
    in_order f es trace = play env (foldr (fun e rest => g e ++ rest) [] es) trace.
Proof.
  induction 1 as [|e es He _ IH]; [reflexivity|].
  rewrite in_order_cons. simpl foldr. apply play_seq; assumption.
Qed.

Lemma play_store (target : expr) (trace : list event) :
  store env target trace = play env (store_events target) trace.
Proof.
  revert trace. induction target as [target IH] using expr_children_ind.
  destruct target; try reflexivity; simpl in IH; simpl store_events; intros trace.
  - rewrite (proj1 (store_elts env elts)).
    apply (play_seq _ _ [_]); [apply play_emit|].
    apply (play_in_order _ store_events). exact IH.
  - rewrite (proj2 (store_elts env elts)).
    apply (play_seq _ _ [_]); [apply play_emit|].
    apply (play_in_order _ store_events). exact IH.
Qed.

Lemma Forall_straight {A : Type} (p : A -> bool) (Q : A -> Prop) (xs : list A) :
  Forall (fun x => p x = true -> Q x) xs -> forallb p xs = true -> Forall Q xs.
Proof.
  induction 1 as [|x xs Hx _ IH]; simpl; intros Hp; [constructor|].
  apply andb_prop in Hp as [Hhere Hrest]. constructor; auto.
Qed.

Ltac split_straight :=
  repeat match goal with
         | H : _ && _ = true |- _ => apply andb_prop in H as [? ?]
         | H : Forall _ (_ ++ _) |- _ => apply Forall_app in H as [? ?]
         | H : Forall _ (_ :: _) |- _ => apply Forall_cons_1 in H as [? ?]
         end.

Ltac close_play :=
  repeat first
    [ apply play_emit
    | apply play_seq
    | match goal with
      | H : _ -> forall t, ?m t = _ |- forall t, ?m t = _ => apply H; assumption
      end
    | apply (play_in_order _ eval_events);
      eapply Forall_straight; [eassumption | assumption] ].

Lemma play_eval (e : expr) :
  straight_expr e = true ->
  forall trace, eval env e trace = play env (eval_events e) trace.
Proof.
  induction e as [e IH] using expr_children_ind.
  destruct e; simpl in IH; simpl straight_expr; simpl eval_events; simpl eval;
    intros Hstraight; try discriminate; try (intros trace; reflexivity);
    split_straight; close_play.
Qed.

Lemma play_assign (target : expr) :
  straight_expr target = true ->
  forall trace, assign env target trace = play env (assign_events target) trace.
Proof.
  destruct target; try (intros _ trace; apply play_store);
    simpl; intros Hstraight; split_straight;
    repeat first [ apply play_emit | apply play_seq
                 | apply play_eval; assumption ].
Qed.

Lemma play_exec (s : stmt) :
  straight s = true ->
  forall trace, exec env s trace = play env (exec_events s) trace.
Proof.
  destruct s; simpl; intros Hstraight; try discriminate;
    try (intros trace; reflexivity); split_straight;
    repeat first [ apply play_emit | apply play_seq
                 | apply play_eval; assumption
                 | apply play_assign; assumption ].
Qed.

Lemma play_exec_all (body : list stmt) :
  forallb straight body = true ->
  forall trace, exec_all env body trace = play env (events_of body) trace.
Proof.
  induction body as [|s body IH]; simpl; intros Hstraight; [reflexivity|].
  apply andb_prop in Hstraight as [Hs Hbody].
  change (forall trace,
            seq (exec env s) (exec_all env body) trace
            = play env (exec_events s ++ events_of body) trace).
  apply play_seq; [apply play_exec; exact Hs | apply IH; exact Hbody].
Qed.

(** What playing a list does: a prefix, all of it unless an operation raises. *)
Lemma play_prefix (evs trace : list event) :
  exists done,
    (play env evs trace).2 = trace ++ done
    /\ done `prefix_of` evs
    /\ ((play env evs trace).1 = Normal -> done = evs)
    /\ (forall exception,
          (play env evs trace).1 = Raised exception ->
          exists before ev,
            done = before ++ [ev]
            /\ throws env (length (trace ++ before)) ev = Some exception).
Proof.
  revert trace. induction evs as [|ev evs IH]; intros trace; simpl.
  - exists []. rewrite app_nil_r. repeat split; [|discriminate]. reflexivity.
  - unfold seq, emit.
    destruct (throws env (length trace) ev) as [e|] eqn:Hthrow; simpl.
    + exists [ev]. split; [reflexivity|]. split; [apply (prefix_app_r [ev] [ev]); reflexivity|].
      split; [discriminate|]. intros e' [= <-]. exists [], ev.
      rewrite app_nil_r. auto.
    + destruct (IH (trace ++ [ev])) as (done & Htrace & Hprefix & Hnormal & Hraised).
      exists (ev :: done). rewrite Htrace, <- app_assoc. split; [reflexivity|].
      split; [apply prefix_cons; exact Hprefix|].
      split; [intros H; f_equal; auto|].
      intros e He. destruct (Hraised e He) as (before & ev' & -> & Hthrow').
      exists (ev :: before), ev'. rewrite <- app_assoc in Hthrow'. auto.
Qed.

Lemma play_quiet (evs trace : list event) :
  (forall i ev, evs !! i = Some ev -> throws env (length trace + i) ev = None) ->
  play env evs trace = (Normal, trace ++ evs).
Proof.
  revert trace. induction evs as [|ev evs IH]; intros trace Hquiet; simpl.
  - rewrite app_nil_r. reflexivity.
  - unfold seq, emit. rewrite <- (Nat.add_0_r (length trace)).
    rewrite (Hquiet 0 ev eq_refl). rewrite IH.
    + rewrite <- app_assoc. reflexivity.
    + intros i ev' Hev'. rewrite length_app. simpl.
      replace (length trace + 1 + i) with (length trace + S i) by lia.
      apply Hquiet. exact Hev'.
Qed.
End Play.

Lemma play_same (env env' : environment) (evs trace : list event) :
  (forall i ev, evs !! i = Some ev ->
                throws env (length trace + i) ev = throws env' (length trace + i) ev) ->
  play env evs trace = play env' evs trace.
Proof.
  revert trace. induction evs as [|ev evs IH]; intros trace Hsame; simpl.
  - reflexivity.
  - unfold seq, emit. rewrite <- (Nat.add_0_r (length trace)).
    rewrite (Hsame 0 ev eq_refl).
    destruct (throws env' (length trace + 0) ev); [reflexivity|].
    apply IH. intros i ev' Hev'. rewrite length_app. simpl.
    replace (length trace + 1 + i) with (length trace + S i) by lia.
    apply Hsame. exact Hev'.
Qed.

(** *** The two cells of the guarded import, followed by straight statements *)

Lemma throws_library (env : environment) (step : nat) (ev : event) :
  library ev = true -> throws env step ev = raises env step ev.
Proof. destruct ev; simpl; try discriminate; reflexivity. Qed.

Lemma guarded_import_play (env : environment) (rest : list event) :
  seq (emit env (EMagic "%matplotlib inline"))
    (seq (try_except
            (seq (emit env (EImport "nilearn")) ret)
            (seq (emit env (EMagic "!pip install nilearn"))
                 (seq (emit env (EImport "nilearn")) ret)))
         (play env rest)) []
  = match raises env 0 (EMagic "%matplotlib inline") with
    | Some e0 => (Raised e0, [EMagic "%matplotlib inline"])
    | None =>
        if import_failed env then
          match raises env 2 (EMagic "!pip install nilearn") with
          | Some e2 =>
              (Raised e2, [EMagic "%matplotlib inline"; EImport "nilearn";
                           EMagic "!pip install nilearn"])
          | None =>
              match raises env 3 (EImport "nilearn") with
              | Some e3 =>
                  (Raised e3, [EMagic "%matplotlib inline"; EImport "nilearn";
                               EMagic "!pip install nilearn"; EImport "nilearn"])
              | None =>
                  play env rest
                    [EMagic "%matplotlib inline"; EImport "nilearn";
                     EMagic "!pip install nilearn"; EImport "nilearn"]
              end
          end
        else play env rest [EMagic "%matplotlib inline"; EImport "nilearn"]
    end.
Proof.
  rewrite ControlFacts.guarded_import_cases. unfold import_failed.
  destruct (raises env 0 (EMagic "%matplotlib inline")); [reflexivity|].
  destruct (raises env 1 (EImport "nilearn")); reflexivity.
Qed.

Lemma intro_run_play (env : environment) :
  run env IntroSource.notebook
  = seq (emit env (EMagic "%matplotlib inline"))
      (seq (try_except
              (seq (emit env (EImport "nilearn")) ret)
              (seq (emit env (EMagic "!pip install nilearn"))
                   (seq (emit env (EImport "nilearn")) ret)))
           (play env (drop 4 (events_of (program IntroSource.notebook))))) [].
Proof.
  transitivity
    (seq (emit env (EMagic "%matplotlib inline"))
       (seq (try_except
               (seq (emit env (EImport "nilearn")) ret)
               (seq (emit env (EMagic "!pip install nilearn"))
                    (seq (emit env (EImport "nilearn")) ret)))
            (exec_all env (drop 2 (program IntroSource.notebook)))) []);
    [reflexivity|].
  apply seq_ext; [reflexivity|]. apply seq_ext; [reflexivity|].
  intros trace. rewrite play_exec_all by reflexivity. reflexivity.
Qed.

Lemma intro_operations_split (failed : bool) :
  intro_operations failed
  = (if failed
     then [EMagic "%matplotlib inline"; EImport "nilearn";
           EMagic "!pip install nilearn"; EImport "nilearn"]
     else [EMagic "%matplotlib inline"; EImport "nilearn"])
    ++ drop 4 (events_of (program IntroSource.notebook)).
Proof. destruct failed; reflexivity. Qed.

Lemma guarded_prefix (env : environment) (rest : list event) :
  let r := seq (emit env (EMagic "%matplotlib inline"))
             (seq (try_except
                     (seq (emit env (EImport "nilearn")) ret)
                     (seq (emit env (EMagic "!pip install nilearn"))
                          (seq (emit env (EImport "nilearn")) ret)))
                  (play env rest)) [] in
  let ops := (if import_failed env
              then [EMagic "%matplotlib inline"; EImport "nilearn";
                    EMagic "!pip install nilearn"; EImport "nilearn"]
              else [EMagic "%matplotlib inline"; EImport "nilearn"]) ++ rest in
  r.2 `prefix_of` ops /\ (r.1 = Normal -> r.2 = ops).
Proof.
  intros r ops. subst r ops. rewrite guarded_import_play.
  destruct (raises env 0 (EMagic "%matplotlib inline")).
  { split; [|discriminate]. destruct (import_failed env); eexists; reflexivity. }
  destruct (import_failed env).
  - destruct (raises env 2 (EMagic "!pip install nilearn")).
    { split; [|discriminate]. eexists; reflexivity. }
    destruct (raises env 3 (EImport "nilearn")).
    { split; [|discriminate]. eexists; reflexivity. }
    destruct (play_prefix env rest
                [EMagic "%matplotlib inline"; EImport "nilearn";
                 EMagic "!pip install nilearn"; EImport "nilearn"])
      as (done & -> & Hprefix & Hnormal & _).
    split; [apply prefix_app; exact Hprefix|].
    intros H. rewrite (Hnormal H). reflexivity.
  - destruct (play_prefix env rest
                [EMagic "%matplotlib inline"; EImport "nilearn"])
      as (done & -> & Hprefix & Hnormal & _).
    split; [apply prefix_app; exact Hprefix|].
    intros H. rewrite (Hnormal H). reflexivity.
Qed.

Lemma guarded_same (env env' : environment) (rest : list event) :
  Forall (fun ev => library ev = true) rest ->
  (forall step ev, raises env' step ev = raises env step ev) ->
  seq (emit env' (EMagic "%matplotlib inline"))
    (seq (try_except
            (seq (emit env' (EImport "nilearn")) ret)
            (seq (emit env' (EMagic "!pip install nilearn"))
                 (seq (emit env' (EImport "nilearn")) ret)))
         (play env' rest)) []
  = seq (emit env (EMagic "%matplotlib inline"))
      (seq (try_except
              (seq (emit env (EImport "nilearn")) ret)
              (seq (emit env (EMagic "!pip install nilearn"))
                   (seq (emit env (EImport "nilearn")) ret)))
           (play env rest)) [].
Proof.
  intros Hlibrary Hsame. rewrite !guarded_import_play. unfold import_failed.
  rewrite !Hsame.
  assert (Hplay : forall trace, play env' rest trace = play env rest trace).
  { intros trace. apply play_same. intros i ev Hev.
    rewrite Forall_forall in Hlibrary.
    rewrite !throws_library by (eapply Hlibrary, list_elem_of_lookup_2, Hev).
    apply Hsame. }
  rewrite !Hplay. reflexivity.
Qed.

Lemma guarded_quiet (env : environment) (rest : list event) :
  Forall (fun ev => library ev = true) rest ->
  (forall step ev, raises env step ev = None) ->
  seq (emit env (EMagic "%matplotlib inline"))
    (seq (try_except
            (seq (emit env (EImport "nilearn")) ret)
            (seq (emit env (EMagic "!pip install nilearn"))
                 (seq (emit env (EImport "nilearn")) ret)))
         (play env rest)) []
  = (Normal, [EMagic "%matplotlib inline"; EImport "nilearn"] ++ rest).
Proof.
  intros Hlibrary Hquiet. rewrite guarded_import_play. unfold import_failed.
  rewrite !Hquiet. apply play_quiet. intros i ev Hev.
  rewrite Forall_forall in Hlibrary.
  rewrite throws_library by (eapply Hlibrary, list_elem_of_lookup_2, Hev).
  apply Hquiet.
Qed.

Lemma no_installs (evs : list event) :
  Forall (fun ev => installs ev = false) evs -> List.filter installs evs = [].
Proof.
  induction 1 as [|ev evs Hev _ IH]; simpl; [reflexivity|]. rewrite Hev. exact IH.
Qed.

Lemma Forall_prefix {A : Type} (P : A -> Prop) (xs ys : list A) :
  xs `prefix_of` ys -> Forall P ys -> Forall P xs.
Proof. intros [k ->] H. apply Forall_app in H as [H _]. exact H. Qed.

Lemma guarded_installs (env : environment) (rest : list event) :
  Forall (fun ev => installs ev = false) rest ->
  let r := seq (emit env (EMagic "%matplotlib inline"))
             (seq (try_except
                     (seq (emit env (EImport "nilearn")) ret)
                     (seq (emit env (EMagic "!pip install nilearn"))
                          (seq (emit env (EImport "nilearn")) ret)))
                  (play env rest)) [] in
  List.filter installs r.2
  = if bool_decide (raises env 0 (EMagic "%matplotlib inline") = None)
       && import_failed env
    then [EMagic "!pip install nilearn"] else [].
Proof.
  intros Hrest r. subst r. rewrite guarded_import_play.
  destruct (raises env 0 (EMagic "%matplotlib inline")); [reflexivity|].
  rewrite bool_decide_eq_true_2 by reflexivity. simpl andb.
  destruct (import_failed env).
  - destruct (raises env 2 (EMagic "!pip install nilearn")); [reflexivity|].
    destruct (raises env 3 (EImport "nilearn")); [reflexivity|].
    destruct (play_prefix env rest
                [EMagic "%matplotlib inline"; EImport "nilearn";
                 EMagic "!pip install nilearn"; EImport "nilearn"])
      as (done & -> & Hprefix & _).
    rewrite List.filter_app, (no_installs done); [reflexivity|].
    eapply Forall_prefix; eassumption.
  - destruct (play_prefix env rest
                [EMagic "%matplotlib inline"; EImport "nilearn"])
      as (done & -> & Hprefix & _).
    rewrite List.filter_app, (no_installs done); [reflexivity|].
    eapply Forall_prefix; eassumption.
Qed.

Lemma forallb_Forall {A : Type} (p : A -> bool) (xs : list A) :
  forallb p xs = true -> Forall (fun x => p x = true) xs.
Proof.
  intros H. apply Forall_forall. intros x Hx. rewrite forallb_forall in H.
  apply H, list_elem_of_In, Hx.
Qed.

Lemma intro_rest_library :
  Forall (fun ev => library ev = true)
         (drop 4 (events_of (program IntroSource.notebook))).
Proof. apply forallb_Forall. vm_compute. reflexivity. Qed.

Lemma intro_rest_installs :
  Forall (fun ev => installs ev = false)
         (drop 4 (events_of (program IntroSource.notebook))).
Proof.
  eapply Forall_impl; [apply (forallb_Forall (fun ev => negb (installs ev)))|].
  - vm_compute. reflexivity.
  - intros ev. apply negb_true_iff.
Qed.

(** The exception a run of a notebook ends with. *)
Lemma run_exception (env : environment) (allowed : event -> bool) (nb : notebook)
    (exception : string) :
  forallb allowed (events_of (program nb)) = true ->
  (run env nb).1 = Raised exception ->
  exists before ev,
    (run env nb).2 = before ++ [ev]
    /\ allowed ev = true
    /\ throws env (length before) ev = Some exception.
Proof.
  intros Hallowed Hraised.
  destruct (last_program env (program nb) [] exception Hraised)
    as (before & ev & Htrace & Hthrow).
  exists before, ev. split; [exact Htrace|]. split; [|exact Hthrow].
  pose proof (run_within env allowed nb Hallowed) as Hall.
  unfold run in Hall. rewrite Htrace in Hall.
  apply Forall_app in Hall as [_ Hall]. apply Forall_cons_1 in Hall as [Hev _].
  exact Hev.
Qed.

(** X15.  The first notebook has one path.  Whatever the environment, a run
    performs the operations of the text in the order they are written, the
    two of the handler only when [import nilearn] raised, and stops at the
    first operation that raises: its trace is a prefix of that list, and all
    of it when the run ends normally.  Nothing depends on the length of an
    iteration or the value of a test: two environments in which the same
    operations raise give the same run. *)
Theorem intro_runs_in_text_order (env : environment) :
  let r := run env IntroSource.notebook in
  let ops := intro_operations (import_failed env) in
  r.2 `prefix_of` ops
  /\ (r.1 = Normal -> r.2 = ops)
  /\ (forall env',
        (forall step ev, raises env' step ev = raises env step ev) ->
        run env' IntroSource.notebook = r).
Proof.
  intros r ops. subst r ops. rewrite intro_operations_split, intro_run_play.
  split; [apply guarded_prefix|]. split; [apply guarded_prefix|].
  intros env' Hsame. rewrite intro_run_play.
  apply guarded_same; [apply intro_rest_library | exact Hsame].
Qed.

(** X16.  [!pip install nilearn] is run once in a run of the first notebook
    in which [%matplotlib inline] went through and [import nilearn] raised,
    and in no other run; no run of the second notebook installs anything. *)
Theorem installs_only_after_failed_import (env : environment) :
  List.filter installs (run env IntroSource.notebook).2
  = (if bool_decide (raises env 0 (EMagic "%matplotlib inline") = None)
        && import_failed env
     then [EMagic "!pip install nilearn"] else [])
  /\ List.filter installs (run env ClassificationSource.notebook).2 = [].
Proof.
  split.
  - rewrite intro_run_play. apply guarded_installs, intro_rest_installs.
  - apply no_installs.
    eapply Forall_impl;
      [apply (run_within env (fun ev => negb (installs ev)));
       vm_compute; reflexivity|].
    intros ev. apply negb_true_iff.
Qed.

(** X17.  A run ends with an exception only when its last operation raised
    it.  In the first notebook that operation is a library operation; in the
    second it is a library operation or the [assert] of cell 12 on a false
    test, with AssertionError.  Neither notebook raises otherwise. *)
Theorem exceptions_come_from_operations (env : environment) (exception : string) :
  ((run env IntroSource.notebook).1 = Raised exception ->
   exists before ev,
     (run env IntroSource.notebook).2 = before ++ [ev]
     /\ library ev = true
     /\ raises env (length before) ev = Some exception)
  /\ ((run env ClassificationSource.notebook).1 = Raised exception ->
      exists before ev,
        (run env ClassificationSource.notebook).2 = before ++ [ev]
        /\ ((library ev = true
             /\ raises env (length before) ev = Some exception)
            \/ (ev = EAssert
                /\ truth env (length before) = false
                /\ exception = "AssertionError"))).
Proof.
  split; intros Hraised.
  - destruct (run_exception env library IntroSource.notebook exception)
      as (before & ev & Htrace & Hev & Hthrow);
      [vm_compute; reflexivity | exact Hraised |].
    exists before, ev. rewrite throws_library in Hthrow by exact Hev. auto.
  - destruct (run_exception env
                (fun ev => match ev with ERaise => false | _ => true end)
                ClassificationSource.notebook exception)
      as (before & ev & Htrace & Hev & Hthrow);
      [vm_compute; reflexivity | exact Hraised |].
    exists before, ev. split; [exact Htrace|].
    destruct ev; try discriminate Hev; try (left; split; [reflexivity | exact Hthrow]).
    right. simpl in Hthrow.
    destruct (truth env (length before)); [discriminate|].
    injection Hthrow as <-. auto.
Qed.

(** X18.  In an environment in which no library operation raises, the first
    notebook runs to its end and performs every operation written outside
    the handler, once; the second runs to its end unless the [assert] of
    cell 12 meets a false test, and does when every test holds. *)
Theorem quiet_environment_runs_through (env : environment) :
  (forall step ev, raises env step ev = None) ->
  run env IntroSource.notebook = (Normal, intro_operations false)
  /\ ((run env ClassificationSource.notebook).1 = Normal
      \/ exists before,
           run env ClassificationSource.notebook
           = (Raised "AssertionError", before ++ [EAssert])
           /\ truth env (length before) = false)
  /\ ((forall step, truth env step = true) ->
      (run env ClassificationSource.notebook).1 = Normal).
Proof.
  intros Hquiet. split; [|split].
  - rewrite intro_run_play, intro_operations_split.
    apply guarded_quiet; [apply intro_rest_library | exact Hquiet].
  - destruct (run env ClassificationSource.notebook) as [[|exception] trace] eqn:Hrun;
      [left; reflexivity | right].
    destruct (run_exception env
                (fun ev => match ev with ERaise => false | _ => true end)
                ClassificationSource.notebook exception)
      as (before & ev & Htrace & Hev & Hthrow);
      [vm_compute; reflexivity | rewrite Hrun; reflexivity |].
    rewrite Hrun in Htrace. simpl in Htrace. subst trace. exists before.
    destruct ev; try discriminate Hev; simpl in Hthrow;
      try (rewrite Hquiet in Hthrow; discriminate Hthrow).
    destruct (truth env (length before)); [discriminate|].
    injection Hthrow as <-. auto.
  - intros Htruth.
    destruct (run env ClassificationSource.notebook) as [[|exception] trace] eqn:Hrun;
      [reflexivity | exfalso].
    destruct (run_exception env
                (fun ev => match ev with ERaise => false | _ => true end)
                ClassificationSource.notebook exception)
      as (before & ev & Htrace & Hev & Hthrow);
      [vm_compute; reflexivity | rewrite Hrun; reflexivity |].
    destruct ev; try discriminate Hev; simpl in Hthrow;
      try (rewrite Hquiet in Hthrow; discriminate Hthrow).
    rewrite Htruth in Hthrow. discriminate Hthrow.
Qed.

Lemma quiet_environment_runs_through_witness :
  run tutorial_run IntroSource.notebook = (Normal, intro_operations false)
  /\ ((run tutorial_run ClassificationSource.notebook).1 = Normal
      \/ exists before,
           run tutorial_run ClassificationSource.notebook
           = (Raised "AssertionError", before ++ [EAssert])
           /\ truth tutorial_run (length before) = false)
  /\ ((forall step, truth tutorial_run step = true) ->
      (run tutorial_run ClassificationSource.notebook).1 = Normal).
Proof.
  apply (quiet_environment_runs_through tutorial_run). intros step ev. reflexivity.
Defined.

Example intro_operations_counted :
  length (intro_operations false) = 116 /\ length (intro_operations true) = 118.
Proof. split; vm_compute; reflexivity. Qed.

End OperationFacts.
